(** * GrowKaro competitor research script ([fetch_data1.py])

    A shallow embedding of the script and of the properties its
    specification states.  The script is one sequential run: it reads two
    credentials and two prompts, geocodes the location, searches nearby
    businesses, pages through their reviews, writes the business table,
    plots it, sends every review to a completion service and reports the
    aspect/sentiment percentages.

    Everything the script does to the outside (console, services, files,
    plots) is modelled as an event; the outside answers through an
    environment record of oracles.  Python exceptions are explicit:
    [Exception] is what [except Exception] catches, [SystemExit] is what
    [sys.exit] raises and what that handler lets through. *)

From Stdlib Require Import List String Ascii Bool Arith ZArith QArith Lia.
From Stdlib Require Import DecimalString DecimalNat DecimalZ.
From Stdlib Require Import Permutation.
Import ListNotations.

Local Close Scope Q_scope.
Local Open Scope nat_scope.
Local Open Scope list_scope.
Local Open Scope string_scope.

(** ** Python primitives on strings *)

Module Py.

(** One-character strings that cannot be written inside a literal. *)
Definition nl : string := String "010" EmptyString.
Definition dquote : string := String "034" EmptyString.

(** [str.isspace] of a character of the ASCII range: tab, line feed,
    vertical tab, form feed, carriage return, the four separators 28..31
    and space. *)
Definition isspace (c : ascii) : bool :=
  let n := nat_of_ascii c in
  (Nat.leb 9 n && Nat.leb n 13) || (Nat.leb 28 n && Nat.leb n 32).

(** A text is held as its UTF-8 bytes.  The whitespace characters beyond
    ASCII take two bytes (U+0085 and U+00A0: C2 85, C2 A0) or three
    (U+1680: E1 9A 80; U+2000..U+200A, U+2028, U+2029, U+202F: E2 80 80..8A,
    E2 80 A8, E2 80 A9, E2 80 AF; U+205F: E2 81 9F; U+3000: E3 80 80). *)
Definition space2 (a b : ascii) : bool :=
  let m := nat_of_ascii a in
  let n := nat_of_ascii b in
  Nat.eqb m 194 && (Nat.eqb n 133 || Nat.eqb n 160).

Definition space3 (a b c : ascii) : bool :=
  let m := nat_of_ascii a in
  let n := nat_of_ascii b in
  let p := nat_of_ascii c in
  (Nat.eqb m 225 && Nat.eqb n 154 && Nat.eqb p 128)
  || (Nat.eqb m 226 && Nat.eqb n 128
      && ((Nat.leb 128 p && Nat.leb p 138)
          || Nat.eqb p 168 || Nat.eqb p 169 || Nat.eqb p 175))
  || (Nat.eqb m 226 && Nat.eqb n 129 && Nat.eqb p 159)
  || (Nat.eqb m 227 && Nat.eqb n 128 && Nat.eqb p 128).

(** [s.lstrip()]: the whitespace characters in front are dropped. *)
Fixpoint lstrip (s : string) : string :=
  match s with
  | EmptyString => s
  | String a r =>
      if isspace a then lstrip r
      else
        match r with
        | EmptyString => s
        | String b r' =>
            if space2 a b then lstrip r'
            else
              match r' with
              | EmptyString => s
              | String c r'' => if space3 a b c then lstrip r'' else s
              end
        end
  end.

(** A text made of whitespace characters only (the empty text too). *)
Fixpoint all_space (s : string) : bool :=
  match s with
  | EmptyString => true
  | String a r =>
      if isspace a then all_space r
      else
        match r with
        | EmptyString => false
        | String b r' =>
            if space2 a b then all_space r'
            else
              match r' with
              | EmptyString => false
              | String c r'' => space3 a b c && all_space r''
              end
        end
  end.

(** [s.rstrip()]: the text up to the point after which only whitespace
    characters follow. *)
Fixpoint rstrip (s : string) : string :=
  match s with
  | EmptyString => EmptyString
  | String c s' => if all_space s then EmptyString else String c (rstrip s')
  end.

(** [s.strip()] *)
Definition strip (s : string) : string := rstrip (lstrip s).

Definition lower_char (c : ascii) : ascii :=
  let n := nat_of_ascii c in
  if Nat.leb 65 n && Nat.leb n 90 then ascii_of_nat (n + 32) else c.

(** [s.lower()] of an ASCII text: the letters A..Z are lowered. *)
Fixpoint lower (s : string) : string :=
  match s with
  | EmptyString => EmptyString
  | String c s' => String (lower_char c) (lower s')
  end.

(** [s.isascii()] *)
Fixpoint isascii (s : string) : bool :=
  match s with
  | EmptyString => true
  | String c s' => Nat.ltb (nat_of_ascii c) 128 && isascii s'
  end.

(** Truth value of a string: only the empty string is false. *)
Definition truthy (s : string) : bool :=
  match s with
  | EmptyString => false
  | String _ _ => true
  end.

(** Truth value of a value that is a string or [None]. *)
Definition truthy_opt (o : option string) : bool :=
  match o with
  | Some s => truthy s
  | None => false
  end.

(** Truth value of a list: only the empty list is false. *)
Definition truthy_list {A : Type} (l : list A) : bool :=
  match l with
  | [] => false
  | _ :: _ => true
  end.

(** [str(n)] for integers. *)
Definition str_nat (n : nat) : string := NilZero.string_of_uint (Nat.to_uint n).
Definition str_int (z : Z) : string := NilZero.string_of_int (Z.to_int z).
Definition int_of_str (s : string) : option Z :=
  option_map Z.of_int (NilZero.int_of_string s).

(** [dict.get(key, default)] on a field that may be missing. *)
Definition get {A : Type} (field : option A) (default : A) : A :=
  match field with
  | Some a => a
  | None => default
  end.

(** [Series.unique()]: the distinct values in order of first appearance. *)
Fixpoint unique_from (seen : list string) (l : list string) : list string :=
  match l with
  | [] => []
  | x :: l' =>
      if existsb (String.eqb x) seen then unique_from seen l'
      else x :: unique_from (x :: seen) l'
  end.
Definition unique (l : list string) : list string := unique_from [] l.

End Py.

(** ** The comma-separated format of [DataFrame.to_csv]

    [to_csv(index=False)] writes a header line and one line per row through
    the [csv] writer with minimal quoting and the line feed as line
    terminator: a field is quoted exactly when it holds the delimiter, the
    quote character or a character of the line terminator, and a quote
    inside a quoted field is doubled.  A carriage return alone does not
    make the writer quote a field (CPython 3.11).

    The script never reads the file back.  [read] is what a consumer of
    the file recovers with the [csv] reader over the file opened with
    [newline=''], in its default, lenient mode: outside quotes a line
    feed, a carriage return or the two in a row end a record, a blank line
    is an empty record, and the reader never fails. *)

Module Csv.

Local Open Scope list_scope.

Definition comma : ascii := ","%char.
Definition quote : ascii := "034"%char.
Definition lf : ascii := "010"%char.
Definition cr : ascii := "013"%char.

(** The characters that make the writer quote a field. *)
Definition special (c : ascii) : bool :=
  Ascii.eqb c comma || Ascii.eqb c quote || Ascii.eqb c lf.

Fixpoint needs_quoting (s : string) : bool :=
  match s with
  | EmptyString => false
  | String c s' => special c || needs_quoting s'
  end.

Fixpoint escape (s : string) : string :=
  match s with
  | EmptyString => EmptyString
  | String c s' =>
      if Ascii.eqb c quote then String quote (String quote (escape s'))
      else String c (escape s')
  end.

Definition write_field (s : string) : string :=
  if needs_quoting s then String quote (escape s ++ String quote EmptyString)%string
  else s.

Fixpoint write_fields (fields : list string) : string :=
  match fields with
  | [] => EmptyString
  | [f] => write_field f
  | f :: fields' => (write_field f ++ String comma (write_fields fields'))%string
  end.

(** A row whose only field is empty is written as an empty quoted field,
    so that it is not taken for a blank line. *)
Definition write_row (fields : list string) : string :=
  match fields with
  | [EmptyString] => String quote (String quote (String lf EmptyString))
  | _ => (write_fields fields ++ String lf EmptyString)%string
  end.

Fixpoint write (rows : list (list string)) : string :=
  match rows with
  | [] => EmptyString
  | r :: rows' => (write_row r ++ write rows')%string
  end.

(** A field with a bare carriage return: it holds one and is written
    without quotes. *)
Fixpoint has_cr (s : string) : bool :=
  match s with
  | EmptyString => false
  | String c s' => Ascii.eqb c cr || has_cr s'
  end.

Definition bare_cr (s : string) : bool := has_cr s && negb (needs_quoting s).

Inductive state : Type :=
| StartRecord    (* at the start of a line *)
| AfterCR        (* just after a carriage return that ended a record *)
| StartField     (* after a delimiter *)
| InField        (* inside an unquoted field *)
| InQuoted       (* inside a quoted field *)
| QuoteSeen.     (* a quote read inside a quoted field *)

Definition snoc (s : string) (c : ascii) : string := (s ++ String c EmptyString)%string.

(** The state after the line break [c] that ended a record. *)
Definition after_break (c : ascii) : state :=
  if Ascii.eqb c cr then AfterCR else StartRecord.

Definition is_break (c : ascii) : bool := Ascii.eqb c lf || Ascii.eqb c cr.

Fixpoint read_from (st : state) (field : string) (row : list string)
    (rows : list (list string)) (input : string) : list (list string) :=
  match input with
  | EmptyString =>
      match st with
      | StartRecord | AfterCR => rows
      | StartField | InField | InQuoted | QuoteSeen => rows ++ [row ++ [field]]
      end
  | String c input' =>
      match st with
      | AfterCR =>
          if Ascii.eqb c lf then read_from StartRecord EmptyString [] rows input'
          else if Ascii.eqb c cr then read_from AfterCR EmptyString [] (rows ++ [[]]) input'
          else if Ascii.eqb c quote then read_from InQuoted EmptyString [] rows input'
          else if Ascii.eqb c comma then
            read_from StartField EmptyString [EmptyString] rows input'
          else read_from InField (String c EmptyString) [] rows input'
      | StartRecord =>
          if is_break c then
            read_from (after_break c) EmptyString [] (rows ++ [[]]) input'
          else if Ascii.eqb c quote then read_from InQuoted EmptyString [] rows input'
          else if Ascii.eqb c comma then
            read_from StartField EmptyString [EmptyString] rows input'
          else read_from InField (String c EmptyString) [] rows input'
      | StartField =>
          if is_break c then
            read_from (after_break c) EmptyString []
                      (rows ++ [row ++ [EmptyString]]) input'
          else if Ascii.eqb c quote then read_from InQuoted EmptyString row rows input'
          else if Ascii.eqb c comma then
            read_from StartField EmptyString (row ++ [EmptyString]) rows input'
          else read_from InField (String c EmptyString) row rows input'
      | InField =>
          if is_break c then
            read_from (after_break c) EmptyString [] (rows ++ [row ++ [field]]) input'
          else if Ascii.eqb c comma then
            read_from StartField EmptyString (row ++ [field]) rows input'
          else read_from InField (snoc field c) row rows input'
      | InQuoted =>
          if Ascii.eqb c quote then read_from QuoteSeen field row rows input'
          else read_from InQuoted (snoc field c) row rows input'
      | QuoteSeen =>
          if Ascii.eqb c quote then read_from InQuoted (snoc field quote) row rows input'
          else if Ascii.eqb c comma then
            read_from StartField EmptyString (row ++ [field]) rows input'
          else if is_break c then
            read_from (after_break c) EmptyString [] (rows ++ [row ++ [field]]) input'
          else read_from InField (snoc field c) row rows input'
      end
  end.

Definition read (input : string) : list (list string) :=
  read_from StartRecord EmptyString [] [] input.

(** A table the reader recovers: no row is empty and no field holds a
    bare carriage return. *)
Definition readable (rows : list (list string)) : Prop :=
  Forall (fun fields => fields <> [] /\ Forall (fun f => bare_cr f = false) fields) rows.

End Csv.

(** ** The aspect/sentiment cross-tabulation

    [df.groupby([Business, Aspect, Sentiment]).size().unstack(fill_value=0)]
    followed by the division of every row by its sum, times 100.  The
    sentiment label is whatever the completion service returned, so the table
    is generic in the label type, its equality test and its missing-value
    test ([groupby] drops the records whose key is missing).  The library
    sorts index and columns; the order plays no role below and is left as
    the order of first appearance. *)

Module AspectSummary.
Section Table.

Variable Label : Type.
Variable label_eqb : Label -> Label -> bool.
Variable isna : Label -> bool.

Record AspectRecord : Type := mkAspect {
  Business : string;
  Aspect : string;
  Sentiment : Label
}.

Definition dropna (records : list AspectRecord) : list AspectRecord :=
  filter (fun r => negb (isna (Sentiment r))) records.

Definition pair_eqb (p q : string * string) : bool :=
  String.eqb (fst p) (fst q) && String.eqb (snd p) (snd q).

Definition pair_of (r : AspectRecord) : string * string := (Business r, Aspect r).

(** The distinct values of a list, in order of first appearance. *)
Fixpoint distinct {A : Type} (eqb : A -> A -> bool) (seen l : list A) : list A :=
  match l with
  | [] => []
  | x :: l' =>
      if existsb (eqb x) seen then distinct eqb seen l'
      else x :: distinct eqb (x :: seen) l'
  end.

(** The row index: the (business, aspect) pairs that have a record. *)
Definition index (records : list AspectRecord) : list (string * string) :=
  distinct pair_eqb [] (map pair_of (dropna records)).

(** The columns: the sentiment labels that occur. *)
Definition columns (records : list AspectRecord) : list Label :=
  distinct label_eqb [] (map Sentiment (dropna records)).

(** [groupby(...).size()] at one key; 0 where the key does not occur
    ([fill_value=0]). *)
Definition group_size (records : list AspectRecord)
    (p : string * string) (s : Label) : nat :=
  List.length (filter (fun r => pair_eqb (pair_of r) p && label_eqb (Sentiment r) s)
                      (dropna records)).

(** The number of sentiment labels recorded for a pair. *)
Definition pair_total (records : list AspectRecord) (p : string * string) : nat :=
  List.length (filter (fun r => pair_eqb (pair_of r) p) (dropna records)).

Definition aspect_summary (records : list AspectRecord)
    : list ((string * string) * list (Label * nat)) :=
  map (fun p => (p, map (fun s => (s, group_size records p s)) (columns records)))
      (index records).

(** The sum of a quantity over the columns. *)
Definition total (f : Label -> nat) (cols : list Label) : nat :=
  fold_right (fun c acc => f c + acc) 0 cols.

(** [aspect_summary.sum(axis=1)] for one row. *)
Definition row_sum (cells : list (Label * nat)) : nat :=
  fold_right (fun cell acc => snd cell + acc) 0 cells.

Definition Qnat (n : nat) : Q := inject_Z (Z.of_nat n).

(** [aspect_summary.div(aspect_summary.sum(axis=1), axis=0) * 100] *)
Definition aspect_summary_percent (records : list AspectRecord)
    : list ((string * string) * list (Label * Q)) :=
  map (fun row =>
         (fst row,
          map (fun cell => (fst cell, (Qnat (snd cell) / Qnat (row_sum (snd row)) * 100)%Q))
              (snd row)))
      (aspect_summary records).

Definition Qsum (l : list Q) : Q := fold_right Qplus 0%Q l.

(** The row of a pair, and a cell of a row. *)
Definition row_of {V : Type} (table : list ((string * string) * V))
    (p : string * string) : option V :=
  option_map snd (find (fun row => pair_eqb (fst row) p) table).

Definition cell_of {V : Type} (cells : list (Label * V)) (s : Label) : option V :=
  option_map snd (find (fun cell => label_eqb (fst cell) s) cells).

(** [business in aspect_summary_percent.index]: a partial key matches when
    some row of the index starts with it. *)
Definition in_index (records : list AspectRecord) (business : string) : bool :=
  existsb (fun p => String.eqb (fst p) business) (index records).

End Table.
End AspectSummary.

Arguments AspectSummary.mkAspect {Label}.
Arguments AspectSummary.Business {Label}.
Arguments AspectSummary.Aspect {Label}.
Arguments AspectSummary.Sentiment {Label}.

(** ** Exceptions, outcomes and results *)

(** The two exception classes the script tells apart: [except Exception]
    catches the first and lets the second through. *)
Inductive exn : Type :=
| Exception (msg : string)
| SystemExit (code : Z).

(** What a call to the outside does: it returns, or it raises an error of
    class [Exception] (the client libraries raise nothing else) whose
    message is what [print] shows for it. *)
Inductive outcome (A : Type) : Type :=
| Returns (a : A)
| Raises (msg : string).
Arguments Returns {A} a.
Arguments Raises {A} msg.

(** What a piece of the script does: it completes with a value, it raises,
    or it is still inside the pagination loop when the fuel ends. *)
Inductive run_result (A : Type) : Type :=
| Ok (a : A)
| Raise (e : exn)
| OutOfFuel.
Arguments Ok {A} a.
Arguments Raise {A} e.
Arguments OutOfFuel {A}.

(** ** The script *)

Set Implicit Arguments.

Section Model.

(** The numbers of the responses (latitudes, longitudes, ratings): the
    Python floats and ints that the client library yields.  The script
    never computes with them: they are read from a service and formatted. *)
Variable float : Type.

(** *** Data *)

(** What [json.loads] returns. *)
Unset Elimination Schemes.
Inductive pyval : Type :=
| PyNone
| PyBool (b : bool)
| PyInt (n : Z)
| PyFloat (x : float)
| PyStr (s : string)
| PyList (l : list pyval)
| PyDict (d : list (string * pyval)).
Set Elimination Schemes.

Definition type_name (v : pyval) : string :=
  match v with
  | PyNone => "NoneType"
  | PyBool _ => "bool"
  | PyInt _ => "int"
  | PyFloat _ => "float"
  | PyStr _ => "str"
  | PyList _ => "list"
  | PyDict _ => "dict"
  end.

(** A geocode candidate: [candidate["geometry"]["location"]]. *)
Record GeocodeCandidate : Type := {
  lat : float;
  lng : float
}.

(** A place of the nearby search; every key but the identifier may be
    missing. *)
Record Place : Type := {
  place_id : string;
  name : option string;
  vicinity : option string;
  rating : option float;
  user_ratings_total : option Z
}.

Record PlacesResult : Type := {
  results : option (list Place)
}.

Record Review : Type := {
  text : option string;
  review_rating : option float
}.

Record DetailsResult : Type := {
  reviews : option (list Review)
}.

(** A response of the details call. *)
Record Details : Type := {
  result : option DetailsResult;
  next_page_token : option string
}.

(** A row of [business_data]. *)
Record BusinessRow : Type := {
  Business : string;
  Rating : option float;
  Reviews_Count : Z;
  Address : string
}.

(** A row of [reviews_data]. *)
Record ReviewRow : Type := {
  R_Business : string;
  R_Review : string;
  R_Rating : option float;
  R_Address : string;
  R_Reviews_Count : Z
}.

Definition AspectRow : Type := AspectSummary.AspectRecord pyval.

(** *** Events *)

(** Calls into pandas and matplotlib, one per block of the script:
    [pd.DataFrame(business_data).to_csv(path, index=False)] with the text
    it writes; [print(df_business)]; the scatter plot from [plt.figure] to
    [plt.show]; the summary table ([DataFrame], [groupby], [unstack],
    [div]); [print(aspect_summary_percent.round(2))]; the stacked bar plot
    of one business.  Each may raise: the environment decides. *)
Inductive library_call : Type :=
| ToCsv (path : string) (content : string)
| PrintFrame (frame : list BusinessRow)
| ScatterPlot (frame : list BusinessRow)
| SummaryTable (records : list AspectRow)
| PrintSummary (records : list AspectRow)
| BarPlot (business : string).

Inductive event : Type :=
| Print (line : string)
| Sleep (seconds : Z)
| MapsClient (key : string) (reply : outcome unit)
| GenaiClient (key : string) (reply : outcome unit)
| Input (prompt : string) (reply : outcome string)
| Geocode (address : string) (reply : outcome (list GeocodeCandidate))
| PlacesNearby (location : string) (radius : Z) (type keyword : string)
               (reply : outcome PlacesResult)
| PlaceDetails (id : string) (page_token : option string) (reply : outcome Details)
| GenerateContent (model contents : string) (reply : outcome (option string))
| Library (call : library_call) (reply : outcome unit).

(** *** The environment

    Every oracle takes the number of events that happened before the
    call, so that a service may answer the same request differently over
    time.  The functions on numbers and texts are those of Python:
    [float_repr] is [str(x)], [float_isnan] tells NaN, [float_is_int]
    tells a Python int from a float, [to_float] is [float(x)], and
    [str_lower] is [str.lower] on a text that is not ASCII (the case
    mapping of Unicode). *)
Record Env : Type := {
  environ : string -> option string;
  float_repr : float -> string;
  float_isnan : float -> bool;
  float_is_int : float -> bool;
  to_float : float -> float;
  str_lower : string -> string;
  json_loads : string -> outcome pyval;
  maps_client : nat -> string -> outcome unit;
  genai_client : nat -> string -> outcome unit;
  stdin_input : nat -> string -> outcome string;
  maps_geocode : nat -> string -> outcome (list GeocodeCandidate);
  maps_places_nearby : nat -> string -> Z -> string -> string -> outcome PlacesResult;
  maps_place : nat -> string -> option string -> outcome Details;
  generate_content : nat -> string -> string -> outcome (option string);
  pandas_pyplot : nat -> library_call -> outcome unit
}.

Variable env : Env.

(** *** The monad of the script: a clock in, a result and the events out *)

Definition M (A : Type) : Type := nat -> run_result A * list event.

Definition ret {A : Type} (a : A) : M A := fun _ => (Ok a, []).

Definition bind {A B : Type} (m : M A) (k : A -> M B) : M B :=
  fun clock =>
    match m clock with
    | (Ok a, es) =>
        let (r, es') := k a (clock + List.length es) in (r, (es ++ es')%list)
    | (Raise e, es) => (Raise e, es)
    | (OutOfFuel, es) => (OutOfFuel, es)
    end.

(** The events that came first, put in front of the rest of a run. *)
Definition prepend {A : Type} (es : list event) (rest : run_result A * list event)
    : run_result A * list event :=
  (fst rest, (es ++ snd rest)%list).

Definition raise {A : Type} (e : exn) : M A := fun _ => (Raise e, []).

Definition out_of_fuel {A : Type} : M A := fun _ => (OutOfFuel, []).

(** A call to the outside: the reply comes from the oracle and is logged
    with the request. *)
Definition call {A : Type} (oracle : nat -> outcome A) (log : outcome A -> event)
    : M A :=
  fun clock =>
    let reply := oracle clock in
    (match reply with
     | Returns a => Ok a
     | Raises msg => Raise (Exception msg)
     end, [log reply]).

(** A pure library function that may raise. *)
Definition lift {A : Type} (o : outcome A) : M A :=
  match o with
  | Returns a => ret a
  | Raises msg => raise (Exception msg)
  end.

(** [try: body except Exception as e: handler] *)
Definition try_except {A : Type} (body : M A) (handler : string -> M A) : M A :=
  fun clock =>
    match body clock with
    | (Raise (Exception msg), es) =>
        let (r, es') := handler msg (clock + List.length es) in (r, (es ++ es')%list)
    | other => other
    end.

Definition print (line : string) : M unit := fun _ => (Ok tt, [Print line]).
Definition sleep (seconds : Z) : M unit := fun _ => (Ok tt, [Sleep seconds]).
Definition sys_exit {A : Type} (code : Z) : M A := raise (SystemExit code).
Definition library (c : library_call) : M unit :=
  call (fun clock => pandas_pyplot env clock c) (Library c).

Notation "x <- m ;; k" := (bind m (fun x => k))
  (at level 61, m at next level, right associativity).
Notation "m ;; k" := (bind m (fun _ => k))
  (at level 61, right associativity).

(** *** Gemini review analysis *)

(** The prompt: the instruction template around the review text. *)
Definition prompt (review_text : string) : string :=
  Py.nl ++
  "                You are a review analysis assistant." ++ Py.nl ++
  "                Extract key aspects mentioned in the review below and classify the sentiment" ++ Py.nl ++
  "                (positive, negative, neutral) for each aspect." ++ Py.nl ++
  "                Return a valid JSON object only, where keys are aspects and values are sentiments." ++ Py.nl ++
  Py.nl ++
  "                Review: " ++ Py.dquote ++ review_text ++ Py.dquote ++ Py.nl ++
  "                ".

Definition gemini_model : string := "gemini-2.5-flash".

(** The body of one attempt, with its [try]/[except].  [Some] is the list
    after [append] when the attempt reaches [break]; [None] lets the loop
    go on to the sleep. *)
Definition attempt_body (review_text : string) (attempt : nat)
    (batch_results : list pyval) : M (option (list pyval)) :=
  try_except
    (response <- call (fun clock => generate_content env clock gemini_model (prompt review_text))
                      (GenerateContent gemini_model (prompt review_text)) ;;
     text <- match response with
             | Some t => ret (Py.strip t)
             | None => raise (Exception "'NoneType' object has no attribute 'strip'")
             end ;;
     if Py.truthy text then
       parsed <- lift (json_loads env text) ;;
       ret (Some (batch_results ++ [parsed])%list)
     else
       print ("Empty response, retry " ++ Py.str_nat (attempt + 1)) ;;
       ret None)
    (fun e =>
       print ("Attempt " ++ Py.str_nat (attempt + 1) ++ " failed: " ++ e) ;;
       ret None).

(** [for attempt in range(retries): ... else: batch_results.append({})] *)
Fixpoint for_attempts (review_text : string) (attempts : list nat)
    (batch_results : list pyval) : M (list pyval) :=
  match attempts with
  | [] => ret (batch_results ++ [PyDict []])%list
  | attempt :: attempts' =>
      done <- attempt_body review_text attempt batch_results ;;
      match done with
      | Some batch_results' => ret batch_results'
      | None => sleep 1 ;; for_attempts review_text attempts' batch_results
      end
  end.

Fixpoint for_reviews (review_texts : list string) (retries : nat)
    (batch_results : list pyval) : M (list pyval) :=
  match review_texts with
  | [] => ret batch_results
  | review_text :: review_texts' =>
      batch_results' <- for_attempts review_text (seq 0 retries) batch_results ;;
      for_reviews review_texts' retries batch_results'
  end.

Definition analyze_reviews_batch (review_texts : list string) (retries : nat)
    : M (list pyval) :=
  for_reviews review_texts retries [].

(** *** Main logic *)

Definition location_not_found_line : string := "Location not found.".

(** Geocode location: the coordinates of the first candidate. *)
Definition geocode_location (location_input : string) : M (float * float) :=
  geocode_result <- call (fun clock => maps_geocode env clock location_input)
                         (Geocode location_input) ;;
  match geocode_result with
  | [] => print location_not_found_line ;; sys_exit 1
  | first :: _ => ret (lat first, lng first)
  end.

Definition no_places_line (location_input business_type : string) : string :=
  "No places found for '" ++ business_type ++ "' near '" ++ location_input ++ "'.".

(** [f"{lat},{lng}"] *)
Definition location_of (coordinates : float * float) : string :=
  float_repr env (fst coordinates) ++ "," ++ float_repr env (snd coordinates).

(** Search nearby businesses. *)
Definition search_nearby (location_input business_type : string)
    (coordinates : float * float) : M (list Place) :=
  let location := location_of coordinates in
  places_result <- call (fun clock => maps_places_nearby env clock location 2000%Z
                                        business_type business_type)
                        (PlacesNearby location 2000%Z business_type business_type) ;;
  let results := Py.get (results places_result) [] in
  if negb (Py.truthy_list results) then
    print (no_places_line location_input business_type) ;;
    sys_exit 1
  else ret results.

Definition review_row (name address : string) (reviews_count : Z) (review : Review)
    : ReviewRow :=
  {| R_Business := name;
     R_Review := Py.get (text review) EmptyString;
     R_Rating := review_rating review;
     R_Address := address;
     R_Reviews_Count := reviews_count |}.

(** The rows one page adds:
    [details.get("result", {}).get("reviews", [])], one row per review. *)
Definition page_rows (name address : string) (reviews_count : Z) (details : Details)
    : list ReviewRow :=
  map (review_row name address reviews_count)
      (Py.get (reviews (Py.get (result details) {| reviews := None |})) []).

(** Fetch reviews (pagination): the [while True] loop of one place. *)
Fixpoint fetch_reviews (fuel : nat) (id name address : string) (reviews_count : Z)
    (token : option string) (reviews_data : list ReviewRow) : M (list ReviewRow) :=
  match fuel with
  | O => out_of_fuel
  | S fuel' =>
      details <- (if Py.truthy_opt token
                  then call (fun clock => maps_place env clock id token)
                            (PlaceDetails id token)
                  else call (fun clock => maps_place env clock id None)
                            (PlaceDetails id None)) ;;
      let reviews_data' :=
        (reviews_data ++ page_rows name address reviews_count details)%list in
      if negb (Py.truthy_opt (next_page_token details)) then ret reviews_data'
      else
        sleep 2 ;;
        fetch_reviews fuel' id name address reviews_count (next_page_token details)
                      reviews_data'
  end.

Definition business_row (place : Place) : BusinessRow :=
  {| Business := Py.get (name place) "N/A";
     Rating := rating place;
     Reviews_Count := Py.get (user_ratings_total place) 0%Z;
     Address := Py.get (vicinity place) "N/A" |}.

(** Collect business info + reviews: the [for place in results] loop. *)
Fixpoint collect (fuel : nat) (places : list Place)
    (business_data : list BusinessRow) (reviews_data : list ReviewRow)
    : M (list BusinessRow * list ReviewRow) :=
  match places with
  | [] => ret (business_data, reviews_data)
  | place :: places' =>
      let row := business_row place in
      reviews_data' <- fetch_reviews fuel (place_id place) (Business row) (Address row)
                                     (Reviews_Count row) None reviews_data ;;
      collect fuel places' (business_data ++ [row])%list reviews_data'
  end.

(** The table [to_csv] writes for [pd.DataFrame(business_data)]. *)
Definition csv_header : list string :=
  ["Business"; "Rating"; "Reviews_Count"; "Address"].

(** The type pandas gives the Rating column: a column of Python ints and
    nothing else is an integer column; with a float or a missing rating in
    it the column is a float column, where an int is held as the float of
    the same value and a missing rating as NaN. *)
Definition int_column (business_data : list BusinessRow) : bool :=
  forallb (fun row =>
             match Rating row with
             | Some x => float_is_int env x
             | None => false
             end) business_data.

(** The cell of a rating: in an integer column the int as it stands; in a
    float column the float, and nothing at all for NaN, which is what a
    missing rating has become. *)
Definition rating_cell (ints : bool) (rating : option float) : string :=
  match rating with
  | None => EmptyString
  | Some x =>
      if ints then float_repr env x
      else if float_isnan env (to_float env x) then EmptyString
      else float_repr env (to_float env x)
  end.

Definition csv_row (ints : bool) (row : BusinessRow) : list string :=
  [ Business row;
    rating_cell ints (Rating row);
    Py.str_int (Reviews_Count row);
    Address row ].

(** The script only writes a frame that has a row: an empty search result
    has made it exit before. *)
Definition to_csv (business_data : list BusinessRow) : string :=
  Csv.write (csv_header
             :: map (csv_row (int_column business_data)) business_data).

Definition csv_path : string := "competitor_data.csv".

Definition competitor_data_banner : string := Py.nl ++ "--- Competitor Data ---".
Definition data_saved_line : string := Py.nl ++ "✅ Data saved to competitor_data.csv".

(** Save competitor data. *)
Definition save_competitor_data (business_data : list BusinessRow) : M unit :=
  library (ToCsv csv_path (to_csv business_data)) ;;
  print competitor_data_banner ;;
  library (PrintFrame business_data) ;;
  print data_saved_line.

(** Reviews vs Rating graph. *)
Definition reviews_vs_rating_graph (business_data : list BusinessRow) : M unit :=
  library (ScatterPlot business_data).

Definition isna (v : pyval) : bool :=
  match v with
  | PyNone => true
  | PyFloat x => float_isnan env x
  | _ => false
  end.

(** [for aspects_sentiments in batch_aspects: for aspect, sentiment in
    aspects_sentiments.items(): aspect_results.append(...)] *)
Fixpoint collect_aspects (business : string) (batch_aspects : list pyval)
    (aspect_results : list AspectRow) : M (list AspectRow) :=
  match batch_aspects with
  | [] => ret aspect_results
  | PyDict items :: batch_aspects' =>
      collect_aspects business batch_aspects'
        (aspect_results
         ++ map (fun item => AspectSummary.mkAspect business (fst item) (snd item)) items)%list
  | other :: _ =>
      raise (Exception ("'" ++ type_name other ++ "' object has no attribute 'items'"))
  end.

Definition reviews_of (reviews_data : list ReviewRow) (business : string)
    : list string :=
  map R_Review (filter (fun r => String.eqb (R_Business r) business) reviews_data).

(** [for business in df_reviews["Business"].unique()] *)
Fixpoint for_businesses (reviews_data : list ReviewRow) (businesses : list string)
    (aspect_results : list AspectRow) : M (list AspectRow) :=
  match businesses with
  | [] => ret aspect_results
  | business :: businesses' =>
      let business_reviews := reviews_of reviews_data business in
      print (Py.nl ++ "Processing reviews for '" ++ business ++ "'... ("
             ++ Py.str_nat (List.length business_reviews) ++ " reviews)") ;;
      batch_aspects <- analyze_reviews_batch business_reviews 3 ;;
      aspect_results' <- collect_aspects business batch_aspects aspect_results ;;
      for_businesses reviews_data businesses' aspect_results'
  end.

Definition businesses_of (reviews_data : list ReviewRow) : list string :=
  Py.unique (map R_Business reviews_data).

Definition no_reviews_line : string := "No reviews found for these businesses.".
Definition running_line : string :=
  Py.nl ++ "Running Aspect-Based Sentiment Analysis using Gemini API...".

(** Aspect-Based Sentiment Analysis. *)
Definition aspect_based_sentiment_analysis (reviews_data : list ReviewRow)
    : M (list AspectRow) :=
  if negb (Py.truthy_list reviews_data) then
    print no_reviews_line ;;
    sys_exit 1
  else
    print running_line ;;
    for_businesses reviews_data (businesses_of reviews_data) [].

(** Plot each business that has a row in the summary. *)
Fixpoint plot_businesses (aspect_results : list AspectRow) (businesses : list string)
    : M unit :=
  match businesses with
  | [] => ret tt
  | business :: businesses' =>
      (if AspectSummary.in_index pyval isna aspect_results business
       then library (BarPlot business)
       else ret tt) ;;
      plot_businesses aspect_results businesses'
  end.

Definition no_aspect_line : string := "No aspect sentiment detected.".

(** Aspect Summary. *)
Definition aspect_summary_report (reviews_data : list ReviewRow)
    (aspect_results : list AspectRow) : M unit :=
  if Py.truthy_list aspect_results then
    library (SummaryTable aspect_results) ;;
    print (Py.nl ++ "--- Aspect-Based Sentiment (%) ---") ;;
    library (PrintSummary aspect_results) ;;
    plot_businesses aspect_results (businesses_of reviews_data)
  else print no_aspect_line.

(** The first half of the main logic, up to the graph: it yields
    [business_data] and [reviews_data]. *)
Definition competitor_report (fuel : nat) (location_input business_type : string)
    : M (list BusinessRow * list ReviewRow) :=
  coordinates <- geocode_location location_input ;;
  places <- search_nearby location_input business_type coordinates ;;
  data <- collect fuel places [] [] ;;
  save_competitor_data (fst data) ;;
  reviews_vs_rating_graph (fst data) ;;
  ret data.

(** The body of the top-level [try]. *)
Definition main_logic (fuel : nat) (location_input business_type : string) : M unit :=
  data <- competitor_report fuel location_input business_type ;;
  aspect_results <- aspect_based_sentiment_analysis (snd data) ;;
  aspect_summary_report (snd data) aspect_results.

(** [try: ... except Exception as e: print(...)] *)
Definition unexpected_error_line (e : string) : string :=
  "An unexpected error occurred: " ++ e.

Definition guarded_main (fuel : nat) (location_input business_type : string) : M unit :=
  try_except (main_logic fuel location_input business_type)
             (fun e => print (unexpected_error_line e)).

(** [s.lower()] *)
Definition lower (s : string) : string :=
  if Py.isascii s then Py.lower s else str_lower env s.

Definition credentials_missing : bool :=
  negb (Py.truthy_opt (environ env "GOOGLE_MAPS_API_KEY"))
  || negb (Py.truthy_opt (environ env "GEMINI_API_KEY")).

Definition credentials_line : string :=
  "Error: Please set GOOGLE_MAPS_API_KEY and GEMINI_API_KEY in environment variables.".
Definition location_prompt : string := "Enter city/location (e.g., Mumbai CST): ".
Definition business_prompt : string :=
  "Enter type of business (e.g., restaurant, electronics_store): ".

Definition API_KEY : string := Py.get (environ env "GOOGLE_MAPS_API_KEY") EmptyString.
Definition GEMINI_KEY : string := Py.get (environ env "GEMINI_API_KEY") EmptyString.

(** Setup and user input: everything before the [try]. *)
Definition setup : M (string * string) :=
  if credentials_missing then
    print credentials_line ;;
    sys_exit 1
  else
    call (fun clock => maps_client env clock API_KEY) (MapsClient API_KEY) ;;
    call (fun clock => genai_client env clock GEMINI_KEY) (GenaiClient GEMINI_KEY) ;;
    location <- call (fun clock => stdin_input env clock location_prompt)
                     (Input location_prompt) ;;
    business <- call (fun clock => stdin_input env clock business_prompt)
                     (Input business_prompt) ;;
    ret (Py.strip location, lower (Py.strip business)).

(** The whole script. *)
Definition script (fuel : nat) : M unit :=
  inputs <- setup ;;
  guarded_main fuel (fst inputs) (snd inputs).

(** The process: its exit status and what it did, when it ends.  A run
    that reaches the end exits with 0, [sys.exit(code)] exits with the
    code, an exception nothing catches ends the interpreter with 1. *)
Definition exit_status {A : Type} (r : run_result A) : option Z :=
  match r with
  | Ok _ => Some 0%Z
  | Raise (SystemExit code) => Some code
  | Raise (Exception _) => Some 1%Z
  | OutOfFuel => None
  end.

Definition run (fuel : nat) : option (Z * list event) :=
  let (r, trace) := script fuel 0 in
  option_map (fun status => (status, trace)) (exit_status r).

End Model.

Unset Implicit Arguments.

Arguments PyNone {float}.
Arguments PyBool {float} b.
Arguments PyInt {float} n.
Arguments PyStr {float} s.
Arguments Print {float} line.
Arguments Sleep {float} seconds.
Arguments MapsClient {float} key reply.
Arguments GenaiClient {float} key reply.
Arguments Input {float} prompt reply.
Arguments GenerateContent {float} model contents reply.
Arguments BarPlot {float} business.
Arguments ToCsv {float} path content.
Arguments ret {float A} a _.
Arguments raise {float A} e _.
Arguments out_of_fuel {float A} _.
Arguments sys_exit {float A} code _.
Arguments print {float} line _.
Arguments sleep {float} seconds _.
Arguments business_row {float} place.
Arguments review_row {float} name address reviews_count review.
Arguments page_rows {float} name address reviews_count details.
Arguments csv_row {float} env ints row.
Arguments exit_status {A} r.

(** ** Observations on traces *)

(** The replies to the completion calls of a trace, in order. *)
Fixpoint completion_replies {float : Type} (trace : list (event float))
    : list (outcome (option string)) :=
  match trace with
  | [] => []
  | GenerateContent _ _ reply :: trace' => reply :: completion_replies trace'
  | _ :: trace' => completion_replies trace'
  end.

(** The review texts the completion calls of a trace were issued for. *)
Definition about_review {float : Type} (review_text : string) (e : event float) : Prop :=
  match e with
  | GenerateContent model contents _ =>
      model = gemini_model /\ contents = prompt review_text
  | Print _ => True
  | Sleep seconds => seconds = 1%Z
  | _ => False
  end.


(** The number of reviews the details calls of a trace returned. *)
Definition reviews_in {float : Type} (details : Details float) : nat :=
  List.length (Py.get (reviews (Py.get (result details) {| reviews := None |})) []).

Fixpoint reviews_seen {float : Type} (trace : list (event float)) : nat :=
  match trace with
  | [] => 0
  | PlaceDetails _ _ (Returns details) :: trace' => reviews_in details + reviews_seen trace'
  | _ :: trace' => reviews_seen trace'
  end.

(** The events of the stages. *)
Definition discovery_event {float : Type} (e : event float) : Prop :=
  match e with
  | PlaceDetails _ _ _ => True
  | Sleep seconds => seconds = 2%Z
  | _ => False
  end.

Definition extraction_event {float : Type} (e : event float) : Prop :=
  match e with
  | GenerateContent _ _ _ => True
  | Print _ => True
  | Sleep seconds => seconds = 1%Z
  | _ => False
  end.

Definition reporting_event {float : Type} (e : event float) : Prop :=
  match e with
  | Print _ => True
  | Library (SummaryTable _) _ => True
  | Library (PrintSummary _) _ => True
  | Library (BarPlot _) _ => True
  | _ => False
  end.

(** The events after the first half of the main logic. *)
Definition late_event {float : Type} (e : event float) : Prop :=
  extraction_event e \/ reporting_event e.

(** What a trace shows of the ways a run can end with a failure status. *)
Definition setup_failure {float : Type} (e : event float) : Prop :=
  match e with
  | MapsClient _ (Raises _) => True
  | GenaiClient _ (Raises _) => True
  | Input _ (Raises _) => True
  | _ => False
  end.

Definition setup_failed {float : Type} (trace : list (event float)) : Prop :=
  Exists setup_failure trace.

Definition empty_geocode {float : Type} (e : event float) : Prop :=
  match e with
  | Geocode _ (Returns []) => True
  | _ => False
  end.

Definition geocode_empty {float : Type} (trace : list (event float)) : Prop :=
  Exists empty_geocode trace.

Definition empty_search {float : Type} (e : event float) : Prop :=
  match e with
  | PlacesNearby _ _ _ _ (Returns places_result) =>
      Py.get (results places_result) [] = []
  | _ => False
  end.

Definition search_empty {float : Type} (trace : list (event float)) : Prop :=
  Exists empty_search trace.

Definition graph_shown {float : Type} (e : event float) : Prop :=
  match e with
  | Library (ScatterPlot _) (Returns _) => True
  | _ => False
  end.

(** The graph was shown and no details call returned a review. *)
Definition no_reviews {float : Type} (trace : list (event float)) : Prop :=
  Exists graph_shown trace /\ reviews_seen trace = 0.

(** Kinds of events. *)
Definition is_completion_call {float : Type} (e : event float) : bool :=
  match e with
  | GenerateContent _ _ _ => true
  | _ => false
  end.

Definition is_to_csv {float : Type} (e : event float) : bool :=
  match e with
  | Library (ToCsv _ _) _ => true
  | _ => false
  end.

Section Observations.

Context {float : Type}.
Variable env : Env float.

(** The parse an attempt yields when it is usable: the call returned a
    text, the text is not empty once stripped, and it parses. *)
Definition usable_parse (reply : outcome (option string)) : option (pyval float) :=
  match reply with
  | Returns (Some t) =>
      if Py.truthy (Py.strip t) then
        match json_loads env (Py.strip t) with
        | Returns v => Some v
        | Raises _ => None
        end
      else None
  | Returns None => None
  | Raises _ => None
  end.

(** The ways an attempt fails. *)
Inductive attempt_fails : outcome (option string) -> Prop :=
| call_raises : forall msg, attempt_fails (Raises msg)
| no_text : attempt_fails (Returns None)
| empty_text : forall t, Py.strip t = EmptyString -> attempt_fails (Returns (Some t))
| unparseable_text : forall t msg,
    json_loads env (Py.strip t) = Raises msg -> attempt_fails (Returns (Some t)).

(** What a review contributes, given the replies to its attempts in
    order: the first usable parse, the empty mapping when there is none. *)
Fixpoint verdict (replies : list (outcome (option string))) : pyval float :=
  match replies with
  | [] => PyDict []
  | reply :: replies' =>
      match usable_parse reply with
      | Some v => v
      | None => verdict replies'
      end
  end.

(** The token a details call is made with: a token that is false is not
    passed. *)
Definition passed_token (token : option string) : option string :=
  if Py.truthy_opt token then token else None.

(** The token of the next call after the given pages. *)
Fixpoint next_token (token : option string) (pages : list (Details float))
    : option string :=
  match pages with
  | [] => token
  | details :: pages' => next_token (next_page_token details) pages'
  end.

(** The events of the iterations that go on: a details call made with the
    token of the page before, then a sleep of 2. *)
Fixpoint pagination_prefix (id : string) (token : option string)
    (pages : list (Details float)) : list (event float) :=
  match pages with
  | [] => []
  | details :: pages' =>
      PlaceDetails id (passed_token token) (Returns details)
      :: Sleep 2 :: pagination_prefix id (next_page_token details) pages'
  end.

(** The events of a whole loop: the iterations that go on, then the call
    that ends it. *)
Definition pagination_trace (id : string) (token : option string)
    (pages : list (Details float)) (last : Details float) : list (event float) :=
  (pagination_prefix id token pages
   ++ [PlaceDetails id (passed_token (next_token token pages)) (Returns last)])%list.

(** The service answers the calls of a loop that starts at [clock] with
    the given pages. *)
Fixpoint serves (id : string) (clock : nat) (token : option string)
    (pages : list (Details float)) : Prop :=
  match pages with
  | [] => True
  | details :: pages' =>
      maps_place env clock id (passed_token token) = Returns details
      /\ serves id (clock + 2) (next_page_token details) pages'
  end.

Definition has_token (details : Details float) : Prop :=
  Py.truthy_opt (next_page_token details) = true.

(** A stage that neither exits the process nor runs out of fuel. *)
Definition returns_or_raises {A : Type} (r : run_result A) : Prop :=
  match r with
  | Ok _ => True
  | Raise (Exception _) => True
  | Raise (SystemExit _) => False
  | OutOfFuel => False
  end.

Definition no_exit {A : Type} (r : run_result A) : Prop :=
  match r with
  | Raise (SystemExit _) => False
  | _ => True
  end.

(** The events of a geocode lookup and a nearby search that both return. *)
Definition discovered (location_input business_type : string)
    (first : GeocodeCandidate float) (rest : list (GeocodeCandidate float))
    (places_result : PlacesResult float) : list (event float) :=
  [Geocode location_input (Returns (first :: rest));
   PlacesNearby (location_of env (lat first, lng first)) 2000 business_type business_type
                (Returns places_result)].

(** The events of a save that goes through. *)
Definition saved (business_data : list (BusinessRow float)) : list (event float) :=
  [Library (ToCsv csv_path (to_csv env business_data)) (Returns tt);
   Print competitor_data_banner;
   Library (PrintFrame business_data) (Returns tt);
   Print data_saved_line].

Definition places_of (places_result : PlacesResult float) : list (Place float) :=
  Py.get (results places_result) [].

(** Every way the first half of the main logic can go, with its events. *)
Inductive report_path (location_input business_type : string)
    : run_result (list (BusinessRow float) * list (ReviewRow float))
      -> list (event float) -> Prop :=
| geocode_raises : forall msg,
    report_path location_input business_type
      (Raise (Exception msg)) [Geocode location_input (Raises msg)]
| geocode_finds_nothing :
    report_path location_input business_type
      (Raise (SystemExit 1))
      [Geocode location_input (Returns []); Print location_not_found_line]
| search_raises : forall first rest msg,
    report_path location_input business_type
      (Raise (Exception msg))
      [Geocode location_input (Returns (first :: rest));
       PlacesNearby (location_of env (lat first, lng first)) 2000
                    business_type business_type (Raises msg)]
| search_finds_nothing : forall first rest places_result,
    places_of places_result = [] ->
    report_path location_input business_type
      (Raise (SystemExit 1))
      (discovered location_input business_type first rest places_result
       ++ [Print (no_places_line location_input business_type)])%list
| discovery_stops : forall first rest places_result r es,
    places_of places_result <> [] ->
    Forall discovery_event es ->
    match r with Ok _ => False | Raise (SystemExit _) => False | _ => True end ->
    report_path location_input business_type r
      (discovered location_input business_type first rest places_result ++ es)%list
| to_csv_raises : forall first rest places_result es msg,
    places_of places_result <> [] ->
    Forall discovery_event es ->
    report_path location_input business_type
      (Raise (Exception msg))
      (discovered location_input business_type first rest places_result ++ es
       ++ [Library (ToCsv csv_path
                      (to_csv env (map business_row (places_of places_result))))
                   (Raises msg)])%list
| print_frame_raises : forall first rest places_result es msg,
    places_of places_result <> [] ->
    Forall discovery_event es ->
    report_path location_input business_type
      (Raise (Exception msg))
      (discovered location_input business_type first rest places_result ++ es
       ++ [Library (ToCsv csv_path
                      (to_csv env (map business_row (places_of places_result))))
                   (Returns tt);
           Print competitor_data_banner;
           Library (PrintFrame (map business_row (places_of places_result)))
                   (Raises msg)])%list
| graph_raises : forall first rest places_result es msg,
    places_of places_result <> [] ->
    Forall discovery_event es ->
    report_path location_input business_type
      (Raise (Exception msg))
      (discovered location_input business_type first rest places_result ++ es
       ++ saved (map business_row (places_of places_result))
       ++ [Library (ScatterPlot (map business_row (places_of places_result)))
                   (Raises msg)])%list
| report_done : forall first rest places_result es reviews_data,
    places_of places_result <> [] ->
    Forall discovery_event es ->
    List.length reviews_data = reviews_seen es ->
    report_path location_input business_type
      (Ok (map business_row (places_of places_result), reviews_data))
      (discovered location_input business_type first rest places_result ++ es
       ++ saved (map business_row (places_of places_result))
       ++ [Library (ScatterPlot (map business_row (places_of places_result)))
                   (Returns tt)])%list.

(** What a block of events says about one review: its completion calls
    carry the prompt of that review, there are at most [retries] of them,
    and the review contributes their verdict. *)
Definition review_block (retries : nat) (review_text : string)
    (block : list (event float)) : Prop :=
  Forall (about_review review_text) block
  /\ List.length (completion_replies block) <= retries
  /\ (Forall attempt_fails (completion_replies block) ->
      List.length (completion_replies block) = retries).

Definition verdicts (blocks : list (list (event float))) : list (pyval float) :=
  map (fun block => verdict (completion_replies block)) blocks.

(** What the completion service answers to attempt [j] of a review whose
    loop starts at [clock]: a failed attempt takes three events (the call,
    the printed line, the sleep), so attempt [j] is made at
    [clock + 3 * j]. *)
Definition reply_at (review_text : string) (clock j : nat) : outcome (option string) :=
  generate_content env (clock + 3 * j) gemini_model (prompt review_text).

(** The outcome of one review, from what the service answers: every event
    of the block is about that review; the completion calls are the
    attempts 0, 1, ... in order, each with the answer of the service; and
    either all [retries] attempts were made and failed, and the result is
    the empty mapping, or the attempts before the last failed, the last
    one is usable, no attempt follows it, and the result is its parse. *)
Definition review_outcome (retries : nat) (review_text : string) (clock : nat)
    (block : list (event float)) (result : pyval float) : Prop :=
  Forall (about_review review_text) block
  /\ exists n,
       completion_replies block = map (reply_at review_text clock) (seq 0 n)
       /\ ((n = retries
            /\ Forall attempt_fails (map (reply_at review_text clock) (seq 0 n))
            /\ result = PyDict [])
           \/ exists m v,
                n = S m /\ m < retries
                /\ Forall attempt_fails (map (reply_at review_text clock) (seq 0 m))
                /\ usable_parse (reply_at review_text clock m) = Some v
                /\ result = v).

(** Reviews, blocks of events and results that go together one by one, in
    order, each block starting where the one before ended. *)
Fixpoint aligned (retries : nat) (clock : nat) (review_texts : list string)
    (blocks : list (list (event float))) (results : list (pyval float)) : Prop :=
  match review_texts, blocks, results with
  | [], [], [] => True
  | review_text :: review_texts', block :: blocks', result :: results' =>
      review_outcome retries review_text clock block result
      /\ aligned retries (clock + List.length block) review_texts' blocks' results'
  | _, _, _ => False
  end.

(** The error of [Client.place] when it is passed a page token: the
    function of the googlemaps package has no such parameter. *)
Definition page_token_error : string :=
  "place() got an unexpected keyword argument 'page_token'".

(** The details calls as the googlemaps client answers them: a call made
    with a page token raises before any request is sent. *)
Definition googlemaps_client : Prop :=
  forall clock id token, maps_place env clock id (Some token) = Raises page_token_error.

End Observations.

(** ** The business table, place by place *)

Section Frame.

Context {float : Type}.
Variable env : Env float.

(** Whether the ratings of the places make an integer column. *)
Definition int_ratings (places : list (Place float)) : bool :=
  forallb (fun place =>
             match rating place with
             | Some x => float_is_int env x
             | None => false
             end) places.

(** The cells of the row of a place: its name, rating, number of ratings
    and vicinity, with the defaults of the script for what is missing. *)
Definition place_cells (ints : bool) (place : Place float) : list string :=
  [ Py.get (name place) "N/A";
    rating_cell env ints (rating place);
    Py.str_int (Py.get (user_ratings_total place) 0%Z);
    Py.get (vicinity place) "N/A" ].

(** A row as a reader gets it back: the rating as a float. *)
Definition as_read (row : BusinessRow float) : BusinessRow float :=
  {| Business := Business row;
     Rating := option_map (to_float env) (Rating row);
     Reviews_Count := Reviews_Count row;
     Address := Address row |}.

(** A row the file keeps field for field: no bare carriage return in its
    name or address, and a rating that is not NaN. *)
Definition kept (row : BusinessRow float) : Prop :=
  Csv.bare_cr (Business row) = false
  /\ Csv.bare_cr (Address row) = false
  /\ match Rating row with
     | Some x => float_isnan env (to_float env x) = false
     | None => True
     end.

End Frame.

(** ** Reading the business table back

    The script only writes the file.  This is the reader a consumer would
    use: the reader of the format, then one business row per record, an
    empty rating cell being a missing rating and any other one a number
    read with [float_parse] (Python's [float]). *)

Section Reader.

Context {float : Type}.
Variable float_parse : string -> option float.

Definition decode_rating (cell : string) : option (option float) :=
  match cell with
  | EmptyString => Some None
  | _ => option_map Some (float_parse cell)
  end.

Definition decode_row (fields : list string) : option (BusinessRow float) :=
  match fields with
  | [business; rating_cell; count_cell; address] =>
      match decode_rating rating_cell, Py.int_of_str count_cell with
      | Some r, Some n =>
          Some {| Business := business; Rating := r;
                  Reviews_Count := n; Address := address |}
      | _, _ => None
      end
  | _ => None
  end.

Fixpoint decode_rows (rows : list (list string)) : option (list (BusinessRow float)) :=
  match rows with
  | [] => Some []
  | fields :: rows' =>
      match decode_row fields, decode_rows rows' with
      | Some row, Some decoded => Some (row :: decoded)
      | _, _ => None
      end
  end.

Definition read_competitor_data (content : string) : option (list (BusinessRow float)) :=
  match Csv.read content with
  | header :: rows =>
      if list_eq_dec string_dec header csv_header then decode_rows rows else None
  | [] => None
  end.

End Reader.

(** ** Sample environments

    Concrete services for the examples below.  Floats are taken to be the
    integral ones, written with one decimal. *)

Module Sample.

Definition float : Type := Z.

Definition repr (x : float) : string := Py.str_int x ++ ".0".

(** The text before a final [.0]. *)
Fixpoint chop (s : string) : option string :=
  match s with
  | EmptyString => None
  | String c s' =>
      if String.eqb s' ".0" then Some (String c EmptyString)
      else option_map (String c) (chop s')
  end.

Definition parse (s : string) : option float :=
  match chop s with
  | Some digits => Py.int_of_str digits
  | None => None
  end.

(** A completion text that parses, and its parse. *)
Definition good_text : string :=
  "{" ++ Py.dquote ++ "service" ++ Py.dquote ++ ": "
      ++ Py.dquote ++ "positive" ++ Py.dquote ++ "}".

Definition loads (s : string) : outcome (pyval float) :=
  if String.eqb s good_text then Returns (PyDict [("service", PyStr "positive")])
  else if String.eqb s "{}" then Returns (PyDict [])
  else Raises "Expecting value: line 1 column 1 (char 0)".

Definition credentials (name : string) : option string :=
  if String.eqb name "GOOGLE_MAPS_API_KEY" then Some "AIza-maps"
  else if String.eqb name "GEMINI_API_KEY" then Some "gemini"
  else None.

Definition answers (clock : nat) (prompt : string) : outcome string :=
  if String.eqb prompt location_prompt then Returns " Mumbai CST "
  else Returns "Restaurant".

Definition end_of_input (clock : nat) (prompt : string) : outcome string :=
  Raises "EOF when reading a line".

Definition candidates : list (GeocodeCandidate float) :=
  [ {| lat := 18; lng := 72 |}; {| lat := 19; lng := 73 |} ]%Z.

Definition cafe : Place float :=
  {| place_id := "p1"; name := Some "Cafe, Irani"; vicinity := Some "Fort";
     rating := Some 4%Z; user_ratings_total := Some 120%Z |}.

Definition stall : Place float :=
  {| place_id := "p2"; name := Some "Stall"; vicinity := None;
     rating := None; user_ratings_total := None |}.

Definition first_page : Details float :=
  {| result := Some {| reviews := Some [ {| text := Some "Great service";
                                            review_rating := Some 5%Z |} ] |};
     next_page_token := Some "more" |}.

Definition last_page : Details float :=
  {| result := Some {| reviews := Some [ {| text := Some "Slow";
                                            review_rating := None |} ] |};
     next_page_token := None |}.

Definition empty_page : Details float :=
  {| result := None; next_page_token := None |}.

(** The cafe has two pages of reviews, every other place none. *)
Definition details (clock : nat) (id : string) (token : option string)
    : outcome (Details float) :=
  if String.eqb id "p1" then
    match token with
    | None => Returns first_page
    | Some _ => Returns last_page
    end
  else Returns empty_page.

Definition no_details (clock : nat) (id : string) (token : option string)
    : outcome (Details float) :=
  Returns empty_page.

(** The completion service fails at even clocks and answers at odd ones. *)
Definition completion (clock : nat) (model contents : string)
    : outcome (option string) :=
  if Nat.even clock then Raises "503 UNAVAILABLE"
  else Returns (Some (" " ++ good_text ++ Py.nl)).

(** It raises, answers without a text, with a blank text or with a text
    that is not JSON, in turn. *)
Definition failing_completion (clock : nat) (model contents : string)
    : outcome (option string) :=
  match Nat.modulo clock 4 with
  | 0 => Raises "503 UNAVAILABLE"
  | 1 => Returns None
  | 2 => Returns (Some "  ")
  | _ => Returns (Some "not json")
  end.

Definition environment
    (input : nat -> string -> outcome string)
    (place : nat -> string -> option string -> outcome (Details float))
    (generate : nat -> string -> string -> outcome (option string))
    : Env float :=
  {| environ := credentials;
     float_repr := repr;
     float_isnan := fun _ => false;
     float_is_int := fun _ => false;
     to_float := fun x => x;
     str_lower := fun s => s;
     json_loads := loads;
     maps_client := fun _ _ => Returns tt;
     genai_client := fun _ _ => Returns tt;
     stdin_input := input;
     maps_geocode := fun _ _ => Returns candidates;
     maps_places_nearby := fun _ _ _ _ _ => Returns {| results := Some [cafe; stall] |};
     maps_place := place;
     generate_content := generate;
     pandas_pyplot := fun _ _ => Returns tt |}.

(** Everything answers. *)
Definition env : Env float := environment answers details completion.

(** No place has a review. *)
Definition env_without_reviews : Env float :=
  environment answers no_details completion.

(** The standard input is closed. *)
Definition env_without_input : Env float :=
  environment end_of_input details completion.

(** No completion is usable. *)
Definition env_without_completions : Env float :=
  environment answers details failing_completion.

End Sample.

(** ** Further observations *)

(** The number of sleeps of a trace. *)
Fixpoint sleeps {float : Type} (trace : list (event float)) : nat :=
  match trace with
  | [] => 0
  | Sleep _ :: trace' => S (sleeps trace')
  | _ :: trace' => sleeps trace'
  end.

(** A text that begins with a whitespace character. *)
Definition leading_space (s : string) : bool :=
  match s with
  | EmptyString => false
  | String a r =>
      Py.isspace a
      || match r with
         | EmptyString => false
         | String b r' =>
             Py.space2 a b
             || match r' with
                | EmptyString => false
                | String c _ => Py.space3 a b c
                end
         end
  end.

(** Kinds of requests. *)
Definition is_geocode {float : Type} (e : event float) : bool :=
  match e with
  | Geocode _ _ => true
  | _ => false
  end.

Definition is_search {float : Type} (e : event float) : bool :=
  match e with
  | PlacesNearby _ _ _ _ _ => true
  | _ => false
  end.

(** A request made with normalised input: the address carries no
    surrounding whitespace; the search has radius 2000 and a business type,
    used as type and as keyword, that is lower case and carries no
    surrounding whitespace. *)
Definition normalised_request {float : Type} (e : event float) : Prop :=
  match e with
  | Geocode address _ => Py.strip address = address
  | PlacesNearby _ radius type keyword _ =>
      radius = 2000%Z /\ keyword = type
      /\ Py.strip type = type /\ Py.lower type = type
  | _ => True
  end.

(** A lookup of an address without surrounding whitespace. *)
Definition stripped_address {float : Type} (e : event float) : Prop :=
  match e with
  | Geocode address _ => Py.strip address = address
  | _ => True
  end.

(** A request made for the given inputs. *)
Definition request_for {float : Type} (location_input business_type : string)
    (e : event float) : Prop :=
  match e with
  | Geocode address _ => address = location_input
  | PlacesNearby _ radius type keyword _ =>
      radius = 2000%Z /\ type = business_type /\ keyword = business_type
  | _ => True
  end.

(** A review row made for a place: it carries the name, the address and
    the review count of the row of that place. *)
Definition row_of_place {float : Type} (place : Place float) (row : ReviewRow float)
    : Prop :=
  R_Business row = Business (business_row place)
  /\ R_Address row = Address (business_row place)
  /\ R_Reviews_Count row = Reviews_Count (business_row place).

(** The places whose details were asked for without a page token, in the
    order of the calls. *)
Fixpoint tokenless_calls {float : Type} (trace : list (event float)) : list string :=
  match trace with
  | [] => []
  | PlaceDetails id None _ :: trace' => id :: tokenless_calls trace'
  | _ :: trace' => tokenless_calls trace'
  end.

(** The aspect records of the parses of one business: one record per item
    of each mapping, in order. *)
Definition records_of {float : Type} (business : string) (batch_aspects : list (pyval float))
    : list (AspectRow float) :=
  flat_map (fun parse =>
              match parse with
              | PyDict items =>
                  map (fun item => AspectSummary.mkAspect business (fst item) (snd item))
                      items
              | _ => []
              end) batch_aspects.

Definition is_mapping {float : Type} (v : pyval float) : bool :=
  match v with
  | PyDict _ => true
  | _ => false
  end.

(** The number of reviews handed to the analysis for the given businesses. *)
Definition reviews_handed {float : Type} (reviews_data : list (ReviewRow float))
    (businesses : list string) : nat :=
  list_sum (map (fun business => List.length (reviews_of reviews_data business))
                businesses).

(** The businesses whose bar plot was asked for, in the order of the calls. *)
Fixpoint bar_plots {float : Type} (trace : list (event float)) : list string :=
  match trace with
  | [] => []
  | Library (BarPlot business) _ :: trace' => business :: bar_plots trace'
  | _ :: trace' => bar_plots trace'
  end.

(** The error of a call to Google Maps or to pandas and matplotlib that
    raised.  The completion calls are not among them: their errors are
    handled by the retry loop. *)
Definition service_failure {float : Type} (e : event float) : option string :=
  match e with
  | Geocode _ (Raises msg) => Some msg
  | PlacesNearby _ _ _ _ (Raises msg) => Some msg
  | PlaceDetails _ _ (Raises msg) => Some msg
  | Library _ (Raises msg) => Some msg
  | _ => None
  end.

Definition no_service_failure {float : Type} (trace : list (event float)) : Prop :=
  Forall (fun e => service_failure e = None) trace.

(** A stage stops at the first service failure: no call fails, or the
    last one does and the stage raises its error. *)
Definition stops_at_failure {float A : Type} (run : run_result A * list (event float))
    : Prop :=
  no_service_failure (snd run)
  \/ exists pre e msg,
       snd run = (pre ++ [e])%list
       /\ no_service_failure pre
       /\ service_failure e = Some msg
       /\ fst run = Raise (Exception msg).

(** A completion call that asks about one of the given reviews, with the
    model of the script. *)
Definition asks_about {float : Type} (reviews_data : list (ReviewRow float))
    (e : event float) : Prop :=
  match e with
  | GenerateContent model contents _ =>
      model = gemini_model
      /\ exists row, In row reviews_data /\ contents = prompt (R_Review row)
  | _ => True
  end.

(** ** More sample data *)

Module MoreSamples.

(** The review rows the sample services yield: the two reviews of the
    cafe. *)
Definition collected : list (ReviewRow Sample.float) :=
  [ review_row "Cafe, Irani" "Fort" 120
      {| text := Some "Great service"; review_rating := Some 5%Z |};
    review_row "Cafe, Irani" "Fort" 120
      {| text := Some "Slow"; review_rating := None |} ].



(** The details service of the googlemaps client: a call that passes a
    page token raises, every other call is answered as before. *)
Definition googlemaps_details (clock : nat) (id : string) (token : option string)
    : outcome (Details Sample.float) :=
  match token with
  | Some _ => Raises page_token_error
  | None => Sample.details clock id None
  end.

Definition env_with_googlemaps : Env Sample.float :=
  Sample.environment Sample.answers googlemaps_details Sample.completion.

(** A place whose name holds a carriage return. *)
Definition split_name : string := "A" ++ String Csv.cr "B".

Definition split_place : Place Sample.float :=
  {| place_id := "p3"; name := Some split_name; vicinity := Some "Fort";
     rating := Some 4%Z; user_ratings_total := Some 7%Z |}.

(** The nearby search finds that place and nothing else; no place has a
    review. *)
Definition env_with_split_name : Env Sample.float :=
  {| environ := Sample.credentials;
     float_repr := Sample.repr;
     float_isnan := fun _ => false;
     float_is_int := fun _ => false;
     to_float := fun x => x;
     str_lower := fun s => s;
     json_loads := Sample.loads;
     maps_client := fun _ _ => Returns tt;
     genai_client := fun _ _ => Returns tt;
     stdin_input := Sample.answers;
     maps_geocode := fun _ _ => Returns Sample.candidates;
     maps_places_nearby := fun _ _ _ _ _ => Returns {| results := Some [split_place] |};
     maps_place := Sample.no_details;
     generate_content := Sample.completion;
     pandas_pyplot := fun _ _ => Returns tt |}.

(** Numbers as the responses carry them: a Python int, a float (here of
    integral value) or NaN. *)
Inductive number : Type :=
| Int (n : Z)
| Float (n : Z)
| NaN.

Definition number_repr (x : number) : string :=
  match x with
  | Int n => Py.str_int n
  | Float n => Py.str_int n ++ ".0"
  | NaN => "nan"
  end.

Definition number_isnan (x : number) : bool :=
  match x with
  | NaN => true
  | _ => false
  end.

Definition number_is_int (x : number) : bool :=
  match x with
  | Int _ => true
  | _ => false
  end.

Definition number_to_float (x : number) : number :=
  match x with
  | Int n => Float n
  | _ => x
  end.

(** [float(s)] on the texts above. *)
Definition number_parse (s : string) : option number :=
  if String.eqb s "nan" then Some NaN
  else match Sample.chop s with
       | Some digits => option_map Float (Py.int_of_str digits)
       | None => option_map Float (Py.int_of_str s)
       end.

(** Services that find nothing, over these numbers. *)
Definition env_of_numbers : Env number :=
  {| environ := Sample.credentials;
     float_repr := number_repr;
     float_isnan := number_isnan;
     float_is_int := number_is_int;
     to_float := number_to_float;
     str_lower := fun s => s;
     json_loads := fun _ => Returns (PyDict []);
     maps_client := fun _ _ => Returns tt;
     genai_client := fun _ _ => Returns tt;
     stdin_input := Sample.answers;
     maps_geocode := fun _ _ => Returns [];
     maps_places_nearby := fun _ _ _ _ _ => Returns {| results := None |};
     maps_place := fun _ _ _ => Returns {| result := None; next_page_token := None |};
     generate_content := Sample.completion;
     pandas_pyplot := fun _ _ => Returns tt |}.

Definition table_row (rating : option number) : BusinessRow number :=
  {| Business := "Cafe"; Rating := rating; Reviews_Count := 7%Z; Address := "Fort" |}.

End MoreSamples.

(** * Properties *)

(** ** The monad *)

Section MonadFacts.

Context {float : Type}.

Lemma bind_ok {A B : Type} {m : M float A} (k : A -> M float B) {clock a es} :
  m clock = (Ok a, es) ->
  bind m k clock =
    (fst (k a (clock + List.length es)), es ++ snd (k a (clock + List.length es)))%list.
Proof.
  intros H. unfold bind. rewrite H.
  destruct (k a (clock + List.length es)); reflexivity.
Qed.

Lemma bind_raise {A B : Type} {m : M float A} (k : A -> M float B) {clock e es} :
  m clock = (Raise e, es) -> bind m k clock = (Raise e, es).
Proof. intros H. unfold bind. rewrite H. reflexivity. Qed.

Lemma bind_out_of_fuel {A B : Type} {m : M float A} (k : A -> M float B) {clock es} :
  m clock = (OutOfFuel, es) -> bind m k clock = (OutOfFuel, es).
Proof. intros H. unfold bind. rewrite H. reflexivity. Qed.

Lemma bind_run {A B : Type} (m : M float A) (k : A -> M float B) clock :
  bind m k clock
  = match m clock with
    | (Ok a, es) => prepend es (k a (clock + List.length es))
    | (Raise e, es) => (Raise e, es)
    | (OutOfFuel, es) => (OutOfFuel, es)
    end.
Proof.
  unfold bind, prepend. destruct (m clock) as [[a|e|] es]; trivial.
  destruct (k a (clock + List.length es)); reflexivity.
Qed.

Lemma sleep_run seconds clock :
  @sleep float seconds clock = (Ok tt, [Sleep seconds]).
Proof. reflexivity. Qed.

Lemma print_run line clock :
  @print float line clock = (Ok tt, [Print line]).
Proof. reflexivity. Qed.

End MonadFacts.

(** ** The extraction stage *)

Lemma Forall2_nth_error {A B : Type} {R : A -> B -> Prop} {l1 l2} :
  Forall2 R l1 l2 ->
  forall i a, nth_error l1 i = Some a ->
  exists b, nth_error l2 i = Some b /\ R a b.
Proof.
  induction 1 as [|x y l1 l2 Hxy _ IH]; intros [|i] a Hnth; simpl in Hnth;
    try discriminate.
  - injection Hnth as <-. now exists y.
  - now apply IH.
Qed.

Section Extraction.

Context {float : Type}.
Variable env : Env float.

Lemma usable_parse_none reply :
  usable_parse env reply = None <-> attempt_fails env reply.
Proof.
  split.
  - destruct reply as [[t|]|msg]; simpl; intros H.
    + destruct (Py.strip t) eqn:Et; simpl in H.
      * now apply empty_text.
      * destruct (json_loads env (String a s)) eqn:Ej; [discriminate|].
        apply unparseable_text with (msg := msg). now rewrite Et.
    + apply no_text.
    + apply call_raises.
  - intros H. destruct H as [msg| |t Ht|t msg Ht]; simpl; trivial.
    + now rewrite Ht.
    + rewrite Ht. now destruct (Py.truthy (Py.strip t)).
Qed.

Lemma verdict_all_fail replies :
  Forall (attempt_fails env) replies -> verdict env replies = PyDict [].
Proof.
  induction 1 as [|reply replies Hf _ IH]; simpl; trivial.
  apply usable_parse_none in Hf. now rewrite Hf.
Qed.

(** One attempt: either it is usable and the loop is left with the parse
    appended, or it fails, a line is printed and the loop goes on.  No
    exception leaves the [try]. *)
Lemma attempt_body_cases review_text attempt batch_results clock :
  let reply := generate_content env clock gemini_model (prompt review_text) in
  let call_event := GenerateContent gemini_model (prompt review_text) reply in
  (exists v, usable_parse env reply = Some v /\
     attempt_body env review_text attempt batch_results clock
     = (Ok (Some (batch_results ++ [v])%list), [call_event]))
  \/ (usable_parse env reply = None /\
      exists line,
        attempt_body env review_text attempt batch_results clock
        = (Ok None, [call_event; Print line])).
Proof.
  intros reply call_event. subst call_event.
  unfold attempt_body, try_except, bind, call. fold reply.
  destruct reply as [[t|]|msg]; simpl.
  - destruct (Py.truthy (Py.strip t)) eqn:Et; simpl.
    + destruct (json_loads env (Py.strip t)) as [v|msg] eqn:Ej; simpl.
      * left. exists v. split; reflexivity.
      * right. split; [reflexivity|]. eexists. reflexivity.
    + right. split; [reflexivity|]. eexists. reflexivity.
  - right. split; [reflexivity|]. eexists. reflexivity.
  - right. split; [reflexivity|]. eexists. reflexivity.
Qed.

(** The retry loop of one review. *)
Lemma for_attempts_spec review_text attempts :
  forall batch_results clock,
  exists es,
    for_attempts env review_text attempts batch_results clock
    = (Ok (batch_results ++ [verdict env (completion_replies es)])%list, es)
    /\ List.length (completion_replies es) <= List.length attempts
    /\ Forall (about_review review_text) es
    /\ (Forall (attempt_fails env) (completion_replies es) ->
        List.length (completion_replies es) = List.length attempts).
Proof.
  induction attempts as [|attempt attempts IH]; intros batch_results clock.
  - exists []. simpl. repeat split; auto.
  - simpl for_attempts.
    destruct (attempt_body_cases review_text attempt batch_results clock)
      as [(v & Hu & Hb)|(Hu & line & Hb)].
    + exists [GenerateContent gemini_model (prompt review_text)
                (generate_content env clock gemini_model (prompt review_text))].
      rewrite (bind_ok _ Hb). simpl. rewrite Hu.
      repeat split.
      * lia.
      * repeat constructor.
      * intros Hall. inversion Hall as [|? ? Hf _]; subst.
        apply usable_parse_none in Hf. congruence.
    + rewrite (bind_ok _ Hb). cbv beta iota.
      rewrite (bind_ok _ (sleep_run 1 _)).
      destruct (IH batch_results (clock + 2 + 1)) as (es & Heq & Hlen & Hab & Hex).
      simpl List.length. rewrite Heq.
      exists (GenerateContent gemini_model (prompt review_text)
                (generate_content env clock gemini_model (prompt review_text))
              :: Print line :: Sleep 1 :: es).
      split; [|split; [|split]].
      * simpl. rewrite Hu. reflexivity.
      * simpl. lia.
      * repeat constructor; assumption.
      * simpl. intros Hall. inversion Hall; subst. f_equal. auto.
Qed.

(** The loop over the reviews: one block of events and one appended
    result per review, in order. *)
Lemma for_reviews_spec retries review_texts :
  forall batch_results clock,
  exists blocks,
    for_reviews env review_texts retries batch_results clock
    = (Ok (batch_results ++ verdicts env blocks)%list, List.concat blocks)
    /\ Forall2 (review_block env retries) review_texts blocks.
Proof.
  induction review_texts as [|review_text review_texts IH]; intros batch_results clock.
  - exists []. simpl. rewrite app_nil_r. split; [reflexivity|constructor].
  - simpl for_reviews.
    destruct (for_attempts_spec review_text (seq 0 retries) batch_results clock)
      as (es & Heq & Hlen & Hab & Hex).
    rewrite length_seq in Hlen, Hex.
    rewrite (bind_ok _ Heq).
    destruct (IH (batch_results ++ [verdict env (completion_replies es)])%list
                 (clock + List.length es)) as (blocks & Hrest & Hall).
    rewrite Hrest. exists (es :: blocks). split.
    + simpl. now rewrite <- app_assoc.
    + constructor; [repeat split; assumption|assumption].
Qed.

End Extraction.

Section ExtractionClaims.

Context {float : Type}.
Variable env : Env float.

(** C1.  For every review text the retry loop makes at most 3 completion
    calls and completes with exactly one appended result; when every
    attempt made fails (the call raises, the response has no text, the
    text is empty once stripped, or it does not parse) that result is the
    empty mapping.  The batch function completes as well: no exception
    reaches its caller. *)
Theorem extraction_attempts_bounded :
  (forall review_text batch_results clock,
    exists es,
      List.length (completion_replies es) <= 3
      /\ fst (for_attempts env review_text (seq 0 3) batch_results clock)
         = Ok (batch_results ++ [verdict env (completion_replies es)])%list
      /\ snd (for_attempts env review_text (seq 0 3) batch_results clock) = es
      /\ (Forall (attempt_fails env) (completion_replies es) ->
          for_attempts env review_text (seq 0 3) batch_results clock
          = (Ok (batch_results ++ [PyDict []])%list, es)))
  /\ (forall review_texts clock,
        exists batch_results,
          fst (analyze_reviews_batch env review_texts 3 clock) = Ok batch_results).
Proof.
  split.
  - intros review_text batch_results clock.
    destruct (for_attempts_spec env review_text (seq 0 3) batch_results clock)
      as (es & Heq & Hlen & _ & _).
    exists es. rewrite Heq. simpl. repeat split; trivial.
    intros Hall. now rewrite (verdict_all_fail env _ Hall).
  - intros review_texts clock. unfold analyze_reviews_batch.
    destruct (for_reviews_spec env 3 review_texts [] clock) as (blocks & Heq & _).
    rewrite Heq. eexists. reflexivity.
Qed.

Lemma reply_at_0 review_text clock :
  reply_at env review_text clock 0
  = generate_content env clock gemini_model (prompt review_text).
Proof. unfold reply_at. now rewrite Nat.mul_0_r, Nat.add_0_r. Qed.

Lemma reply_at_shift review_text clock n :
  map (reply_at env review_text (clock + 3)) (seq 0 n)
  = map (reply_at env review_text clock) (seq 1 n).
Proof.
  rewrite <- seq_shift, map_map. apply map_ext. intros j.
  unfold reply_at. now replace (clock + 3 * S j) with (clock + 3 + 3 * j) by lia.
Qed.

(** The retry loop of one review, from what the service answers. *)
Lemma for_attempts_outcome review_text attempts :
  forall batch_results clock,
  exists block result,
    for_attempts env review_text attempts batch_results clock
    = (Ok (batch_results ++ [result])%list, block)
    /\ review_outcome env (List.length attempts) review_text clock block result.
Proof.
  induction attempts as [|attempt attempts IH]; intros batch_results clock.
  - exists [], (PyDict []). split; [reflexivity|]. split; [constructor|].
    exists 0. split; [reflexivity|]. left.
    split; [reflexivity|]. split; [constructor|reflexivity].
  - simpl for_attempts. rewrite bind_run.
    destruct (attempt_body_cases env review_text attempt batch_results clock)
      as [(v & Hu & ->)|(Hu & line & ->)].
    + eexists. exists v. unfold prepend. simpl. split; [reflexivity|].
      split; [repeat constructor|].
      exists 1. simpl. rewrite reply_at_0. split; [reflexivity|]. right.
      exists 0, v. rewrite reply_at_0.
      split; [reflexivity|]. split; [lia|]. split; [constructor|]. split; [exact Hu|reflexivity].
    + rewrite bind_run, sleep_run. simpl List.length.
      replace (clock + 2 + 1) with (clock + 3) by lia.
      destruct (IH batch_results (clock + 3))
        as (block & result & -> & Hab & n & Hreplies & Hcases).
      eexists. exists result. unfold prepend. simpl. split; [reflexivity|].
      split; [repeat constructor; assumption|].
      apply usable_parse_none in Hu. rewrite <- reply_at_0 in Hu.
      exists (S n). rewrite reply_at_shift in Hreplies. split.
      * simpl. rewrite reply_at_0, Hreplies. reflexivity.
      * rewrite reply_at_shift in Hcases.
        destruct Hcases as [(-> & Hall & ->)|(m & v & -> & Hm & Hall & Hv & ->)].
        -- left. split; [reflexivity|]. split; [|reflexivity].
           cbn [seq map]. now constructor.
        -- right. exists (S m), v. rewrite reply_at_shift in Hall.
           split; [reflexivity|]. split; [simpl; lia|].
           split; [cbn [seq map]; now constructor|]. split; [|reflexivity].
           rewrite <- Hv. unfold reply_at.
           now replace (clock + 3 * S m) with (clock + 3 + 3 * m) by lia.
Qed.

Lemma for_reviews_aligned retries review_texts :
  forall batch_results clock,
  exists results blocks,
    for_reviews env review_texts retries batch_results clock
    = (Ok (batch_results ++ results)%list, List.concat blocks)
    /\ aligned env retries clock review_texts blocks results.
Proof.
  induction review_texts as [|review_text review_texts IH]; intros batch_results clock.
  - exists [], []. simpl. rewrite app_nil_r. auto.
  - simpl for_reviews. rewrite bind_run.
    destruct (for_attempts_outcome review_text (seq 0 retries) batch_results clock)
      as (block & result & -> & Hout).
    rewrite length_seq in Hout.
    destruct (IH (batch_results ++ [result])%list (clock + List.length block))
      as (results & blocks & -> & Hal).
    exists (result :: results), (block :: blocks). unfold prepend. simpl.
    rewrite <- app_assoc. auto.
Qed.

Lemma aligned_length retries review_texts :
  forall clock blocks results,
  aligned env retries clock review_texts blocks results ->
  List.length results = List.length review_texts
  /\ List.length blocks = List.length review_texts.
Proof.
  induction review_texts as [|review_text review_texts IH];
    intros clock [|block blocks] [|result results]; simpl; try tauto.
  intros [_ H]. destruct (IH _ _ _ H). auto.
Qed.

(** C9.  The batch function returns one result per review text, in the
    order of the texts.  Its events split into one block per review, the
    blocks in the order of the reviews and result i with block i; the
    completion calls of block i carry the prompt of review i and are
    answered by the service; and result i is the parse of the first usable
    answer, after which no further attempt is made for that review, or
    the empty mapping when all three attempts were made and failed. *)
Theorem results_align_with_reviews review_texts clock :
  exists batch_results blocks,
    analyze_reviews_batch env review_texts 3 clock = (Ok batch_results, List.concat blocks)
    /\ List.length batch_results = List.length review_texts
    /\ List.length blocks = List.length review_texts
    /\ aligned env 3 clock review_texts blocks batch_results.
Proof.
  unfold analyze_reviews_batch.
  destruct (for_reviews_aligned 3 review_texts [] clock)
    as (results & blocks & Heq & Hal).
  exists results, blocks. simpl in Heq.
  destruct (aligned_length 3 review_texts clock blocks results Hal) as [H1 H2].
  auto.
Qed.

End ExtractionClaims.

(** ** The aspect summary *)

Module AspectSummaryFacts.
Import AspectSummary.

Section Facts.

Variable Label : Type.
Variable label_eqb : Label -> Label -> bool.
Variable isna : Label -> bool.
Hypothesis label_eqb_eq : forall x y, label_eqb x y = true <-> x = y.

Lemma pair_eqb_eq p q : pair_eqb p q = true <-> p = q.
Proof.
  destruct p as [b a], q as [b' a']. unfold pair_eqb. simpl.
  rewrite andb_true_iff, !String.eqb_eq. split.
  - intros [-> ->]. reflexivity.
  - intros H. injection H as -> ->. auto.
Qed.

Section Distinct.
Variable A : Type.
Variable eqb : A -> A -> bool.
Hypothesis eqb_eq : forall x y, eqb x y = true <-> x = y.

Lemma existsb_eqb_In x seen : existsb (eqb x) seen = true <-> In x seen.
Proof.
  rewrite existsb_exists. split.
  - intros (y & Hy & He). apply eqb_eq in He. now subst.
  - intros H. exists x. split; trivial. now apply eqb_eq.
Qed.

Lemma distinct_In seen l x :
  In x (distinct eqb seen l) <-> In x l /\ ~ In x seen.
Proof.
  revert seen. induction l as [|y l IH]; intros seen; simpl.
  - tauto.
  - destruct (existsb (eqb y) seen) eqn:E.
    + apply existsb_eqb_In in E. rewrite IH. split.
      * intros [H1 H2]. auto.
      * intros [[->|H1] H2]; [contradiction|auto].
    + assert (Hy : ~ In y seen).
      { intros H. apply existsb_eqb_In in H. congruence. }
      simpl. rewrite IH. simpl. split.
      * intros [->|[H1 H2]]; [auto|]. split; [auto|]. intros H. apply H2. auto.
      * intros [[->|H1] H2]; [auto|].
        destruct (eqb y x) eqn:Eyx.
        -- apply eqb_eq in Eyx. auto.
        -- right. split; trivial. intros [Hyx|H]; [|contradiction].
           apply eqb_eq in Hyx. congruence.
Qed.

Lemma distinct_NoDup seen l : NoDup (distinct eqb seen l).
Proof.
  revert seen. induction l as [|y l IH]; intros seen; simpl.
  - constructor.
  - destruct (existsb (eqb y) seen); [apply IH|].
    constructor; [|apply IH].
    rewrite distinct_In. intros [_ H]. apply H. now left.
Qed.
End Distinct.

Lemma index_In records p :
  In p (index Label isna records) <-> 0 < pair_total Label isna records p.
Proof.
  unfold index, pair_total. rewrite (distinct_In _ _ pair_eqb_eq).
  induction (dropna Label isna records) as [|r l IH]; simpl.
  - split; [tauto|lia].
  - destruct (pair_eqb (pair_of Label r) p) eqn:E; simpl.
    + apply pair_eqb_eq in E. split; [lia|]. intros _. split; auto.
    + split.
      * intros [[H|H] _]; [apply pair_eqb_eq in H; congruence|]. apply IH. tauto.
      * intros H. apply IH in H. tauto.
Qed.

Lemma columns_In records s :
  In s (columns Label label_eqb isna records)
  <-> In s (map Sentiment (dropna Label isna records)).
Proof.
  unfold columns. rewrite (distinct_In _ _ label_eqb_eq). simpl. tauto.
Qed.

(** One record counts in exactly one column. *)
Lemma one_column cols s :
  NoDup cols -> In s cols ->
  fold_right (fun c acc => (if label_eqb s c then 1 else 0) + acc) 0 cols = 1.
Proof.
  induction 1 as [|c cols Hc Hnd IH]; simpl; [tauto|].
  intros [->|Hin].
  - replace (label_eqb s s) with true by (symmetry; now apply label_eqb_eq).
    f_equal. clear IH Hnd. induction cols as [|d cols IH]; simpl; trivial.
    destruct (label_eqb s d) eqn:E.
    + apply label_eqb_eq in E. subst. exfalso. apply Hc. now left.
    + apply IH. intros H. apply Hc. now right.
  - destruct (label_eqb s c) eqn:E.
    + apply label_eqb_eq in E. subst. contradiction.
    + now apply IH.
Qed.

Lemma total_ext f g cols : (forall c, f c = g c) -> total Label f cols = total Label g cols.
Proof. intros H. unfold total. induction cols; simpl; congruence. Qed.

Lemma total_add f g cols :
  total Label (fun c => f c + g c) cols = total Label f cols + total Label g cols.
Proof. unfold total. induction cols; simpl; lia. Qed.

Lemma total_zero cols : total Label (fun _ => 0) cols = 0.
Proof. unfold total. induction cols; simpl; auto. Qed.

Lemma row_sum_map (f : Label -> nat) cols :
  row_sum Label (map (fun s => (s, f s)) cols) = total Label f cols.
Proof.
  unfold row_sum, total. induction cols as [|c cols IH]; simpl; congruence.
Qed.

(** The sum of a row of counts is the number of records of its pair. *)
Lemma row_sum_total records p :
  row_sum Label (map (fun s => (s, group_size Label label_eqb isna records p s))
                     (columns Label label_eqb isna records))
  = pair_total Label isna records p.
Proof.
  rewrite row_sum_map. unfold group_size, pair_total.
  pose proof (distinct_NoDup _ _ label_eqb_eq [] (map Sentiment (dropna Label isna records)))
    as Hnd.
  assert (Hin : forall r, In r (dropna Label isna records) ->
                          In (Sentiment r) (columns Label label_eqb isna records)).
  { intros r Hr. apply columns_In. now apply in_map. }
  fold (columns Label label_eqb isna records) in Hnd.
  revert Hnd Hin.
  generalize (columns Label label_eqb isna records) as cols.
  generalize (dropna Label isna records) as l.
  intros l cols Hnd. induction l as [|r l IH]; intros Hin.
  - simpl. apply total_zero.
  - rewrite (total_ext _
      (fun c => (if pair_eqb (pair_of Label r) p && label_eqb (Sentiment r) c
                 then 1 else 0)
                + List.length (filter (fun r0 => pair_eqb (pair_of Label r0) p
                                                 && label_eqb (Sentiment r0) c) l))).
    2:{ intros c. simpl.
        destruct (pair_eqb (pair_of Label r) p && label_eqb (Sentiment r) c);
          reflexivity. }
    rewrite total_add, IH by (intros r0 Hr0; apply Hin; now right).
    simpl. destruct (pair_eqb (pair_of Label r) p); simpl.
    + unfold total at 1. rewrite one_column; trivial. apply Hin. now left.
    + now rewrite total_zero.
Qed.

Lemma find_key {K V : Type} (eqb : K -> K -> bool) (F : K -> V) keys k :
  (forall x y, eqb x y = true <-> x = y) ->
  In k keys ->
  find (fun row => eqb (fst row) k) (map (fun x => (x, F x)) keys) = Some (k, F k).
Proof.
  intros Heq. induction keys as [|x keys IH]; simpl; [tauto|].
  intros Hin. destruct (eqb x k) eqn:E.
  - apply Heq in E. now subst.
  - destruct Hin as [->|Hin]; [|auto].
    assert (eqb k k = true) by now apply Heq. congruence.
Qed.

Lemma Qnat_add a b : (Qnat (a + b) == Qnat a + Qnat b)%Q.
Proof. unfold Qnat. now rewrite Nat2Z.inj_add, inject_Z_plus. Qed.

Lemma Qsum_percent (f : Label -> nat) (t : Q) cols :
  (Qsum (map (fun s => Qnat (f s) / t * 100) cols) == Qnat (total Label f cols) / t * 100)%Q.
Proof.
  induction cols as [|c cols IH]; simpl.
  - unfold Qnat, Qdiv. simpl. ring.
  - fold (total Label f cols). rewrite IH, Qnat_add. unfold Qdiv. ring.
Qed.

(** C4.  For every (business, aspect) pair with T > 0 recorded sentiment
    labels the summary has the row of that pair; the row has one cell per
    sentiment label of the table, each cell is the count of that label
    for the pair divided by T, times 100; and over the rationals the
    cells of the row add up to exactly 100. *)
Theorem percentages_sum_to_100 records p :
  0 < pair_total Label isna records p ->
  exists cells,
    row_of (aspect_summary_percent Label label_eqb isna records) p = Some cells
    /\ map fst cells = columns Label label_eqb isna records
    /\ (forall s, In s (columns Label label_eqb isna records) ->
          exists q, cell_of Label label_eqb cells s = Some q
            /\ (q == Qnat (group_size Label label_eqb isna records p s)
                     / Qnat (pair_total Label isna records p) * 100)%Q)
    /\ (Qsum (map snd cells) == 100)%Q.
Proof.
  intros HT.
  set (cols := columns Label label_eqb isna records).
  set (T := pair_total Label isna records p).
  set (gs := group_size Label label_eqb isna records p).
  exists (map (fun s => (s, (Qnat (gs s) / Qnat T * 100)%Q)) cols).
  assert (Hrow : row_sum Label (map (fun s => (s, gs s)) cols) = T)
    by apply row_sum_total.
  split; [|split; [|split]].
  - unfold row_of, aspect_summary_percent, aspect_summary.
    rewrite map_map. simpl.
    rewrite (find_key pair_eqb
               (fun p0 => map (fun cell : Label * nat =>
                                 (fst cell,
                                  (Qnat (snd cell)
                                   / Qnat (row_sum Label
                                       (map (fun s => (s, group_size Label label_eqb isna records p0 s))
                                            (columns Label label_eqb isna records)))
                                   * 100)%Q))
                              (map (fun s => (s, group_size Label label_eqb isna records p0 s))
                                   (columns Label label_eqb isna records)))
               (index Label isna records) p pair_eqb_eq).
    + simpl. fold cols gs. rewrite Hrow, map_map. reflexivity.
    + now apply index_In.
  - rewrite map_map. simpl. apply map_id.
  - intros s Hs. unfold cell_of.
    rewrite (find_key label_eqb (fun s => (Qnat (gs s) / Qnat T * 100)%Q) cols s
               label_eqb_eq Hs).
    simpl. eexists. split; reflexivity.
  - rewrite map_map. simpl. rewrite (Qsum_percent gs (Qnat T) cols).
    rewrite <- row_sum_map, Hrow.
    assert (HT' : ~ (Qnat T == 0)%Q).
    { unfold Qnat, Qeq. simpl. lia. }
    field. exact HT'.
Qed.

End Facts.
End AspectSummaryFacts.

(** ** The comma-separated format *)

Module CsvFacts.
Import Csv.
Local Open Scope list_scope.

Lemma string_app_assoc (a b c : string) : ((a ++ b) ++ c = a ++ (b ++ c))%string.
Proof. induction a as [|x a IH]; simpl; congruence. Qed.

Lemma string_app_nil_r (a : string) : (a ++ EmptyString = a)%string.
Proof. induction a as [|x a IH]; simpl; congruence. Qed.

Lemma snoc_app (a : string) (c : ascii) (b : string) :
  (snoc a c ++ b = a ++ String c b)%string.
Proof. unfold snoc. now rewrite string_app_assoc. Qed.

Lemma special_false c :
  special c = false ->
  Ascii.eqb c comma = false /\ Ascii.eqb c quote = false /\ Ascii.eqb c lf = false.
Proof.
  unfold special. intros H.
  repeat (apply orb_false_iff in H; destruct H as [H ?]). auto.
Qed.

(** A character of a field that the writer leaves bare and that holds no
    carriage return is an ordinary character for the reader. *)
Lemma ordinary c :
  special c = false -> Ascii.eqb c cr = false ->
  is_break c = false /\ Ascii.eqb c comma = false /\ Ascii.eqb c quote = false.
Proof.
  intros Hs Hc. destruct (special_false c Hs) as (H1 & H2 & H3).
  unfold is_break. now rewrite H3, Hc.
Qed.

(** Reading the rest of an unquoted field. *)
Lemma read_unquoted f : forall acc row rows rest,
  needs_quoting f = false -> has_cr f = false ->
  read_from InField acc row rows (f ++ rest)%string
  = read_from InField (acc ++ f)%string row rows rest.
Proof.
  induction f as [|c f IH]; intros acc row rows rest Hq Hcr; simpl.
  - now rewrite string_app_nil_r.
  - simpl in Hq, Hcr. apply orb_false_iff in Hq, Hcr.
    destruct Hq as [Hc Hq]. destruct Hcr as [Hc' Hcr].
    destruct (ordinary c Hc Hc') as (H1 & H2 & _).
    rewrite H1, H2, IH by assumption. now rewrite snoc_app.
Qed.

(** Reading the body of a quoted field. *)
Lemma read_quoted f : forall acc row rows rest,
  read_from InQuoted acc row rows (escape f ++ rest)%string
  = read_from InQuoted (acc ++ f)%string row rows rest.
Proof.
  induction f as [|c f IH]; intros acc row rows rest; simpl.
  - now rewrite string_app_nil_r.
  - destruct (Ascii.eqb c quote) eqn:E; simpl.
    + apply Ascii.eqb_eq in E. subst c.
      rewrite IH. now rewrite snoc_app.
    + rewrite E, IH. now rewrite snoc_app.
Qed.

(** The reader at the start of a field: at the start of a line, where no
    field has been read, or after a delimiter. *)
Definition at_start (st : state) (row : list string) : Prop :=
  (st = StartRecord /\ row = []) \/ st = StartField.

Lemma bare_cr_false f :
  bare_cr f = false -> needs_quoting f = false -> has_cr f = false.
Proof.
  unfold bare_cr. intros H Hq. rewrite Hq in H. simpl in H.
  now rewrite andb_true_r in H.
Qed.

Lemma read_field_comma st f row rows rest :
  at_start st row -> bare_cr f = false ->
  read_from st EmptyString row rows (write_field f ++ String comma rest)%string
  = read_from StartField EmptyString (row ++ [f]) rows rest.
Proof.
  intros Hst Hcr. unfold write_field. destruct (needs_quoting f) eqn:Hq.
  - destruct Hst as [[-> ->] | ->]; simpl;
      rewrite string_app_assoc, read_quoted; simpl; reflexivity.
  - pose proof (bare_cr_false f Hcr Hq) as Hno.
    destruct f as [|c f]; simpl.
    + destruct Hst as [[-> ->] | ->]; reflexivity.
    + simpl in Hq, Hno. apply orb_false_iff in Hq, Hno.
      destruct Hq as [Hc Hq]. destruct Hno as [Hc' Hno].
      destruct (ordinary c Hc Hc') as (H1 & H2 & H3).
      destruct Hst as [[-> ->] | ->]; simpl;
        rewrite H1, H2, H3, read_unquoted by assumption; simpl; reflexivity.
Qed.

Lemma read_field_lf st f row rows rest :
  at_start st row -> bare_cr f = false ->
  row <> [] \/ f <> EmptyString ->
  read_from st EmptyString row rows (write_field f ++ String lf rest)%string
  = read_from StartRecord EmptyString [] (rows ++ [row ++ [f]]) rest.
Proof.
  intros Hst Hcr Hne. unfold write_field. destruct (needs_quoting f) eqn:Hq.
  - destruct Hst as [[-> ->] | ->]; simpl;
      rewrite string_app_assoc, read_quoted; simpl; reflexivity.
  - pose proof (bare_cr_false f Hcr Hq) as Hno.
    destruct f as [|c f]; simpl.
    + destruct Hst as [[-> ->] | ->]; [destruct Hne; congruence|reflexivity].
    + simpl in Hq, Hno. apply orb_false_iff in Hq, Hno.
      destruct Hq as [Hc Hq]. destruct Hno as [Hc' Hno].
      destruct (ordinary c Hc Hc') as (H1 & H2 & H3).
      destruct Hst as [[-> ->] | ->]; simpl;
        rewrite H1, H2, H3, read_unquoted by assumption; simpl; reflexivity.
Qed.

Lemma read_fields fields : forall st row rows rest,
  at_start st row ->
  Forall (fun f => bare_cr f = false) fields ->
  fields <> [] ->
  row <> [] \/ fields <> [EmptyString] ->
  read_from st EmptyString row rows (write_fields fields ++ String lf rest)%string
  = read_from StartRecord EmptyString [] (rows ++ [row ++ fields]) rest.
Proof.
  induction fields as [|f fields IH]; intros st row rows rest Hst Hcr Hne Hblank;
    [congruence|].
  inversion Hcr as [|? ? Hf Hrest]; subst.
  destruct fields as [|g fields].
  - simpl. apply read_field_lf; trivial. destruct Hblank as [H|H]; [now left|].
    right. congruence.
  - change (write_fields (f :: g :: fields))
      with (write_field f ++ String comma (write_fields (g :: fields)))%string.
    rewrite string_app_assoc. simpl append at 2.
    rewrite read_field_comma, IH; trivial.
    + now rewrite <- app_assoc.
    + now right.
    + discriminate.
    + left. now destruct row.
Qed.

Lemma read_row fields rows rest :
  fields <> [] ->
  Forall (fun f => bare_cr f = false) fields ->
  read_from StartRecord EmptyString [] rows (write_row fields ++ rest)%string
  = read_from StartRecord EmptyString [] (rows ++ [fields]) rest.
Proof.
  intros Hne Hcr.
  assert (Hcases : fields = [EmptyString] \/ fields <> [EmptyString]).
  { destruct fields as [|[|c f] [|g fields]]; auto; right; discriminate. }
  destruct Hcases as [->|Hblank]; [reflexivity|].
  assert (Hw : write_row fields = (write_fields fields ++ String lf EmptyString)%string).
  { destruct fields as [|[|c f] [|g fields]]; try reflexivity. congruence. }
  rewrite Hw, string_app_assoc. simpl append at 2.
  rewrite read_fields; auto. now left.
Qed.

Lemma read_from_write rows' : forall rows,
  readable rows' ->
  read_from StartRecord EmptyString [] rows (write rows') = rows ++ rows'.
Proof.
  induction rows' as [|fields rows' IH]; intros rows Hall; simpl.
  - now rewrite app_nil_r.
  - inversion Hall as [|? ? [Hne Hcr] Hrest]; subst.
    rewrite read_row, IH by assumption. now rewrite <- app_assoc.
Qed.

(** What is written is read back, row by row and field by field. *)
Lemma read_write rows : readable rows -> read (write rows) = rows.
Proof. intros H. unfold read. now rewrite read_from_write. Qed.

End CsvFacts.

(** ** The business table *)

Section BusinessTable.

Context {float : Type}.
Variable env : Env float.

Lemma int_of_str_str_int z : Py.int_of_str (Py.str_int z) = Some z.
Proof.
  unfold Py.int_of_str, Py.str_int.
  rewrite NilZero.isi.
  - simpl. now rewrite DecimalZ.of_to.
  - destruct z; simpl; try discriminate.
    intros H. injection H as H. now apply DecimalPos.Unsigned.to_uint_nonnil in H.
  - destruct z; simpl; try discriminate.
    intros H. injection H as H. now apply DecimalPos.Unsigned.to_uint_nonnil in H.
Qed.

Lemma has_cr_app (a b : string) :
  Csv.has_cr (a ++ b) = Csv.has_cr a || Csv.has_cr b.
Proof. induction a as [|c a IH]; simpl; [reflexivity|]. now rewrite IH, orb_assoc. Qed.

Lemma has_cr_digits d : Csv.has_cr (NilEmpty.string_of_uint d) = false.
Proof. induction d; [reflexivity|cbn in *; assumption ..]. Qed.

Lemma has_cr_uint d : Csv.has_cr (NilZero.string_of_uint d) = false.
Proof. destruct d; [reflexivity|apply (has_cr_digits (_ d)) ..]. Qed.

Lemma has_cr_str_int z : Csv.has_cr (Py.str_int z) = false.
Proof.
  unfold Py.str_int. destruct (Z.to_int z); simpl; apply has_cr_uint.
Qed.

Lemma no_cr_plain s : Csv.has_cr s = false -> Csv.bare_cr s = false.
Proof. unfold Csv.bare_cr. now intros ->. Qed.

Section RoundTrip.

(** The reader of numbers is Python's [float]: it reads the text of a
    number that is not NaN back as that number, as a float.  The text of
    such a number is not empty and holds no carriage return, and [float]
    leaves a float as it is. *)
Variable float_parse : string -> option float.
Hypothesis parse_repr :
  forall x, float_isnan env (to_float env x) = false ->
            float_parse (float_repr env x) = Some (to_float env x).
Hypothesis repr_plain :
  forall x, float_isnan env (to_float env x) = false ->
            float_repr env x <> EmptyString /\ Csv.has_cr (float_repr env x) = false.
Hypothesis to_float_idempotent :
  forall x, to_float env (to_float env x) = to_float env x.

Lemma rating_cell_plain ints (r : option float) :
  match r with
  | Some x => float_isnan env (to_float env x) = false
  | None => True
  end ->
  Csv.bare_cr (rating_cell env ints r) = false.
Proof.
  destruct r as [x|]; simpl; [|reflexivity]. intros Hx.
  destruct ints.
  - apply no_cr_plain, repr_plain, Hx.
  - rewrite Hx. apply no_cr_plain, repr_plain. now rewrite to_float_idempotent.
Qed.

Lemma decode_rating_cell ints (r : option float) :
  match r with
  | Some x => float_isnan env (to_float env x) = false
  | None => True
  end ->
  decode_rating float_parse (rating_cell env ints r)
  = Some (option_map (to_float env) r).
Proof.
  destruct r as [x|]; simpl; [|reflexivity]. intros Hx.
  assert (Hcell : forall y, float_isnan env (to_float env y) = false ->
            decode_rating float_parse (float_repr env y) = Some (Some (to_float env y))).
  { intros y Hy. unfold decode_rating. destruct (repr_plain y Hy) as [Hne _].
    destruct (float_repr env y) eqn:E; [congruence|].
    rewrite <- E, parse_repr by assumption. reflexivity. }
  destruct ints.
  - now apply Hcell.
  - rewrite Hx, Hcell by now rewrite to_float_idempotent.
    now rewrite to_float_idempotent.
Qed.

Lemma csv_rows_readable ints (business_data : list (BusinessRow float)) :
  Forall (kept env) business_data ->
  Csv.readable (csv_header :: map (csv_row env ints) business_data).
Proof.
  intros Hall. constructor.
  - split; [discriminate|]. repeat constructor.
  - apply Forall_map. eapply Forall_impl; [|exact Hall].
    intros row (Hb & Ha & Hr). split; [discriminate|].
    repeat constructor; trivial.
    + now apply rating_cell_plain.
    + apply no_cr_plain, has_cr_str_int.
Qed.

Lemma decode_csv_row ints row :
  kept env row ->
  decode_row float_parse (csv_row env ints row) = Some (as_read env row).
Proof.
  intros (_ & _ & Hr). unfold csv_row, decode_row.
  rewrite (decode_rating_cell ints _ Hr), int_of_str_str_int. reflexivity.
Qed.

(** C8, as the code has it.  Read back with the reader of the format,
    the written file gives the rows of [business_data] again, in order and
    field for field (the name, the number of ratings and the address as
    they were, a missing rating as missing, a rating as the float of the
    same value) provided that no name and no address holds a bare carriage
    return and that no rating is NaN.  When the ratings are floats, what is
    read is [business_data] itself.  The table is not empty: the script
    writes the file only after the search has found a place. *)
Theorem csv_round_trip (business_data : list (BusinessRow float)) :
  business_data <> [] ->
  Forall (kept env) business_data ->
  read_competitor_data float_parse (to_csv env business_data)
  = Some (map (as_read env) business_data)
  /\ (Forall (fun row => match Rating row with
                         | Some x => to_float env x = x
                         | None => True
                         end) business_data ->
      read_competitor_data float_parse (to_csv env business_data)
      = Some business_data).
Proof.
  intros _ Hkept.
  assert (Hread : read_competitor_data float_parse (to_csv env business_data)
                  = Some (map (as_read env) business_data)).
  { unfold read_competitor_data, to_csv.
    rewrite (CsvFacts.read_write _ (csv_rows_readable _ _ Hkept)).
    destruct (list_eq_dec string_dec csv_header csv_header) as [_|H]; [|congruence].
    generalize (int_column env business_data). intros ints.
    induction Hkept as [|row rows Hrow _ IH]; [reflexivity|].
    cbn [map decode_rows]. rewrite (decode_csv_row ints row Hrow), IH. reflexivity. }
  split; [exact Hread|].
  intros Hfloat. rewrite Hread. f_equal. clear Hread Hkept.
  induction Hfloat as [|row rows Hrow _ IH]; [reflexivity|].
  cbn [map]. rewrite IH. f_equal.
  destruct row as [business [x|] count address]; unfold as_read; simpl in *;
    [now rewrite Hrow|reflexivity].
Qed.

End RoundTrip.

End BusinessTable.

(** ** Review pagination *)

Section Pagination.

Local Open Scope list_scope.

Context {float : Type}.
Variable env : Env float.
Variables (id name address : string) (reviews_count : Z).

Let rows_of (pages : list (Details float)) : list (ReviewRow float) :=
  flat_map (page_rows name address reviews_count) pages.

Lemma fetch_reviews_step fuel token reviews_data clock :
  fetch_reviews env (S fuel) id name address reviews_count token reviews_data clock
  = match maps_place env clock id (passed_token token) with
    | Returns details =>
        if Py.truthy_opt (next_page_token details) then
          let (r, es) :=
            fetch_reviews env fuel id name address reviews_count
              (next_page_token details)
              (reviews_data ++ page_rows name address reviews_count details)
              (clock + 2) in
          (r, PlaceDetails id (passed_token token) (Returns details) :: Sleep 2 :: es)
        else
          (Ok (reviews_data ++ page_rows name address reviews_count details),
           [PlaceDetails id (passed_token token) (Returns details)])
    | Raises msg =>
        (Raise (Exception msg), [PlaceDetails id (passed_token token) (Raises msg)])
    end.
Proof.
  simpl. unfold passed_token, bind, call.
  destruct (Py.truthy_opt token);
    match goal with
    | |- context [maps_place env clock id ?t] =>
        destruct (maps_place env clock id t) as [details|msg]
    end; trivial;
    destruct (Py.truthy_opt (next_page_token details)); simpl; trivial;
    rewrite <- Nat.add_assoc; simpl;
    destruct (fetch_reviews env fuel id name address reviews_count
                (next_page_token details) _ (clock + 2)); reflexivity.
Qed.

(** Every way the loop can go, read off its events. *)
Lemma fetch_reviews_cases fuel : forall token reviews_data clock,
  match fetch_reviews env fuel id name address reviews_count token reviews_data clock with
  | (Ok rows, es) =>
      exists pages last,
        serves env id clock token (pages ++ [last])
        /\ Forall has_token pages /\ ~ has_token last
        /\ List.length pages < fuel
        /\ es = pagination_trace id token pages last
        /\ rows = (reviews_data ++ rows_of (pages ++ [last]))%list
  | (Raise e, es) =>
      exists pages msg,
        serves env id clock token pages
        /\ Forall has_token pages
        /\ List.length pages < fuel
        /\ maps_place env (clock + 2 * List.length pages) id
             (passed_token (next_token token pages)) = Raises msg
        /\ e = Exception msg
        /\ es = (pagination_prefix id token pages
                 ++ [PlaceDetails id (passed_token (next_token token pages)) (Raises msg)])%list
  | (OutOfFuel, es) =>
      exists pages,
        serves env id clock token pages
        /\ Forall has_token pages
        /\ List.length pages = fuel
        /\ es = pagination_prefix id token pages
  end.
Proof.
  induction fuel as [|fuel IH]; intros token reviews_data clock.
  - simpl. exists []. simpl. auto.
  - rewrite fetch_reviews_step.
    destruct (maps_place env clock id (passed_token token)) as [details|msg] eqn:Hcall.
    + destruct (Py.truthy_opt (next_page_token details)) eqn:Htok.
      * specialize (IH (next_page_token details)
                       (reviews_data ++ page_rows name address reviews_count details)%list
                       (clock + 2)).
        destruct (fetch_reviews env fuel id name address reviews_count
                    (next_page_token details) _ (clock + 2)) as [[rows|e|] es].
        -- destruct IH as (pages & last & Hs & Hall & Hlast & Hlen & Hes & Hrows).
           exists (details :: pages), last. simpl. repeat split; auto.
           ++ lia.
           ++ unfold pagination_trace in *. simpl. now rewrite Hes.
           ++ subst rows. unfold rows_of. simpl. now rewrite <- app_assoc.
        -- destruct IH as (pages & msg & Hs & Hall & Hlen & Hr & He & Hes).
           exists (details :: pages), msg. simpl. repeat split; auto.
           ++ lia.
           ++ rewrite <- Hr. f_equal. lia.
           ++ now rewrite Hes.
        -- destruct IH as (pages & Hs & Hall & Hlen & Hes).
           exists (details :: pages). simpl. repeat split; auto.
           now rewrite Hes.
      * exists [], details. simpl. repeat split; auto.
        -- unfold has_token. congruence.
        -- lia.
        -- unfold rows_of. simpl. now rewrite app_nil_r.
    + exists [], msg. simpl. repeat split; auto.
      * lia.
      * now rewrite Nat.add_0_r.
Qed.

Lemma fetch_reviews_ends pages : forall last token reviews_data clock fuel,
  serves env id clock token (pages ++ [last]) ->
  Forall has_token pages -> ~ has_token last ->
  List.length pages < fuel ->
  fetch_reviews env fuel id name address reviews_count token reviews_data clock
  = (Ok (reviews_data ++ rows_of (pages ++ [last])), pagination_trace id token pages last).
Proof.
  induction pages as [|details pages IH]; intros last token reviews_data clock fuel
    Hs Hall Hlast Hlen; (destruct fuel as [|fuel]; [simpl in Hlen; lia|]);
    rewrite fetch_reviews_step; simpl in Hs; destruct Hs as [Hcall Hs]; rewrite Hcall.
  - destruct (Py.truthy_opt (next_page_token last)) eqn:E; [contradiction|].
    unfold rows_of. simpl. now rewrite app_nil_r.
  - inversion Hall as [|? ? Htok Hrest]; subst. rewrite Htok.
    rewrite (IH last _ _ _ fuel Hs Hrest Hlast) by (simpl in Hlen; lia).
    unfold rows_of, pagination_trace. simpl. now rewrite <- app_assoc.
Qed.

Lemma fetch_reviews_goes_on pages : forall token reviews_data clock,
  serves env id clock token pages ->
  Forall has_token pages ->
  fetch_reviews env (List.length pages) id name address reviews_count token
                reviews_data clock
  = (OutOfFuel, pagination_prefix id token pages).
Proof.
  induction pages as [|details pages IH]; intros token reviews_data clock Hs Hall.
  - reflexivity.
  - simpl List.length. rewrite fetch_reviews_step.
    simpl in Hs. destruct Hs as [Hcall Hs]. rewrite Hcall.
    inversion Hall as [|? ? Htok Hrest]; subst. rewrite Htok.
    now rewrite (IH _ _ _ Hs Hrest).
Qed.

(** With the googlemaps client the loop does not get past a page that
    carries a token: the call that passes the token on raises. *)
Lemma fetch_reviews_token_raises fuel details reviews_data clock :
  googlemaps_client env ->
  maps_place env clock id None = Returns details ->
  has_token details ->
  fetch_reviews env (S (S fuel)) id name address reviews_count None reviews_data clock
  = (Raise (Exception page_token_error),
     [ PlaceDetails id None (Returns details);
       Sleep 2;
       PlaceDetails id (next_page_token details) (Raises page_token_error) ]).
Proof.
  intros Hclient Hcall Htok. unfold has_token in Htok.
  rewrite fetch_reviews_step. change (passed_token None) with (@None string).
  rewrite Hcall, Htok.
  rewrite fetch_reviews_step. unfold passed_token. rewrite Htok.
  destruct (next_page_token details) as [token|]; [|discriminate Htok].
  rewrite Hclient. reflexivity.
Qed.

End Pagination.

(** ** The stages of the main logic *)

Section Stages.

Local Open Scope list_scope.

Context {float : Type}.
Variable env : Env float.

Lemma geocode_location_cases location_input clock :
  geocode_location env location_input clock
  = match maps_geocode env clock location_input with
    | Returns (first :: rest) =>
        (Ok (lat first, lng first),
         [Geocode location_input (Returns (first :: rest))])
    | Returns [] =>
        (Raise (SystemExit 1),
         [Geocode location_input (Returns []); Print location_not_found_line])
    | Raises msg =>
        (Raise (Exception msg), [Geocode location_input (Raises msg)])
    end.
Proof.
  unfold geocode_location, bind, call.
  destruct (maps_geocode env clock location_input) as [[|first rest]|msg]; reflexivity.
Qed.

Lemma search_nearby_cases location_input business_type coordinates clock :
  let location := location_of env coordinates in
  let reply := maps_places_nearby env clock location 2000 business_type business_type in
  let request := PlacesNearby location 2000 business_type business_type reply in
  search_nearby env location_input business_type coordinates clock
  = match reply with
    | Returns places_result =>
        match places_of places_result with
        | [] =>
            (Raise (SystemExit 1),
             [request; Print (no_places_line location_input business_type)])
        | place :: places => (Ok (place :: places), [request])
        end
    | Raises msg => (Raise (Exception msg), [request])
    end.
Proof.
  cbv zeta. unfold search_nearby, bind, call, places_of.
  destruct (maps_places_nearby env clock _ 2000 business_type business_type)
    as [places_result|msg]; [|reflexivity].
  destruct (Py.get (results places_result) []); reflexivity.
Qed.

Lemma reviews_seen_app (a b : list (event float)) :
  reviews_seen (a ++ b) = reviews_seen a + reviews_seen b.
Proof.
  induction a as [|e a IH]; simpl; trivial.
  destruct e; trivial. destruct reply; trivial. rewrite IH. lia.
Qed.

Lemma fetch_reviews_events fuel id name address reviews_count :
  forall token reviews_data clock,
  let run := fetch_reviews env fuel id name address reviews_count token
                           reviews_data clock in
  Forall discovery_event (snd run)
  /\ no_exit (fst run)
  /\ forall rows, fst run = Ok rows ->
       List.length rows = List.length reviews_data + reviews_seen (snd run).
Proof.
  induction fuel as [|fuel IH]; intros token reviews_data clock.
  - simpl. repeat split; [constructor|discriminate].
  - cbv zeta. rewrite fetch_reviews_step.
    destruct (maps_place env clock id (passed_token token)) as [details|msg].
    + destruct (Py.truthy_opt (next_page_token details)).
      * specialize (IH (next_page_token details)
                       (reviews_data ++ page_rows name address reviews_count details)
                       (clock + 2)).
        cbv zeta in IH.
        destruct (fetch_reviews env fuel id name address reviews_count
                    (next_page_token details) _ (clock + 2)) as [r es].
        simpl in *. destruct IH as (Hev & Hex & Hlen).
        repeat split; trivial.
        -- repeat constructor; trivial.
        -- intros rows Hr. rewrite (Hlen rows Hr), length_app.
           unfold page_rows, reviews_in. rewrite length_map. lia.
      * simpl. repeat split; [repeat constructor|].
        intros rows [= <-]. rewrite length_app.
        unfold page_rows, reviews_in. rewrite length_map. lia.
    + simpl. repeat split; [repeat constructor|discriminate].
Qed.

Lemma collect_cases fuel places :
  forall business_data reviews_data clock,
  let run := collect env fuel places business_data reviews_data clock in
  Forall discovery_event (snd run)
  /\ no_exit (fst run)
  /\ forall data, fst run = Ok data ->
       fst data = business_data ++ map business_row places
       /\ List.length (snd data) = List.length reviews_data + reviews_seen (snd run).
Proof.
  induction places as [|place places IH]; intros business_data reviews_data clock.
  - simpl. split; [constructor|]. split; [exact I|].
    intros data [= <-]. simpl. rewrite app_nil_r. split; [reflexivity|lia].
  - cbv zeta. simpl collect.
    pose proof (fetch_reviews_events fuel (place_id place)
                  (Business (business_row place)) (Address (business_row place))
                  (Reviews_Count (business_row place)) None reviews_data clock) as Hf.
    cbv zeta in Hf.
    destruct (fetch_reviews env fuel (place_id place) _ _ _ None reviews_data clock)
      as [[rows|e|] es] eqn:Hrun; simpl in Hf; destruct Hf as (Hev & Hex & Hlen).
    + rewrite (bind_ok _ Hrun).
      specialize (IH (business_data ++ [business_row place]) rows
                     (clock + List.length es)).
      cbv zeta in IH. destruct IH as (Hev' & Hex' & Hdata). simpl.
      split; [apply Forall_app; auto|]. split; [assumption|].
      intros data Hd. destruct (Hdata data Hd) as [H1 H2]. split.
      * rewrite H1, <- app_assoc. reflexivity.
      * rewrite H2, (Hlen rows eq_refl), reviews_seen_app. lia.
    + rewrite (bind_raise _ Hrun). simpl.
      split; [assumption|]. split; [assumption|discriminate].
    + rewrite (bind_out_of_fuel _ Hrun). simpl.
      split; [assumption|]. split; [exact I|discriminate].
Qed.

Lemma library_cases c clock :
  library env c clock
  = match pandas_pyplot env clock c with
    | Returns _ => (Ok tt, [Library c (Returns tt)])
    | Raises msg => (Raise (Exception msg), [Library c (Raises msg)])
    end.
Proof.
  unfold library, call. destruct (pandas_pyplot env clock c) as [[]|msg]; reflexivity.
Qed.

Lemma save_competitor_data_cases business_data clock :
  let to_csv_call := ToCsv csv_path (to_csv env business_data) in
  save_competitor_data env business_data clock
  = match pandas_pyplot env clock to_csv_call with
    | Raises msg => (Raise (Exception msg), [Library to_csv_call (Raises msg)])
    | Returns _ =>
        match pandas_pyplot env (clock + 2) (PrintFrame business_data) with
        | Raises msg =>
            (Raise (Exception msg),
             [Library to_csv_call (Returns tt); Print competitor_data_banner;
              Library (PrintFrame business_data) (Raises msg)])
        | Returns _ => (Ok tt, saved env business_data)
        end
    end.
Proof.
  cbv zeta. unfold save_competitor_data.
  unfold bind at 1. rewrite library_cases.
  destruct (pandas_pyplot env clock _) as [[]|msg]; [|reflexivity].
  unfold bind at 1. rewrite print_run. simpl List.length.
  unfold bind at 1. rewrite library_cases.
  replace (clock + 1 + 1) with (clock + 2) by lia.
  destruct (pandas_pyplot env (clock + 2) _) as [[]|msg]; reflexivity.
Qed.

Let on_path (location_input business_type : string)
    (run : run_result (list (BusinessRow float) * list (ReviewRow float))
           * list (event float)) : Prop :=
  report_path env location_input business_type (fst run) (snd run).

(** The first half of the main logic goes one of the listed ways. *)
Lemma competitor_report_path fuel location_input business_type clock :
  report_path env location_input business_type
    (fst (competitor_report env fuel location_input business_type clock))
    (snd (competitor_report env fuel location_input business_type clock)).
Proof.
  change (on_path location_input business_type
            (competitor_report env fuel location_input business_type clock)).
  unfold competitor_report.
  rewrite bind_run, geocode_location_cases.
  destruct (maps_geocode env clock location_input) as [[|first rest]|msg];
    [apply geocode_finds_nothing| |apply geocode_raises].
  pose proof (search_nearby_cases location_input business_type
                (lat first, lng first) (clock + 1)) as Hs.
  cbv zeta in Hs. simpl List.length. rewrite bind_run, Hs. clear Hs.
  destruct (maps_places_nearby env (clock + 1) _ 2000 business_type business_type)
    as [places_result|msg]; [|apply search_raises].
  destruct (places_of places_result) as [|place places] eqn:Hplaces.
  { apply (search_finds_nothing env location_input business_type first rest
             places_result Hplaces). }
  assert (Hne : places_of places_result <> []) by (rewrite Hplaces; discriminate).
  rewrite <- Hplaces. clear Hplaces place places.
  simpl List.length.
  pose proof (collect_cases fuel (places_of places_result) [] [] (clock + 1 + 1)) as Hc.
  cbv zeta in Hc. rewrite bind_run.
  destruct (collect env fuel (places_of places_result) [] [] (clock + 1 + 1))
    as [[data|e|] es]; simpl in Hc; destruct Hc as (Hev & Hex & Hdata).
  - destruct (Hdata data eq_refl) as [Hbd Hrd]. simpl in Hbd, Hrd.
    rewrite bind_run, save_competitor_data_cases. cbv zeta.
    rewrite Hbd.
    destruct (pandas_pyplot env _ (ToCsv _ _)) as [[]|msg].
    2:{ apply (to_csv_raises env location_input business_type first rest
                 places_result es msg Hne Hev). }
    destruct (pandas_pyplot env _ (PrintFrame _)) as [[]|msg].
    2:{ apply (print_frame_raises env location_input business_type first rest
                 places_result es msg Hne Hev). }
    unfold reviews_vs_rating_graph. rewrite bind_run, library_cases.
    destruct (pandas_pyplot env _ (ScatterPlot _)) as [[]|msg].
    2:{ apply (graph_raises env location_input business_type first rest
                 places_result es msg Hne Hev). }
    destruct data as [bd rd]. simpl in Hbd, Hrd. subst bd.
    apply (report_done env location_input business_type first rest
             places_result es rd Hne Hev Hrd).
  - apply (discovery_stops env location_input business_type first rest places_result
             (Raise e) es Hne Hev).
    destruct e; [exact I|contradiction].
  - apply (discovery_stops env location_input business_type first rest places_result
             OutOfFuel es Hne Hev). exact I.
Qed.

Lemma about_review_extraction review_text (e : event float) :
  about_review review_text e -> extraction_event e.
Proof. destruct e; simpl; auto. Qed.

Lemma analyze_reviews_batch_events review_texts clock :
  exists batch_results es,
    analyze_reviews_batch env review_texts 3 clock = (Ok batch_results, es)
    /\ Forall extraction_event es.
Proof.
  unfold analyze_reviews_batch.
  destruct (for_reviews_spec env 3 review_texts [] clock) as (blocks & Heq & Hall).
  rewrite Heq. eexists. eexists. split; [reflexivity|].
  clear Heq. induction Hall as [|review_text block ? ? Hb _ IH]; simpl.
  - constructor.
  - apply Forall_app. split; trivial.
    destruct Hb as (Hab & _).
    eapply Forall_impl; [|exact Hab]. apply about_review_extraction.
Qed.

Lemma collect_aspects_run business (batch_aspects : list (pyval float)) :
  forall aspect_results clock,
  snd (collect_aspects business batch_aspects aspect_results clock) = []
  /\ returns_or_raises (fst (collect_aspects business batch_aspects
                                             aspect_results clock)).
Proof.
  induction batch_aspects as [|v batch_aspects IH]; intros aspect_results clock.
  - simpl. auto.
  - destruct v; simpl; auto.
Qed.

Lemma for_businesses_events reviews_data businesses :
  forall aspect_results clock,
  let run := for_businesses env reviews_data businesses aspect_results clock in
  Forall extraction_event (snd run) /\ returns_or_raises (fst run).
Proof.
  induction businesses as [|business businesses IH]; intros aspect_results clock.
  - simpl. auto.
  - cbv zeta. simpl for_businesses.
    rewrite bind_run, print_run. simpl List.length.
    rewrite bind_run.
    destruct (analyze_reviews_batch_events (reviews_of reviews_data business) (clock + 1))
      as (batch & es & Heq & Hev).
    rewrite Heq. rewrite bind_run.
    destruct (collect_aspects_run business batch aspect_results
                (clock + 1 + List.length es)) as [Hnil Hres].
    destruct (collect_aspects business batch aspect_results
                (clock + 1 + List.length es)) as [[aspects|e|] es'];
      simpl in Hnil, Hres; subst es'.
    + specialize (IH aspects (clock + 1 + List.length es + 0)).
      cbv zeta in IH. destruct IH as [Hev' Hres'].
      unfold prepend. simpl. split; trivial.
      constructor; [exact I|]. apply Forall_app. auto.
    + unfold prepend. simpl. split; trivial.
      constructor; [exact I|]. apply Forall_app. auto.
    + contradiction.
Qed.

Lemma analysis_cases reviews_data clock :
  let run := aspect_based_sentiment_analysis env reviews_data clock in
  match reviews_data with
  | [] => run = (Raise (SystemExit 1), [Print no_reviews_line])
  | _ :: _ =>
      exists ex, snd run = Print running_line :: ex
                 /\ Forall extraction_event ex
                 /\ returns_or_raises (fst run)
  end.
Proof.
  cbv zeta. unfold aspect_based_sentiment_analysis.
  destruct reviews_data as [|row rows]; [reflexivity|].
  cbn [Py.truthy_list negb]. rewrite bind_run, print_run.
  simpl List.length.
  pose proof (for_businesses_events (row :: rows) (businesses_of (row :: rows)) []
                (clock + 1)) as H.
  cbv zeta in H. destruct H as [Hev Hres].
  eexists. unfold prepend. simpl. split; [reflexivity|]. auto.
Qed.

Lemma plot_businesses_events aspect_results businesses :
  forall clock,
  let run := plot_businesses env aspect_results businesses clock in
  Forall reporting_event (snd run) /\ returns_or_raises (fst run).
Proof.
  induction businesses as [|business businesses IH]; intros clock.
  - simpl. auto.
  - cbv zeta. simpl plot_businesses. rewrite bind_run.
    destruct (AspectSummary.in_index _ _ aspect_results business).
    + rewrite library_cases.
      destruct (pandas_pyplot env clock (BarPlot business)) as [[]|msg].
      * simpl List.length. specialize (IH (clock + 1)).
        cbv zeta in IH. destruct IH as [Hev Hres].
        unfold prepend. simpl. split; trivial. constructor; [exact I|assumption].
      * simpl. split; [repeat constructor|exact I].
    + unfold ret at 1. simpl List.length. specialize (IH (clock + 0)).
      cbv zeta in IH. destruct IH as [Hev Hres].
      unfold prepend. simpl. auto.
Qed.

Lemma summary_cases reviews_data aspect_results clock :
  let run := aspect_summary_report env reviews_data aspect_results clock in
  match aspect_results with
  | [] => run = (Ok tt, [Print no_aspect_line])
  | _ :: _ => Forall reporting_event (snd run) /\ returns_or_raises (fst run)
  end.
Proof.
  cbv zeta. unfold aspect_summary_report.
  destruct aspect_results as [|record records]; [reflexivity|].
  cbn [Py.truthy_list].
  rewrite bind_run, library_cases.
  destruct (pandas_pyplot env clock (SummaryTable (record :: records))) as [[]|msg].
  2:{ simpl. split; [repeat constructor|exact I]. }
  rewrite bind_run, print_run. rewrite bind_run, library_cases.
  destruct (pandas_pyplot env _ (PrintSummary (record :: records))) as [[]|msg].
  2:{ unfold prepend. simpl. split; [repeat constructor|exact I]. }
  match goal with
  | |- context [plot_businesses env ?a ?b ?c] =>
      pose proof (plot_businesses_events a b c) as H
  end.
  cbv zeta in H. destruct H as [Hev Hres].
  unfold prepend. simpl. split; trivial. repeat constructor; trivial.
Qed.

End Stages.

(** ** The main logic and the process *)

Section MainLogic.

Local Open Scope list_scope.

Context {float : Type}.
Variable env : Env float.

(** The second half of the main logic after the first. *)
Lemma main_logic_cases fuel location_input business_type clock :
  let report := competitor_report env fuel location_input business_type clock in
  let run := main_logic env fuel location_input business_type clock in
  match fst report with
  | Ok data =>
      match snd data with
      | [] => run = (Raise (SystemExit 1), snd report ++ [Print no_reviews_line])
      | _ :: _ =>
          exists ex rp,
            snd run = snd report ++ Print running_line :: ex ++ rp
            /\ Forall extraction_event ex
            /\ Forall reporting_event rp
            /\ returns_or_raises (fst run)
            /\ (forall aspect_results,
                  fst (aspect_based_sentiment_analysis env (snd data)
                         (clock + List.length (snd report))) = Ok aspect_results ->
                  aspect_results = [] ->
                  fst run = Ok tt /\ rp = [Print no_aspect_line])
      end
  | Raise e => run = (Raise e, snd report)
  | OutOfFuel => run = (OutOfFuel, snd report)
  end.
Proof.
  cbv zeta. unfold main_logic. rewrite bind_run.
  destruct (competitor_report env fuel location_input business_type clock)
    as [[data|e|] es]; simpl fst; simpl snd; cbv iota; trivial.
  pose proof (analysis_cases env (snd data) (clock + List.length es)) as Ha.
  cbv zeta in Ha. rewrite bind_run.
  destruct (snd data) as [|row rows] eqn:Hrd.
  - rewrite Ha. unfold prepend. reflexivity.
  - destruct Ha as (ex & Hex & Hev & Hres).
    destruct (aspect_based_sentiment_analysis env (row :: rows) (clock + List.length es))
      as [[aspects|e|] es'] eqn:Hrun; simpl in Hex, Hres; subst es'.
    + pose proof (summary_cases env (row :: rows) aspects
                    (clock + List.length es + List.length (Print running_line :: ex)))
        as Hs.
      cbv zeta in Hs.
      destruct aspects as [|record records].
      * rewrite Hs. exists ex, [Print no_aspect_line]. unfold prepend. simpl.
        split; [reflexivity|]. split; [assumption|].
        split; [repeat constructor|]. split; [exact I|]. auto.
      * destruct Hs as [Hrp Hr].
        eexists ex, _. unfold prepend. simpl.
        split; [reflexivity|]. split; [assumption|].
        split; [exact Hrp|]. split; [exact Hr|].
        intros ar [= <-] Habs. discriminate.
    + exists ex, []. unfold prepend. simpl. rewrite app_nil_r.
      split; [reflexivity|]. split; [assumption|].
      split; [constructor|]. split; [exact Hres|].
      intros ar Habs. discriminate.
    + contradiction.
Qed.

Lemma setup_cases clock :
  setup env clock
  = if credentials_missing env then
      (Raise (SystemExit 1), [Print credentials_line])
    else
      match maps_client env clock (API_KEY env) with
      | Raises msg => (Raise (Exception msg), [MapsClient (API_KEY env) (Raises msg)])
      | Returns _ =>
      match genai_client env (clock + 1) (GEMINI_KEY env) with
      | Raises msg =>
          (Raise (Exception msg),
           [MapsClient (API_KEY env) (Returns tt);
            GenaiClient (GEMINI_KEY env) (Raises msg)])
      | Returns _ =>
      match stdin_input env (clock + 2) location_prompt with
      | Raises msg =>
          (Raise (Exception msg),
           [MapsClient (API_KEY env) (Returns tt);
            GenaiClient (GEMINI_KEY env) (Returns tt);
            Input location_prompt (Raises msg)])
      | Returns location =>
      match stdin_input env (clock + 3) business_prompt with
      | Raises msg =>
          (Raise (Exception msg),
           [MapsClient (API_KEY env) (Returns tt);
            GenaiClient (GEMINI_KEY env) (Returns tt);
            Input location_prompt (Returns location);
            Input business_prompt (Raises msg)])
      | Returns business =>
          (Ok (Py.strip location, lower env (Py.strip business)),
           [MapsClient (API_KEY env) (Returns tt);
            GenaiClient (GEMINI_KEY env) (Returns tt);
            Input location_prompt (Returns location);
            Input business_prompt (Returns business)])
      end end end end.
Proof.
  unfold setup. destruct (credentials_missing env); [reflexivity|].
  unfold bind, call. simpl.
  destruct (maps_client env clock (API_KEY env)) as [[]|msg]; [|reflexivity].
  replace (clock + 1 + 1) with (clock + 2) by lia.
  replace (clock + 2 + 1) with (clock + 3) by lia.
  destruct (genai_client env (clock + 1) (GEMINI_KEY env)) as [[]|msg]; [|reflexivity].
  destruct (stdin_input env (clock + 2) location_prompt) as [location|msg];
    [|reflexivity].
  destruct (stdin_input env (clock + 3) business_prompt) as [business|msg];
    reflexivity.
Qed.

Lemma bind_prefix {A B : Type} (m : M float A) (k : A -> M float B) clock :
  exists later, snd (bind m k clock) = snd (m clock) ++ later.
Proof.
  rewrite bind_run. destruct (m clock) as [[a|e|] es]; simpl.
  - eexists. reflexivity.
  - exists []. now rewrite app_nil_r.
  - exists []. now rewrite app_nil_r.
Qed.

Lemma try_except_prefix {A : Type} (body : M float A) handler clock :
  exists later, snd (try_except body handler clock) = snd (body clock) ++ later.
Proof.
  unfold try_except. destruct (body clock) as [[a|[msg|code]|] es]; simpl;
    try (exists []; now rewrite app_nil_r).
  destruct (handler msg (clock + List.length es)). simpl. eexists. reflexivity.
Qed.

Lemma search_nearby_first location_input business_type coordinates clock :
  exists later,
    snd (search_nearby env location_input business_type coordinates clock)
    = PlacesNearby (location_of env coordinates) 2000 business_type business_type
        (maps_places_nearby env clock (location_of env coordinates) 2000
           business_type business_type)
      :: later.
Proof.
  pose proof (search_nearby_cases env location_input business_type coordinates clock)
    as Hs.
  cbv zeta in Hs. rewrite Hs.
  destruct (maps_places_nearby env clock _ 2000 business_type business_type)
    as [places_result|msg]; [|eexists; reflexivity].
  destruct (places_of places_result); eexists; reflexivity.
Qed.

(** C5.  When the geocode lookup returns candidates, the resolver returns
    the latitude and longitude of the first one, and the nearby search is
    issued at exactly that pair; when it returns none, the run prints the
    location-not-found line and exits with status 1. *)
Theorem first_candidate_coordinates location_input clock :
  (forall first rest,
      maps_geocode env clock location_input = Returns (first :: rest) ->
      geocode_location env location_input clock
      = (Ok (lat first, lng first), [Geocode location_input (Returns (first :: rest))])
      /\ forall fuel business_type,
           exists reply later,
             snd (guarded_main env fuel location_input business_type clock)
             = Geocode location_input (Returns (first :: rest))
               :: PlacesNearby (location_of env (lat first, lng first)) 2000
                               business_type business_type reply
               :: later)
  /\ (maps_geocode env clock location_input = Returns [] ->
      forall fuel business_type,
        guarded_main env fuel location_input business_type clock
        = (Raise (SystemExit 1),
           [Geocode location_input (Returns []); Print location_not_found_line])
        /\ exit_status (fst (guarded_main env fuel location_input business_type clock))
           = Some 1%Z).
Proof.
  split.
  - intros first rest Hg. split.
    + now rewrite geocode_location_cases, Hg.
    + intros fuel business_type.
      unfold guarded_main.
      destruct (try_except_prefix (main_logic env fuel location_input business_type)
                  (fun e => print (unexpected_error_line e)) clock) as (l1 & ->).
      unfold main_logic.
      destruct (bind_prefix (competitor_report env fuel location_input business_type)
                  (fun data =>
                     bind (aspect_based_sentiment_analysis env (snd data))
                          (fun aspect_results =>
                             aspect_summary_report env (snd data) aspect_results))
                  clock) as (l2 & ->).
      unfold competitor_report.
      rewrite bind_run, geocode_location_cases, Hg. unfold prepend. simpl snd.
      match goal with
      | |- context [bind (search_nearby ?e ?li ?bt ?co) ?k ?c] =>
          destruct (bind_prefix (search_nearby e li bt co) k c) as (l3 & ->);
          destruct (search_nearby_first li bt co c) as (l4 & ->)
      end.
      eexists. eexists. simpl. reflexivity.
  - intros Hg fuel business_type.
    unfold guarded_main, try_except, main_logic, competitor_report.
    rewrite bind_run, bind_run, geocode_location_cases, Hg. simpl. auto.
Qed.

(** The [try] block as a whole, after its first half. *)
Lemma guarded_main_cases fuel location_input business_type clock :
  let report := competitor_report env fuel location_input business_type clock in
  let run := guarded_main env fuel location_input business_type clock in
  match fst report with
  | Ok data =>
      match snd data with
      | [] => run = (Raise (SystemExit 1), snd report ++ [Print no_reviews_line])
      | _ :: _ =>
          exists ex rp,
            snd run = snd report ++ Print running_line :: ex ++ rp
            /\ Forall extraction_event ex
            /\ Forall reporting_event rp
            /\ fst run = Ok tt
      end
  | Raise (Exception msg) =>
      run = (Ok tt, snd report ++ [Print (unexpected_error_line msg)])
  | Raise (SystemExit code) => run = (Raise (SystemExit code), snd report)
  | OutOfFuel => run = (OutOfFuel, snd report)
  end.
Proof.
  pose proof (main_logic_cases fuel location_input business_type clock) as Hm.
  cbv zeta in Hm |- *. unfold guarded_main, try_except.
  destruct (fst (competitor_report env fuel location_input business_type clock))
    as [data|[msg|code]|].
  - destruct (snd data) as [|row rows].
    + now rewrite Hm.
    + destruct Hm as (ex & rp & Htrace & Hex & Hrp & Hres & _).
      destruct (main_logic env fuel location_input business_type clock)
        as [[[]|[msg|code]|] es]; simpl in Htrace, Hres; try contradiction; subst es.
      * exists ex, rp. simpl. auto.
      * exists ex, (rp ++ [Print (unexpected_error_line msg)]). simpl.
        rewrite <- !app_assoc. simpl. rewrite <- app_assoc.
        repeat split; trivial.
        apply Forall_app. split; trivial. repeat constructor.
  - rewrite Hm. reflexivity.
  - rewrite Hm. reflexivity.
  - rewrite Hm. reflexivity.
Qed.

(** C6.  What the pagination loop does with the googlemaps client, whose
    [place] has no [page_token] parameter.  The first details call of a
    business is made without a token.  When its response carries a token
    the loop sleeps 2 and calls again with that token, and that call
    raises: no second page is fetched and the reviews of the first page
    are lost with the loop, whether the first page had reviews or not.
    The error is caught by the handler of the [try]: for the first
    business found the whole work is the lookup, the search, these two
    calls and the line of the handler; no file is written. *)
Theorem page_token_call_raises :
  googlemaps_client env ->
  (forall id name address reviews_count fuel details reviews_data clock,
      maps_place env clock id None = Returns details ->
      has_token details ->
      fetch_reviews env (S (S fuel)) id name address reviews_count None reviews_data clock
      = (Raise (Exception page_token_error),
         [ PlaceDetails id None (Returns details);
           Sleep 2;
           PlaceDetails id (next_page_token details) (Raises page_token_error) ]))
  /\ (forall fuel location_input business_type clock first rest places_result
             place places details,
        let location := location_of env (lat first, lng first) in
        maps_geocode env clock location_input = Returns (first :: rest) ->
        maps_places_nearby env (clock + 1) location 2000 business_type business_type
        = Returns places_result ->
        places_of places_result = place :: places ->
        maps_place env (clock + 2) (place_id place) None = Returns details ->
        has_token details ->
        guarded_main env (S (S fuel)) location_input business_type clock
        = (Ok tt,
           [ Geocode location_input (Returns (first :: rest));
             PlacesNearby location 2000 business_type business_type (Returns places_result);
             PlaceDetails (place_id place) None (Returns details);
             Sleep 2;
             PlaceDetails (place_id place) (next_page_token details)
                          (Raises page_token_error);
             Print (unexpected_error_line page_token_error) ])).
Proof.
  intros Hclient. split.
  - intros id name address reviews_count fuel details reviews_data clock Hcall Htok.
    now apply fetch_reviews_token_raises.
  - intros fuel location_input business_type clock first rest places_result
           place places details location Hgeo Hsearch Hplaces Hcall Htok.
    assert (Hreport :
              competitor_report env (S (S fuel)) location_input business_type clock
              = (Raise (Exception page_token_error),
                 [ Geocode location_input (Returns (first :: rest));
                   PlacesNearby location 2000 business_type business_type
                                (Returns places_result);
                   PlaceDetails (place_id place) None (Returns details);
                   Sleep 2;
                   PlaceDetails (place_id place) (next_page_token details)
                                (Raises page_token_error) ])).
    { unfold competitor_report.
      rewrite bind_run, geocode_location_cases, Hgeo. simpl List.length.
      rewrite bind_run, search_nearby_cases. fold location. rewrite Hsearch, Hplaces.
      simpl List.length. rewrite <- Nat.add_assoc. simpl (1 + 1).
      rewrite bind_run. cbn [collect]. rewrite bind_run.
      rewrite (fetch_reviews_token_raises env _ _ _ _ fuel details [] (clock + 2)
                 Hclient Hcall Htok).
      reflexivity. }
    unfold guarded_main, try_except, main_logic.
    rewrite (bind_raise _ Hreport). reflexivity.
Qed.

(** What the kinds of events exclude. *)
Lemma discovery_event_kind (e : event float) :
  discovery_event e -> is_to_csv e = false /\ is_completion_call e = false.
Proof. destruct e; simpl; auto; contradiction. Qed.

Lemma extraction_event_kind (e : event float) :
  extraction_event e -> is_to_csv e = false.
Proof. destruct e; simpl; auto; contradiction. Qed.

Lemma reporting_event_kind (e : event float) :
  reporting_event e -> is_to_csv e = false /\ is_completion_call e = false.
Proof. destruct e as [| | | | | | | | |[] ?]; simpl; auto; contradiction. Qed.

Lemma filter_none {A : Type} (f : A -> bool) l :
  Forall (fun x => f x = false) l -> filter f l = [].
Proof.
  induction 1 as [|x l Hx _ IH]; simpl; trivial. now rewrite Hx.
Qed.

Lemma no_to_csv_in_discovery (es : list (event float)) :
  Forall discovery_event es -> filter is_to_csv es = [].
Proof.
  intros H. apply filter_none. eapply Forall_impl; [|exact H].
  intros e He. now apply discovery_event_kind.
Qed.

Lemma no_completion_in_discovery (es : list (event float)) :
  Forall discovery_event es -> Forall (fun e => is_completion_call e = false) es.
Proof.
  intros H. eapply Forall_impl; [|exact H].
  intros e He. now apply discovery_event_kind.
Qed.

Lemma no_to_csv_in_extraction (es : list (event float)) :
  Forall extraction_event es -> filter is_to_csv es = [].
Proof.
  intros H. apply filter_none. eapply Forall_impl; [|exact H].
  intros e He. now apply extraction_event_kind.
Qed.

Lemma no_to_csv_in_reporting (es : list (event float)) :
  Forall reporting_event es -> filter is_to_csv es = [].
Proof.
  intros H. apply filter_none. eapply Forall_impl; [|exact H].
  intros e He. now apply reporting_event_kind.
Qed.

(** A list that starts with elements of one kind and holds an element of
    another kind holds it after them. *)
Lemma split_after {A : Type} (f : A -> bool) (a b pre post : list A) (x : A) :
  Forall (fun y => f y = false) a -> f x = true ->
  a ++ b = pre ++ x :: post ->
  exists pre', pre = a ++ pre' /\ b = pre' ++ x :: post.
Proof.
  intros Ha Hx. revert pre. induction Ha as [|y a Hy _ IH]; intros pre Heq.
  - exists pre. auto.
  - destruct pre as [|z pre]; simpl in Heq; injection Heq as -> Heq.
    + congruence.
    + destruct (IH pre Heq) as (pre' & -> & ->). exists pre'. auto.
Qed.

Lemma no_such_element {A : Type} (f : A -> bool) (pre post : list A) (x : A) :
  Forall (fun y => f y = false) (pre ++ x :: post) -> f x = true -> False.
Proof.
  intros H Hx. apply Forall_app in H. destruct H as [_ H].
  inversion H; subst. congruence.
Qed.

(** The first half of the main logic makes no completion call, and
    writes the file at most once: the table of the places found. *)
Lemma report_path_writes location_input business_type r es :
  report_path env location_input business_type r es ->
  Forall (fun e => is_completion_call e = false) es
  /\ ((filter is_to_csv es = [] /\ forall data, r <> Ok data)
      \/ exists first places_result reply,
           let business_data := map business_row (places_of places_result) in
           In (PlacesNearby (location_of env (lat first, lng first)) 2000
                            business_type business_type (Returns places_result)) es
           /\ filter is_to_csv es
              = [Library (ToCsv csv_path (to_csv env business_data)) reply]
           /\ forall data, r = Ok data ->
                reply = Returns tt
                /\ fst data = business_data
                /\ In (Library (ToCsv csv_path (to_csv env business_data)) (Returns tt)) es
                /\ In (Library (ScatterPlot business_data) (Returns tt)) es).
Proof.
  intros Hpath.
  destruct Hpath as [msg| |first rest msg|first rest places_result Hnone
                     |first rest places_result r es Hne Hev Hr
                     |first rest places_result es msg Hne Hev
                     |first rest places_result es msg Hne Hev
                     |first rest places_result es msg Hne Hev
                     |first rest places_result es reviews_data Hne Hev Hlen].
  - split; [repeat constructor|]. left. split; [reflexivity|discriminate].
  - split; [repeat constructor|]. left. split; [reflexivity|discriminate].
  - split; [repeat constructor|]. left. split; [reflexivity|discriminate].
  - split; [repeat constructor|]. left. split; [reflexivity|discriminate].
  - split.
    + simpl. repeat constructor. now apply no_completion_in_discovery.
    + left. simpl. split; [now apply no_to_csv_in_discovery|].
      intros data ->. exact Hr.
  - split.
    + simpl. repeat constructor. apply Forall_app. split.
      * now apply no_completion_in_discovery.
      * repeat constructor.
    + right. exists first, places_result, (Raises msg). cbv zeta. split; [|split].
      * simpl. auto.
      * simpl. rewrite filter_app, no_to_csv_in_discovery by assumption. reflexivity.
      * discriminate.
  - split.
    + simpl. repeat constructor. apply Forall_app. split.
      * now apply no_completion_in_discovery.
      * repeat constructor.
    + right. exists first, places_result, (Returns tt). cbv zeta. split; [|split].
      * simpl. auto.
      * simpl. rewrite filter_app, no_to_csv_in_discovery by assumption. reflexivity.
      * discriminate.
  - split.
    + simpl. repeat constructor. apply Forall_app. split.
      * now apply no_completion_in_discovery.
      * repeat constructor.
    + right. exists first, places_result, (Returns tt). cbv zeta. split; [|split].
      * simpl. auto.
      * simpl. rewrite filter_app, no_to_csv_in_discovery by assumption. reflexivity.
      * discriminate.
  - split.
    + simpl. repeat constructor. apply Forall_app. split.
      * now apply no_completion_in_discovery.
      * repeat constructor.
    + right. exists first, places_result, (Returns tt). cbv zeta. split; [|split].
      * simpl. auto.
      * simpl. rewrite filter_app, no_to_csv_in_discovery by assumption. reflexivity.
      * intros data [= <-]. simpl fst. repeat split.
        -- simpl. right. right. apply in_or_app. right. simpl. auto.
        -- simpl. right. right. apply in_or_app. right. simpl. auto 10.
Qed.

(** What the [try] block writes, and where its completion calls are. *)
Lemma guarded_main_writes fuel location_input business_type clock :
  let report := competitor_report env fuel location_input business_type clock in
  let trace := snd (guarded_main env fuel location_input business_type clock) in
  (filter is_to_csv trace = []
   /\ Forall (fun e => is_completion_call e = false) trace
   /\ forall data, fst report <> Ok data)
  \/ exists first places_result reply,
       let business_data := map business_row (places_of places_result) in
       In (PlacesNearby (location_of env (lat first, lng first)) 2000
                        business_type business_type (Returns places_result)) trace
       /\ filter is_to_csv trace
          = [Library (ToCsv csv_path (to_csv env business_data)) reply]
       /\ (forall data, fst report = Ok data -> reply = Returns tt)
       /\ forall pre post x,
            is_completion_call x = true -> trace = pre ++ x :: post ->
            In (Library (ToCsv csv_path (to_csv env business_data)) (Returns tt)) pre
            /\ In (Library (ScatterPlot business_data) (Returns tt)) pre.
Proof.
  pose proof (competitor_report_path env fuel location_input business_type clock) as Hp.
  pose proof (guarded_main_cases fuel location_input business_type clock) as Hg.
  cbv zeta in Hg |- *.
  destruct (competitor_report env fuel location_input business_type clock) as [r es].
  simpl in Hp, Hg |- *.
  apply report_path_writes in Hp. destruct Hp as (Hnc & Hw).
  assert (Hprint : forall line,
             Forall (fun e : event float => is_completion_call e = false)
                    (es ++ [Print line])).
  { intros line. apply Forall_app. split; trivial. repeat constructor. }
  destruct Hw as [(Hnone & Hfail)|(first & places_result & reply & Hin & Hfilter & Hdone)].
  - left. destruct r as [data|[msg|code]|].
    + now destruct (Hfail data).
    + rewrite Hg. simpl. rewrite filter_app, Hnone. auto using Hprint.
    + rewrite Hg. simpl. auto.
    + rewrite Hg. simpl. auto.
  - right. exists first, places_result, reply. cbv zeta in Hdone |- *.
    destruct r as [data|[msg|code]|].
    + destruct (Hdone data eq_refl) as (-> & Hbd & Hcsv & Hplot).
      destruct (snd data) as [|row rows].
      * rewrite Hg. simpl. rewrite filter_app, Hfilter.
        split; [apply in_or_app; auto|]. split; [reflexivity|]. split; [auto|].
        intros pre post x Hx Heq. exfalso.
        specialize (Hprint no_reviews_line).
        rewrite Heq in Hprint. eapply no_such_element; eauto.
      * destruct Hg as (ex & rp & -> & Hex & Hrp & _).
        split; [apply in_or_app; auto|]. split; [|split; [auto|]].
        -- rewrite filter_app, Hfilter. simpl.
           rewrite filter_app, (no_to_csv_in_extraction _ Hex),
             (no_to_csv_in_reporting _ Hrp). reflexivity.
        -- intros pre post x Hx Heq.
           change (es ++ Print running_line :: ex ++ rp)
             with (es ++ [Print running_line] ++ ex ++ rp) in Heq.
           rewrite app_assoc in Heq.
           destruct (split_after is_completion_call _ _ _ _ _
                       (Hprint running_line) Hx Heq) as (pre' & -> & _).
           split; apply in_or_app; left; apply in_or_app; left; assumption.
    + rewrite Hg. simpl. rewrite filter_app, Hfilter.
      split; [apply in_or_app; auto|]. split; [reflexivity|]. split; [discriminate|].
      intros pre post x Hx Heq. exfalso.
      specialize (Hprint (unexpected_error_line msg)).
      rewrite Heq in Hprint. eapply no_such_element; eauto.
    + rewrite Hg. simpl.
      split; [assumption|]. split; [assumption|]. split; [discriminate|].
      intros pre post x Hx Heq. exfalso.
      rewrite Heq in Hnc. eapply no_such_element; eauto.
    + rewrite Hg. simpl.
      split; [assumption|]. split; [assumption|]. split; [discriminate|].
      intros pre post x Hx Heq. exfalso.
      rewrite Heq in Hnc. eapply no_such_element; eauto.
Qed.

(** The file of the places, cell by cell. *)
Lemma to_csv_places (places : list (Place float)) :
  to_csv env (map business_row places)
  = Csv.write (csv_header
               :: map (place_cells env (int_ratings env places)) places).
Proof.
  unfold to_csv. f_equal. f_equal.
  assert (Hints : int_column env (map business_row places) = int_ratings env places).
  { unfold int_column, int_ratings. induction places as [|place places IH]; simpl;
      [reflexivity|]. now rewrite IH. }
  rewrite Hints, map_map. reflexivity.
Qed.

(** C7, as the code has it.  The [try] block writes at most one file; it
    is [competitor_data.csv], and it is written whenever the first half of
    the main logic completes.  What is written is the header line
    Business, Rating, Reviews_Count, Address followed by one line per
    place the nearby search returned, in that order, with the name, the
    rating, the number of ratings and the vicinity of the place (N/A, an
    empty cell, 0 and N/A for what is missing).  Provided no cell holds a
    bare carriage return, the reader of the format finds exactly that
    header and one row per place in the file. *)
Theorem one_row_per_business fuel location_input business_type clock :
  let report := competitor_report env fuel location_input business_type clock in
  let trace := snd (guarded_main env fuel location_input business_type clock) in
  (filter is_to_csv trace = [] /\ forall data, fst report <> Ok data)
  \/ exists first places_result reply,
       let places := places_of places_result in
       let rows := map (place_cells env (int_ratings env places)) places in
       let content :=
         Csv.write (["Business"; "Rating"; "Reviews_Count"; "Address"] :: rows) in
       In (PlacesNearby (location_of env (lat first, lng first)) 2000
                        business_type business_type (Returns places_result)) trace
       /\ filter is_to_csv trace = [Library (ToCsv "competitor_data.csv" content) reply]
       /\ (forall data, fst report = Ok data -> reply = Returns tt)
       /\ List.length rows = List.length places
       /\ (Csv.readable rows ->
           Csv.read content
           = ["Business"; "Rating"; "Reviews_Count"; "Address"] :: rows).
Proof.
  cbv zeta.
  destruct (guarded_main_writes fuel location_input business_type clock)
    as [(Hnone & _ & Hfail)|(first & places_result & reply & Hin & Hfilter & Hdone & _)].
  - left. auto.
  - right. exists first, places_result, reply. cbv zeta in *.
    rewrite to_csv_places in Hfilter.
    split; [assumption|]. split; [exact Hfilter|]. split; [assumption|].
    split; [apply length_map|].
    intros Hrows. apply CsvFacts.read_write. constructor; [|exact Hrows].
    split; [discriminate|]. repeat constructor.
Qed.

(** C10.  Whenever the [try] block issues a completion call, the business
    table has been written to the file and the scatter plot has been
    shown before that call, both without an error; and the write of the
    table is the only write of the whole block, so nothing that happens
    during extraction or aspect reporting changes the file. *)
Theorem csv_before_extraction fuel location_input business_type clock
    pre post model contents reply :
  snd (guarded_main env fuel location_input business_type clock)
  = pre ++ GenerateContent model contents reply :: post ->
  exists places_result,
    let business_data := map business_row (places_of places_result) in
    In (Library (ToCsv csv_path (to_csv env business_data)) (Returns tt)) pre
    /\ In (Library (ScatterPlot business_data) (Returns tt)) pre
    /\ filter is_to_csv (pre ++ GenerateContent model contents reply :: post)
       = [Library (ToCsv csv_path (to_csv env business_data)) (Returns tt)].
Proof.
  intros Htrace.
  destruct (guarded_main_writes fuel location_input business_type clock)
    as [(_ & Hnc & _)|(first & places_result & r & _ & Hfilter & _ & Hbefore)].
  - exfalso. cbv zeta in Hnc. rewrite Htrace in Hnc.
    eapply (no_such_element is_completion_call); eauto.
  - cbv zeta in *. exists places_result.
    destruct (Hbefore pre post (GenerateContent model contents reply) eq_refl Htrace)
      as [Hcsv Hplot].
    split; [assumption|]. split; [assumption|].
    rewrite <- Htrace, Hfilter.
    assert (Hin : In (Library (ToCsv csv_path
                                 (to_csv env (map business_row (places_of places_result))))
                              (Returns tt))
                     (filter is_to_csv
                        (snd (guarded_main env fuel location_input business_type clock)))).
    { apply filter_In. split; [|reflexivity].
      rewrite Htrace. apply in_or_app. now left. }
    rewrite Hfilter in Hin. destruct Hin as [Hin|[]]. now rewrite Hin.
Qed.

(** *** Exit status *)

Lemma late_event_quiet (e : event float) :
  late_event e ->
  ~ setup_failure e /\ ~ empty_geocode e /\ ~ empty_search e /\ ~ graph_shown e.
Proof.
  intros [H|H]; destruct e as [| | | | | | | | |[] ?]; simpl in *; tauto.
Qed.

Lemma discovery_event_quiet (e : event float) :
  discovery_event e ->
  ~ setup_failure e /\ ~ empty_geocode e /\ ~ empty_search e /\ ~ graph_shown e.
Proof. destruct e; simpl; tauto. Qed.

Lemma quiet_list (P Q : event float -> Prop) (l : list (event float)) :
  (forall e, P e -> ~ Q e) -> Forall P l -> ~ Exists Q l.
Proof.
  intros HPQ Hall Hex. apply Exists_exists in Hex. destruct Hex as (e & Hin & HQ).
  rewrite Forall_forall in Hall. exact (HPQ e (Hall e Hin) HQ).
Qed.

Ltac break_exists H :=
  first [ apply Exists_app in H; destruct H as [H|H]; break_exists H
        | apply Exists_cons in H; destruct H as [H|H];
          [simpl in H; try contradiction | break_exists H]
        | apply Exists_nil in H; contradiction
        | idtac ].

Ltac quiet_discovery :=
  match goal with
  | Hev : Forall discovery_event ?es, H : Exists ?Q ?es |- _ =>
      exfalso; revert H; apply (quiet_list discovery_event Q); [|exact Hev];
      intros e He; apply discovery_event_quiet in He; tauto
  end.

Ltac report_paths Hpath :=
  destruct Hpath as [msg| |first rest msg|first rest places_result Hnone
                     |first rest places_result r es Hne Hev Hr
                     |first rest places_result es msg Hne Hev
                     |first rest places_result es msg Hne Hev
                     |first rest places_result es msg Hne Hev
                     |first rest places_result es reviews_data Hne Hev Hlen];
  unfold discovered, saved in *.

(** What the trace of the first half shows of the failure causes. *)
Lemma report_no_setup_failure location_input business_type r es :
  report_path env location_input business_type r es -> ~ Exists setup_failure es.
Proof.
  intros Hpath H. report_paths Hpath; break_exists H; quiet_discovery.
Qed.

Lemma report_empty_exits location_input business_type r es :
  report_path env location_input business_type r es ->
  geocode_empty es \/ search_empty es -> r = Raise (SystemExit 1).
Proof.
  unfold geocode_empty, search_empty.
  intros Hpath [H|H]; report_paths Hpath; break_exists H;
    try reflexivity; try quiet_discovery;
    unfold places_of in *; contradiction.
Qed.

Lemma report_exit_empty location_input business_type code es :
  report_path env location_input business_type (Raise (SystemExit code)) es ->
  code = 1%Z /\ (geocode_empty es \/ search_empty es).
Proof.
  unfold geocode_empty, search_empty. intros Hpath.
  inversion Hpath as [msg| |first rest msg|first rest places_result Hnone
                     |first rest places_result r es' Hne Hev Hr
                     |first rest places_result es' msg Hne Hev
                     |first rest places_result es' msg Hne Hev
                     |first rest places_result es' msg Hne Hev
                     |first rest places_result es' reviews_data Hne Hev Hlen]; subst.
  - split; [reflexivity|]. left. constructor. exact I.
  - split; [reflexivity|]. right. unfold discovered.
    simpl. apply Exists_cons_tl. constructor. exact Hnone.
  - contradiction.
Qed.

Lemma report_graph_shown location_input business_type r es :
  report_path env location_input business_type r es ->
  Exists graph_shown es -> exists data, r = Ok data.
Proof.
  intros Hpath H. report_paths Hpath; break_exists H; try quiet_discovery.
  eexists. reflexivity.
Qed.

Lemma report_done_shown location_input business_type data es :
  report_path env location_input business_type (Ok data) es ->
  Exists graph_shown es /\ List.length (snd data) = reviews_seen es.
Proof.
  intros Hpath.
  inversion Hpath as [msg| |first rest msg|first rest places_result Hnone
                     |first rest places_result r es' Hne Hev Hr
                     |first rest places_result es' msg Hne Hev
                     |first rest places_result es' msg Hne Hev
                     |first rest places_result es' msg Hne Hev
                     |first rest places_result es' reviews_data Hne Hev Hlen]; subst.
  - contradiction.
  - split.
    + unfold discovered, saved. apply Exists_app. right. apply Exists_app. right.
      apply Exists_app. right. constructor. exact I.
    + simpl. rewrite !reviews_seen_app. simpl. lia.
Qed.

Lemma extraction_is_late (l : list (event float)) :
  Forall extraction_event l -> Forall late_event l.
Proof. intros H. eapply Forall_impl; [|exact H]. intros e He. now left. Qed.

Lemma reporting_is_late (l : list (event float)) :
  Forall reporting_event l -> Forall late_event l.
Proof. intros H. eapply Forall_impl; [|exact H]. intros e He. now right. Qed.

Ltac quiet_late :=
  match goal with
  | Hev : Forall late_event ?es, H : Exists ?Q ?es |- _ =>
      exfalso; revert H; apply (quiet_list late_event Q); [|exact Hev];
      intros e He; apply late_event_quiet in He; tauto
  end.

(** The exit status of a run whose setup went through, from what its
    first half did. *)
Lemma guarded_exit_status fuel location_input business_type clock
    (before : list (event float)) status :
  let run := guarded_main env fuel location_input business_type clock in
  ~ Exists setup_failure before -> ~ Exists empty_geocode before ->
  ~ Exists empty_search before -> ~ Exists graph_shown before ->
  reviews_seen before = 0 ->
  exit_status (fst run) = Some status ->
  (status = 0 \/ status = 1)%Z
  /\ (status = 1%Z <->
      setup_failed (before ++ snd run) \/ geocode_empty (before ++ snd run)
      \/ search_empty (before ++ snd run) \/ no_reviews (before ++ snd run)).
Proof.
  intros run Hb1 Hb2 Hb3 Hb4 Hb5 Hstatus. subst run.
  unfold setup_failed, geocode_empty, search_empty, no_reviews.
  pose proof (competitor_report_path env fuel location_input business_type clock) as Hp.
  pose proof (guarded_main_cases fuel location_input business_type clock) as Hg.
  cbv zeta in Hg.
  destruct (competitor_report env fuel location_input business_type clock) as [r es].
  simpl in Hp, Hg.
  pose proof (report_no_setup_failure _ _ _ _ Hp) as Hq1.
  pose proof (report_empty_exits _ _ _ _ Hp) as Hq2.
  pose proof (report_graph_shown _ _ _ _ Hp) as Hq3.
  unfold geocode_empty, search_empty in Hq2.
  destruct r as [data|[msg|code]|].
  - destruct (report_done_shown _ _ _ _ Hp) as [Hshown Hlen].
    destruct (snd data) as [|row rows].
    + rewrite Hg in Hstatus |- *. simpl in Hstatus. simpl snd.
      injection Hstatus as <-.
      split; [now right|]. split; [|reflexivity]. intros _.
      right. right. right. split.
      * apply Exists_app. right. apply Exists_app. now left.
      * rewrite reviews_seen_app, Hb5, reviews_seen_app. simpl in Hlen |- *. lia.
    + destruct Hg as (ex & rp & Htrace & Hex & Hrp & Hres).
      rewrite Hres in Hstatus. simpl in Hstatus. injection Hstatus as <-.
      split; [now left|]. split; [discriminate|].
      rewrite Htrace. apply extraction_is_late in Hex. apply reporting_is_late in Hrp.
      intros [H|[H|[H|[H Hseen]]]]; exfalso.
      * break_exists H; try quiet_late; contradiction.
      * break_exists H; try quiet_late; try contradiction.
        discriminate (Hq2 (or_introl H)).
      * break_exists H; try quiet_late; try contradiction.
        discriminate (Hq2 (or_intror H)).
      * rewrite reviews_seen_app, Hb5, reviews_seen_app in Hseen.
        simpl in Hseen, Hlen. lia.
  - rewrite Hg in Hstatus |- *. simpl in Hstatus. simpl snd.
    injection Hstatus as <-.
    split; [now left|]. split; [discriminate|].
    intros [H|[H|[H|[H Hseen]]]]; exfalso.
    + break_exists H; contradiction.
    + break_exists H; try contradiction. discriminate (Hq2 (or_introl H)).
    + break_exists H; try contradiction. discriminate (Hq2 (or_intror H)).
    + break_exists H; try contradiction. destruct (Hq3 H) as (data & Hd). discriminate.
  - rewrite Hg in Hstatus |- *. simpl in Hstatus. simpl snd.
    injection Hstatus as <-.
    destruct (report_exit_empty _ _ _ _ Hp) as (-> & Hcause).
    split; [now right|]. split; [|reflexivity]. intros _.
    destruct Hcause as [H|H].
    + right. left. apply Exists_app. now right.
    + right. right. left. apply Exists_app. now right.
  - rewrite Hg in Hstatus. discriminate.
Qed.

Lemma run_inv fuel status trace :
  run env fuel = Some (status, trace) ->
  exit_status (fst (script env fuel 0)) = Some status
  /\ snd (script env fuel 0) = trace.
Proof.
  unfold run. destruct (script env fuel 0) as [r t]. simpl.
  destruct (exit_status r); simpl; [|discriminate].
  intros [= -> ->]. auto.
Qed.

(** The three ways the script goes: without credentials, with a setup
    that raises, or into the [try] block. *)
Lemma script_cases fuel :
  (credentials_missing env = true
   /\ script env fuel 0 = (Raise (SystemExit 1), [Print credentials_line]))
  \/ (credentials_missing env = false
      /\ exists msg,
           fst (script env fuel 0) = Raise (Exception msg)
           /\ Exists setup_failure (snd (script env fuel 0)))
  \/ (credentials_missing env = false
      /\ exists before location_input business_type,
           script env fuel 0
           = prepend before (guarded_main env fuel location_input business_type
                               (List.length before))
           /\ ~ Exists setup_failure before /\ ~ Exists empty_geocode before
           /\ ~ Exists empty_search before /\ ~ Exists graph_shown before
           /\ reviews_seen before = 0).
Proof.
  unfold script. rewrite bind_run, setup_cases.
  destruct (credentials_missing env); [left; auto|right].
  destruct (maps_client env 0 (API_KEY env)) as [[]|msg].
  2:{ left. split; trivial. exists msg. simpl. split; trivial. repeat constructor. }
  destruct (genai_client env (0 + 1) (GEMINI_KEY env)) as [[]|msg].
  2:{ left. split; trivial. exists msg. simpl. split; trivial.
      apply Exists_cons_tl. repeat constructor. }
  destruct (stdin_input env (0 + 2) location_prompt) as [location|msg].
  2:{ left. split; trivial. exists msg. simpl. split; trivial.
      do 2 apply Exists_cons_tl. repeat constructor. }
  destruct (stdin_input env (0 + 3) business_prompt) as [business|msg].
  2:{ left. split; trivial. exists msg. simpl. split; trivial.
      do 3 apply Exists_cons_tl. repeat constructor. }
  right. split; trivial.
  eexists. eexists. eexists. split; [reflexivity|].
  repeat split; trivial; intros H; break_exists H.
Qed.

(** C3, as the script has it.  A run that ends exits with 0 or 1.  It
    exits with 1 exactly when the credentials are missing, when a client
    constructor or an input prompt before the [try] raised, when the
    geocode lookup returned no candidate, when the nearby search returned
    no place, or when the graph was shown and no review had been
    collected.  An exception of the main logic is caught by the handler of
    the [try], which prints it and lets the run end with status 0; the
    handler lets [sys.exit] through. *)
Theorem exit_status_cases fuel status trace :
  run env fuel = Some (status, trace) ->
  (status = 0 \/ status = 1)%Z
  /\ (status = 1%Z <->
      credentials_missing env = true \/ setup_failed trace \/ geocode_empty trace
      \/ search_empty trace \/ no_reviews trace)
  /\ (forall location_input business_type clock,
        match main_logic env fuel location_input business_type clock with
        | (Raise (Exception msg), es) =>
            guarded_main env fuel location_input business_type clock
            = (Ok tt, es ++ [Print (unexpected_error_line msg)])
        | other =>
            guarded_main env fuel location_input business_type clock = other
        end).
Proof.
  intros Hrun. apply run_inv in Hrun. destruct Hrun as [Hstatus Htrace].
  assert (Hhandler : forall location_input business_type clock,
        match main_logic env fuel location_input business_type clock with
        | (Raise (Exception msg), es) =>
            guarded_main env fuel location_input business_type clock
            = (Ok tt, es ++ [Print (unexpected_error_line msg)])
        | other =>
            guarded_main env fuel location_input business_type clock = other
        end).
  { intros location_input business_type clock.
    unfold guarded_main, try_except.
    destruct (main_logic env fuel location_input business_type clock)
      as [[[]|[msg|code]|] es]; reflexivity. }
  destruct (script_cases fuel)
    as [(Hc & Hs)|[(Hc & msg & Hr & Hfail)
                  |(Hc & before & li & bt & Hs & H1 & H2 & H3 & H4 & H5)]].
  - rewrite Hs in Hstatus. simpl in Hstatus. injection Hstatus as <-.
    split; [now right|]. split; [|exact Hhandler]. split; auto.
  - rewrite Hr in Hstatus. simpl in Hstatus. injection Hstatus as <-.
    split; [now right|]. split; [|exact Hhandler]. split; [|reflexivity].
    intros _. right. left. now subst trace.
  - rewrite Hs in Hstatus, Htrace. unfold prepend in Hstatus, Htrace.
    simpl in Hstatus, Htrace. subst trace.
    destruct (guarded_exit_status fuel li bt (List.length before) before status
                H1 H2 H3 H4 H5 Hstatus) as [H01 Hiff].
    split; [exact H01|]. split; [|exact Hhandler].
    rewrite Hiff. split; [auto|]. intros [H|H]; [congruence|exact H].
Qed.

(** C2, as the script has it.  Once the first half of the main logic
    has completed: when no review was collected, the run prints the
    no-reviews line, makes no completion call and no summary, and exits
    with status 1; when reviews were collected and the analysis yields no
    aspect record, the run prints the no-aspect line in place of the
    summary and of the bar plots, and ends with status 0. *)
Theorem empty_results_skip_reporting fuel location_input business_type clock data es :
  competitor_report env fuel location_input business_type clock = (Ok data, es) ->
  (snd data = [] ->
     guarded_main env fuel location_input business_type clock
     = (Raise (SystemExit 1), es ++ [Print no_reviews_line])
     /\ Forall (fun e => is_completion_call e = false) (es ++ [Print no_reviews_line])
     /\ exit_status (fst (guarded_main env fuel location_input business_type clock))
        = Some 1%Z)
  /\ (forall ex,
        aspect_based_sentiment_analysis env (snd data) (clock + List.length es)
        = (Ok [], ex) ->
        guarded_main env fuel location_input business_type clock
        = (Ok tt, es ++ ex ++ [Print no_aspect_line])
        /\ Forall extraction_event ex
        /\ exit_status (fst (guarded_main env fuel location_input business_type clock))
           = Some 0%Z).
Proof.
  intros Hreport.
  pose proof (competitor_report_path env fuel location_input business_type clock) as Hp.
  rewrite Hreport in Hp. simpl in Hp.
  apply report_path_writes in Hp. destruct Hp as [Hnc _].
  split.
  - intros Hnone.
    pose proof (guarded_main_cases fuel location_input business_type clock) as Hg.
    cbv zeta in Hg. rewrite Hreport in Hg. simpl in Hg. rewrite Hnone in Hg.
    rewrite Hg. split; [reflexivity|]. split; [|reflexivity].
    apply Forall_app. split; trivial. repeat constructor.
  - intros ex Hanalysis.
    assert (Hmain : main_logic env fuel location_input business_type clock
                    = (Ok tt, es ++ ex ++ [Print no_aspect_line])).
    { unfold main_logic. rewrite bind_run, Hreport, bind_run, Hanalysis.
      pose proof (summary_cases env (snd data) []
                    (clock + List.length es + List.length ex)) as Hs.
      cbv zeta in Hs. rewrite Hs. reflexivity. }
    unfold guarded_main, try_except. rewrite Hmain. simpl.
    split; [reflexivity|]. split; [|reflexivity].
    pose proof (analysis_cases env (snd data) (clock + List.length es)) as Ha.
    cbv zeta in Ha. rewrite Hanalysis in Ha.
    destruct (snd data) as [|row rows]; [discriminate|].
    destruct Ha as (ex' & Hex & Hev & _). simpl in Hex. subst ex.
    constructor; [exact I|assumption].
Qed.

End MainLogic.

(** ** Examples on the sample environments *)

Module SampleFacts.

Local Open Scope list_scope.

Lemma length_append (a b : string) :
  String.length (a ++ b)%string = String.length a + String.length b.
Proof. induction a as [|c a IH]; simpl; congruence. Qed.

Lemma chop_cons c s :
  Sample.chop (String c s)
  = if String.eqb s ".0" then Some (String c EmptyString)
    else option_map (String c) (Sample.chop s).
Proof. reflexivity. Qed.

Lemma chop_append digits :
  digits <> EmptyString -> Sample.chop (digits ++ ".0")%string = Some digits.
Proof.
  induction digits as [|c digits IH]; [congruence|]. intros _.
  destruct digits as [|c' digits]; [reflexivity|].
  change (String c (String c' digits) ++ ".0")%string
    with (String c (String c' digits ++ ".0"))%string.
  rewrite chop_cons, IH by discriminate.
  replace (String.eqb (String c' digits ++ ".0")%string ".0") with false;
    [reflexivity|].
  symmetry. apply String.eqb_neq. intros H.
  apply (f_equal String.length) in H.
  rewrite length_append in H. simpl in H. lia.
Qed.

Lemma str_int_nonempty z : Py.str_int z <> EmptyString.
Proof.
  intros H. pose proof (int_of_str_str_int z) as Hz.
  rewrite H in Hz. discriminate.
Qed.

Lemma parse_repr x : Sample.parse (Sample.repr x) = Some x.
Proof.
  unfold Sample.parse, Sample.repr.
  rewrite chop_append by apply str_int_nonempty.
  apply int_of_str_str_int.
Qed.

Lemma repr_nonempty x : Sample.repr x <> EmptyString.
Proof.
  unfold Sample.repr. pose proof (str_int_nonempty x) as H.
  destruct (Py.str_int x); [congruence|discriminate].
Qed.

(** Three failing attempts on one review: the empty mapping. *)
Lemma extraction_attempts_bounded_witness :
  for_attempts Sample.env_without_completions "Slow" (seq 0 3) [] 0
  = (Ok [PyDict []],
     snd (for_attempts Sample.env_without_completions "Slow" (seq 0 3) [] 0)).
Proof.
  destruct (extraction_attempts_bounded Sample.env_without_completions) as [H _].
  destruct (H "Slow" [] 0) as (es & _ & _ & Hsnd & Hall).
  rewrite Hsnd. apply Hall. rewrite <- Hsnd. vm_compute.
  constructor; [apply call_raises|].
  constructor; [apply unparseable_text
                  with (msg := "Expecting value: line 1 column 1 (char 0)");
                reflexivity|].
  constructor; [apply empty_text; reflexivity|].
  constructor.
Defined.

Lemma results_align_with_reviews_witness :
  exists batch_results blocks,
    analyze_reviews_batch Sample.env ["Great service"; "Slow"] 3 1
    = (Ok batch_results, List.concat blocks)
    /\ List.length batch_results = 2
    /\ List.length blocks = 2
    /\ aligned Sample.env 3 1 ["Great service"; "Slow"] blocks batch_results.
Proof. exact (results_align_with_reviews Sample.env ["Great service"; "Slow"] 1). Defined.

Definition sample_records : list (AspectSummary.AspectRecord string) :=
  [ AspectSummary.mkAspect "Cafe" "service" "positive";
    AspectSummary.mkAspect "Cafe" "service" "negative";
    AspectSummary.mkAspect "Cafe" "price" "positive";
    AspectSummary.mkAspect "Cafe" "service" "positive";
    AspectSummary.mkAspect "Stall" "service" "neutral" ].

Lemma percentages_sum_to_100_witness :
  0 < AspectSummary.pair_total string (fun _ => false) sample_records ("Cafe", "service")
  /\ exists cells,
       AspectSummary.row_of
         (AspectSummary.aspect_summary_percent string String.eqb (fun _ => false)
            sample_records) ("Cafe", "service") = Some cells
       /\ (AspectSummary.Qsum (map snd cells) == 100)%Q.
Proof.
  assert (H : 0 < AspectSummary.pair_total string (fun _ => false) sample_records
                    ("Cafe", "service")) by (vm_compute; lia).
  split; [exact H|].
  destruct (AspectSummaryFacts.percentages_sum_to_100 string String.eqb (fun _ => false)
              String.eqb_eq sample_records ("Cafe", "service") H)
    as (cells & Hrow & _ & _ & Hsum).
  exists cells. split; assumption.
Defined.

Lemma first_candidate_coordinates_witness :
  geocode_location Sample.env "Mumbai CST" 4
  = (Ok (18%Z, 72%Z), [Geocode "Mumbai CST" (Returns Sample.candidates)]).
Proof.
  destruct (first_candidate_coordinates Sample.env "Mumbai CST" 4) as [H _].
  destruct (H {| lat := 18%Z; lng := 72%Z |} [ {| lat := 19%Z; lng := 73%Z |} ] eq_refl)
    as [Hg _].
  exact Hg.
Defined.

Lemma repr_plain x :
  Sample.repr x <> EmptyString /\ Csv.has_cr (Sample.repr x) = false.
Proof.
  split; [apply repr_nonempty|].
  unfold Sample.repr. rewrite has_cr_app, has_cr_str_int. reflexivity.
Qed.

Lemma csv_round_trip_witness :
  read_competitor_data Sample.parse
    (to_csv Sample.env (map business_row [Sample.cafe; Sample.stall]))
  = Some (map business_row [Sample.cafe; Sample.stall]).
Proof.
  destruct (csv_round_trip Sample.env Sample.parse
              (fun x _ => parse_repr x) (fun x _ => repr_plain x) (fun x => eq_refl)
              (map business_row [Sample.cafe; Sample.stall])) as [_ H].
  - discriminate.
  - repeat constructor.
  - apply H. repeat constructor.
Defined.

(** The table of the two sample places. *)
Definition sample_table : list (list string) :=
  [ ["Business"; "Rating"; "Reviews_Count"; "Address"];
    ["Cafe, Irani"; "4.0"; "120"; "Fort"];
    ["Stall"; EmptyString; "0"; "N/A"] ].

Lemma one_row_per_business_witness :
  exists reply,
    filter is_to_csv (snd (guarded_main Sample.env 5 "Mumbai CST" "restaurant" 4))
    = [Library (ToCsv "competitor_data.csv" (Csv.write sample_table)) reply]
    /\ Csv.read (Csv.write sample_table) = sample_table.
Proof.
  destruct (one_row_per_business Sample.env 5 "Mumbai CST" "restaurant" 4)
    as [[Hnone _]|(first & places_result & reply & Hin & Hfilter & _ & _ & Hread)].
  - vm_compute in Hnone. discriminate Hnone.
  - assert (Hplaces : places_result = {| results := Some [Sample.cafe; Sample.stall] |}).
    { vm_compute in Hin.
      repeat (destruct Hin as [Hin|Hin]; [try discriminate Hin|]);
        [inversion Hin; reflexivity|contradiction]. }
    subst places_result. exists reply. split; [exact Hfilter|].
    apply Hread. repeat constructor; discriminate.
Defined.

(** A name with a carriage return: one place is found and one line is
    written for it, but the line is not quoted and a reader of the format
    takes the carriage return for the end of a record: it finds the
    header and two rows, the first with a single cell. *)
Lemma one_row_per_business_counterexample :
  let trace :=
    snd (guarded_main MoreSamples.env_with_split_name 5 "Mumbai CST" "restaurant" 4) in
  let content :=
    Csv.write [ ["Business"; "Rating"; "Reviews_Count"; "Address"];
                [MoreSamples.split_name; "4.0"; "7"; "Fort"] ] in
  In (PlacesNearby "18.0,72.0" 2000 "restaurant" "restaurant"
                   (Returns {| results := Some [MoreSamples.split_place] |})) trace
  /\ filter is_to_csv trace
     = [Library (ToCsv "competitor_data.csv" content) (Returns tt)]
  /\ Csv.read content
     = [ ["Business"; "Rating"; "Reviews_Count"; "Address"];
         ["A"];
         ["B"; "4.0"; "7"; "Fort"] ].
Proof.
  cbv zeta. split; [|split].
  - vm_compute. auto.
  - vm_compute. reflexivity.
  - vm_compute. reflexivity.
Qed.

(** Rows the file does not give back: one whose name holds a carriage
    return, read as two records of which the first is no row of the table;
    one whose rating is NaN, read with a missing rating; and an int in a
    column with a missing rating, read as the float of the same value. *)
Lemma csv_round_trip_counterexample :
  read_competitor_data Sample.parse
    (to_csv Sample.env [business_row MoreSamples.split_place])
  = None
  /\ read_competitor_data MoreSamples.number_parse
       (to_csv MoreSamples.env_of_numbers
          [MoreSamples.table_row (Some MoreSamples.NaN)])
     = Some [MoreSamples.table_row None]
  /\ read_competitor_data MoreSamples.number_parse
       (to_csv MoreSamples.env_of_numbers
          [MoreSamples.table_row (Some (MoreSamples.Int 4)); MoreSamples.table_row None])
     = Some [MoreSamples.table_row (Some (MoreSamples.Float 4)); MoreSamples.table_row None].
Proof.
  split; [|split]; vm_compute; reflexivity.
Qed.

Lemma page_token_call_raises_witness :
  guarded_main MoreSamples.env_with_googlemaps 5 "Mumbai CST" "restaurant" 4
  = (Ok tt,
     [ Geocode "Mumbai CST" (Returns Sample.candidates);
       PlacesNearby "18.0,72.0" 2000 "restaurant" "restaurant"
                    (Returns {| results := Some [Sample.cafe; Sample.stall] |});
       PlaceDetails "p1" None (Returns Sample.first_page);
       Sleep 2;
       PlaceDetails "p1" (Some "more") (Raises page_token_error);
       Print (unexpected_error_line page_token_error) ]).
Proof.
  assert (Hclient : googlemaps_client MoreSamples.env_with_googlemaps)
    by (intros clock id token; reflexivity).
  destruct (page_token_call_raises MoreSamples.env_with_googlemaps Hclient) as [_ H].
  apply (H 3 "Mumbai CST" "restaurant" 4
           {| lat := 18%Z; lng := 72%Z |} [ {| lat := 19%Z; lng := 73%Z |} ]
           {| results := Some [Sample.cafe; Sample.stall] |}
           Sample.cafe [Sample.stall] Sample.first_page);
    try reflexivity.
Defined.

Lemma csv_before_extraction_witness :
  exists places_result,
    let business_data := map business_row (places_of places_result) in
    let trace := snd (guarded_main Sample.env 5 "Mumbai CST" "restaurant" 4) in
    In (Library (ToCsv csv_path (to_csv Sample.env business_data)) (Returns tt))
       (firstn 13 trace)
    /\ In (Library (ScatterPlot business_data) (Returns tt)) (firstn 13 trace)
    /\ filter is_to_csv trace
       = [Library (ToCsv csv_path (to_csv Sample.env business_data)) (Returns tt)].
Proof.
  pose (trace := snd (guarded_main Sample.env 5 "Mumbai CST" "restaurant" 4)).
  assert (Hsplit : trace
                   = firstn 13 trace
                     ++ GenerateContent gemini_model (prompt "Great service")
                          (Returns (Some (" " ++ Sample.good_text ++ Py.nl)%string))
                     :: skipn 14 trace)
    by (vm_compute; reflexivity).
  destruct (csv_before_extraction Sample.env 5 "Mumbai CST" "restaurant" 4 _ _ _ _ _
              Hsplit) as (places_result & Hcsv & Hplot & Hfilter).
  exists places_result. cbv zeta. fold trace.
  rewrite <- Hsplit in Hfilter. auto.
Defined.

Lemma exit_status_cases_witness :
  (0 = 1)%Z <->
  credentials_missing Sample.env = true
  \/ setup_failed (snd (script Sample.env 5 0))
  \/ geocode_empty (snd (script Sample.env 5 0))
  \/ search_empty (snd (script Sample.env 5 0))
  \/ no_reviews (snd (script Sample.env 5 0)).
Proof.
  assert (Hrun : run Sample.env 5 = Some (0%Z, snd (script Sample.env 5 0)))
    by (vm_compute; reflexivity).
  destruct (exit_status_cases Sample.env 5 0%Z _ Hrun) as (_ & Hiff & _).
  exact Hiff.
Defined.

Lemma empty_results_skip_reporting_witness :
  guarded_main Sample.env_without_reviews 5 "Mumbai CST" "restaurant" 4
  = (Raise (SystemExit 1),
     snd (competitor_report Sample.env_without_reviews 5 "Mumbai CST" "restaurant" 4)
     ++ [Print no_reviews_line]).
Proof.
  assert (Hreport :
            competitor_report Sample.env_without_reviews 5 "Mumbai CST" "restaurant" 4
            = (Ok (map business_row [Sample.cafe; Sample.stall], []),
               snd (competitor_report Sample.env_without_reviews 5
                      "Mumbai CST" "restaurant" 4)))
    by (vm_compute; reflexivity).
  destruct (empty_results_skip_reporting Sample.env_without_reviews 5
              "Mumbai CST" "restaurant" 4 _ _ Hreport) as [Hnone _].
  destruct (Hnone eq_refl) as [Hrun _]. exact Hrun.
Defined.

(** C2 as stated fails: with no review collected the run prints the
    message and exits with status 1. *)
Lemma no_reviews_run_fails :
  exists trace,
    run Sample.env_without_reviews 5 = Some (1%Z, trace)
    /\ reviews_seen trace = 0
    /\ last trace (Sleep 0) = Print no_reviews_line.
Proof.
  eexists. split; [vm_compute; reflexivity|]. split; reflexivity.
Qed.

(** C3 as stated fails: with the standard input closed the first prompt
    raises before the [try].  The credentials are present, the geocode
    lookup and the nearby search were never made, the review check was
    never reached, and the error is a runtime error like any other; yet
    nothing catches it, the handler prints nothing, and the run exits with
    status 1. *)
Lemma closed_input_exits_with_1 :
  let trace := [ MapsClient "AIza-maps" (Returns tt);
                 GenaiClient "gemini" (Returns tt);
                 Input location_prompt (Raises "EOF when reading a line") ] in
  run Sample.env_without_input 5 = Some (1%Z, trace)
  /\ credentials_missing Sample.env_without_input = false
  /\ ~ geocode_empty trace
  /\ ~ search_empty trace
  /\ ~ no_reviews trace
  /\ forall msg, ~ In (Print (unexpected_error_line msg)) trace.
Proof.
  cbv zeta. split; [vm_compute; reflexivity|]. split; [reflexivity|].
  unfold geocode_empty, search_empty, no_reviews.
  repeat split.
  - intros H. repeat (apply Exists_cons in H; destruct H as [H|H]; [exact H|]).
    now apply Exists_nil in H.
  - intros H. repeat (apply Exists_cons in H; destruct H as [H|H]; [exact H|]).
    now apply Exists_nil in H.
  - intros [H _]. repeat (apply Exists_cons in H; destruct H as [H|H]; [exact H|]).
    now apply Exists_nil in H.
  - intros msg [H|[H|[H|[]]]]; discriminate.
Qed.

End SampleFacts.

(** * Further properties *)

(** ** More on the extraction stage *)

Section ExtractionMore.

Local Open Scope list_scope.

Context {float : Type}.
Variable env : Env float.

Lemma completion_replies_app (a b : list (event float)) :
  completion_replies (a ++ b) = completion_replies a ++ completion_replies b.
Proof.
  induction a as [|e a IH]; simpl; trivial. destruct e; simpl; congruence.
Qed.

Lemma sleeps_app (a b : list (event float)) : sleeps (a ++ b) = sleeps a + sleeps b.
Proof.
  induction a as [|e a IH]; simpl; trivial. destruct e; simpl; congruence.
Qed.

(** The shape of a retry loop: failed rounds, then either exhaustion or
    one usable reply. *)
Lemma for_attempts_shape review_text attempts :
  forall batch_results clock,
  let run := for_attempts env review_text attempts batch_results clock in
  exists failed,
    Forall (attempt_fails env) failed
    /\ sleeps (snd run) = List.length failed
    /\ ((completion_replies (snd run) = failed
         /\ List.length failed = List.length attempts
         /\ fst run = Ok (batch_results ++ [PyDict []]))
        \/ exists last v,
             completion_replies (snd run) = failed ++ [last]
             /\ usable_parse env last = Some v
             /\ List.length failed < List.length attempts
             /\ fst run = Ok (batch_results ++ [v])).
Proof.
  induction attempts as [|attempt attempts IH]; intros batch_results clock; cbv zeta.
  - exists []. simpl. split; [constructor|]. split; [reflexivity|]. left. auto.
  - simpl for_attempts. rewrite bind_run.
    destruct (attempt_body_cases env review_text attempt batch_results clock)
      as [(v & Hu & Hb)|(Hu & line & Hb)]; rewrite Hb.
    + exists []. unfold prepend. simpl.
      split; [constructor|]. split; [reflexivity|]. right.
      eexists. exists v. simpl. repeat split; trivial. lia.
    + rewrite bind_run, sleep_run.
      match goal with
      | |- context [for_attempts env review_text attempts batch_results ?c] =>
          specialize (IH batch_results c); cbv zeta in IH;
          destruct (for_attempts env review_text attempts batch_results c) as [r es]
      end.
      destruct IH as (failed & Hall & Hsl & Hcases). simpl in Hsl, Hcases.
      apply usable_parse_none in Hu.
      exists (generate_content env clock gemini_model (prompt review_text) :: failed).
      unfold prepend. simpl.
      split; [now constructor|]. split; [now rewrite Hsl|].
      destruct Hcases as [(Hr & Hlen & Hres)|(last & v & Hr & Hv & Hlen & Hres)].
      * left. rewrite Hr. repeat split; trivial. now rewrite Hlen.
      * right. exists last, v. rewrite Hr. repeat split; trivial. lia.
Qed.

(** X1.  The retry loop of one review stops at the first usable reply: every
    reply before the last one failed, a failed attempt is followed by one
    sleep (the last of them too), a usable one by none; the loop either
    went through all [retries] attempts and appended the empty mapping, or
    ended on a usable reply and appended its parse. *)
Theorem retry_stops_at_first_usable review_text retries batch_results clock :
  let run := for_attempts env review_text (seq 0 retries) batch_results clock in
  exists failed,
    Forall (attempt_fails env) failed
    /\ sleeps (snd run) = List.length failed
    /\ ((completion_replies (snd run) = failed
         /\ List.length failed = retries
         /\ fst run = Ok (batch_results ++ [PyDict []]))
        \/ exists last v,
             completion_replies (snd run) = failed ++ [last]
             /\ usable_parse env last = Some v
             /\ List.length failed < retries
             /\ fst run = Ok (batch_results ++ [v])).
Proof.
  cbv zeta.
  destruct (for_attempts_shape review_text (seq 0 retries) batch_results clock)
    as (failed & Hall & Hsl & Hcases).
  rewrite length_seq in Hcases. exists failed. auto.
Qed.

Lemma for_attempts_calls review_text retries batch_results clock :
  let run := for_attempts env review_text (seq 0 retries) batch_results clock in
  Nat.min 1 retries <= List.length (completion_replies (snd run)) <= retries
  /\ exists v, fst run = Ok (batch_results ++ [v]).
Proof.
  cbv zeta.
  destruct (for_attempts_shape review_text (seq 0 retries) batch_results clock)
    as (failed & _ & _ & Hcases).
  rewrite length_seq in Hcases.
  destruct Hcases as [(Hr & Hlen & Hres)|(last & v & Hr & _ & Hlen & Hres)];
    rewrite Hr, Hres.
  - split; [lia|eauto].
  - rewrite length_app. change (List.length [last]) with 1. split; [lia|eauto].
Qed.

Lemma for_reviews_calls retries review_texts :
  forall batch_results clock,
  let run := for_reviews env review_texts retries batch_results clock in
  Nat.min 1 retries * List.length review_texts
    <= List.length (completion_replies (snd run))
    <= retries * List.length review_texts
  /\ exists results,
       fst run = Ok (batch_results ++ results)
       /\ List.length results = List.length review_texts.
Proof.
  induction review_texts as [|review_text review_texts IH];
    intros batch_results clock; cbv zeta.
  - simpl. split; [lia|]. exists []. now rewrite app_nil_r.
  - simpl for_reviews. rewrite bind_run.
    destruct (for_attempts_calls review_text retries batch_results clock)
      as (Hcalls & v & Hres). cbv zeta in Hcalls.
    destruct (for_attempts env review_text (seq 0 retries) batch_results clock)
      as [r es]. cbn [fst snd] in Hcalls, Hres. subst r.
    specialize (IH (batch_results ++ [v]) (clock + List.length es)). cbv zeta in IH.
    destruct IH as (Hcalls' & results & Hres' & Hlen).
    unfold prepend. cbn [fst snd List.length].
    rewrite completion_replies_app, length_app.
    split; [rewrite !Nat.mul_succ_r; lia|]. exists (v :: results). rewrite Hres', <- app_assoc. simpl.
    split; [reflexivity|]. now rewrite Hlen.
Qed.

(** X2.  For any number of retries the batch function makes at most [retries]
    completion calls per review and, when [retries] is positive, at least
    one; with [retries = 0] it makes no call at all and returns the empty
    mapping for every review. *)
Theorem calls_within_retries review_texts retries clock :
  let run := analyze_reviews_batch env review_texts retries clock in
  Nat.min 1 retries * List.length review_texts
    <= List.length (completion_replies (snd run))
    <= retries * List.length review_texts
  /\ (retries = 0 ->
      run = (Ok (repeat (PyDict []) (List.length review_texts)), [])).
Proof.
  cbv zeta. unfold analyze_reviews_batch. split.
  - apply (for_reviews_calls retries review_texts [] clock).
  - intros ->.
    assert (H : forall acc clock',
               for_reviews env review_texts 0 acc clock'
               = (Ok (acc ++ repeat (PyDict []) (List.length review_texts)), [])).
    { induction review_texts as [|review_text review_texts IH]; intros acc clock'.
      - simpl. now rewrite app_nil_r.
      - simpl for_reviews. rewrite bind_run. simpl seq. simpl for_attempts.
        unfold ret at 1. rewrite IH. unfold prepend. simpl.
        now rewrite <- app_assoc. }
    apply (H [] clock).
Qed.

End ExtractionMore.

(** ** Python string primitives *)

Module PyFacts.

Lemma truthy_false s : Py.truthy s = false <-> s = EmptyString.
Proof. destruct s; simpl; split; congruence. Qed.

(** The equations of [lstrip] and [all_space]. *)
Lemma lstrip_1 a r : Py.isspace a = true -> Py.lstrip (String a r) = Py.lstrip r.
Proof. intros H. simpl. now rewrite H. Qed.

Lemma lstrip_2 a b r :
  Py.isspace a = false -> Py.space2 a b = true ->
  Py.lstrip (String a (String b r)) = Py.lstrip r.
Proof. intros H1 H2. simpl. now rewrite H1, H2. Qed.

Lemma lstrip_3 a b c r :
  Py.isspace a = false -> Py.space2 a b = false -> Py.space3 a b c = true ->
  Py.lstrip (String a (String b (String c r))) = Py.lstrip r.
Proof. intros H1 H2 H3. simpl. now rewrite H1, H2, H3. Qed.

Lemma all_space_1 a r : Py.isspace a = true -> Py.all_space (String a r) = Py.all_space r.
Proof. intros H. simpl. now rewrite H. Qed.

Lemma all_space_2 a b r :
  Py.isspace a = false -> Py.space2 a b = true ->
  Py.all_space (String a (String b r)) = Py.all_space r.
Proof. intros H1 H2. simpl. now rewrite H1, H2. Qed.

Lemma all_space_3 a b c r :
  Py.isspace a = false -> Py.space2 a b = false -> Py.space3 a b c = true ->
  Py.all_space (String a (String b (String c r))) = Py.all_space r.
Proof. intros H1 H2 H3. simpl. now rewrite H1, H2, H3. Qed.

(** Reasoning along the whitespace characters a text begins with. *)
Lemma space_ind (P : string -> Prop) :
  P EmptyString ->
  (forall a r, Py.isspace a = true -> P r -> P (String a r)) ->
  (forall a b r, Py.isspace a = false -> Py.space2 a b = true -> P r ->
     P (String a (String b r))) ->
  (forall a b c r, Py.isspace a = false -> Py.space2 a b = false ->
     Py.space3 a b c = true -> P r -> P (String a (String b (String c r)))) ->
  (forall s, s <> EmptyString -> Py.lstrip s = s -> Py.all_space s = false -> P s) ->
  forall s, P s.
Proof.
  intros H0 H1 H2 H3 Hstop s.
  remember (String.length s) as n eqn:Hn.
  revert s Hn. induction n as [n IH] using lt_wf_ind. intros s Hn.
  destruct s as [|a r]; [exact H0|].
  destruct (Py.isspace a) eqn:Ea.
  { apply H1; trivial. apply (IH (String.length r)); simpl in Hn; [lia|reflexivity]. }
  destruct r as [|b r].
  { apply Hstop; [discriminate|simpl; now rewrite Ea|simpl; now rewrite Ea]. }
  destruct (Py.space2 a b) eqn:Eb.
  { apply H2; trivial. apply (IH (String.length r)); simpl in Hn; [lia|reflexivity]. }
  destruct r as [|c r].
  { apply Hstop; [discriminate|simpl; now rewrite Ea, Eb|simpl; now rewrite Ea, Eb]. }
  destruct (Py.space3 a b c) eqn:Ec.
  { apply H3; trivial. apply (IH (String.length r)); simpl in Hn; [lia|reflexivity]. }
  apply Hstop; [discriminate|simpl; now rewrite Ea, Eb, Ec|simpl; now rewrite Ea, Eb, Ec].
Qed.

Lemma lstrip_empty s : Py.lstrip s = EmptyString <-> Py.all_space s = true.
Proof.
  induction s as [| | |a b c r Ea Eb Ec IH|s Hne Hfix Hno] using space_ind.
  - simpl. tauto.
  - simpl. rewrite H. exact IHs.
  - simpl. rewrite H, H0. exact IHs.
  - simpl. rewrite Ea, Eb, Ec. exact IH.
  - rewrite Hfix, Hno. split; [contradiction|discriminate].
Qed.


Lemma rstrip_empty s : Py.rstrip s = EmptyString <-> Py.all_space s = true.
Proof.
  destruct s as [|c s]; [simpl; tauto|].
  change (Py.rstrip (String c s))
    with (if Py.all_space (String c s) then EmptyString else String c (Py.rstrip s)).
  destruct (Py.all_space (String c s)); split; congruence.
Qed.

Lemma all_space_lstrip s : Py.all_space (Py.lstrip s) = Py.all_space s.
Proof.
  induction s as [|a r Ea IH|a b r Ea Eb IH|a b c r Ea Eb Ec IH|s Hne Hfix Hno]
    using space_ind.
  - reflexivity.
  - simpl. now rewrite Ea.
  - simpl. now rewrite Ea, Eb.
  - simpl. now rewrite Ea, Eb, Ec.
  - now rewrite Hfix.
Qed.

Lemma strip_empty s : Py.strip s = EmptyString <-> Py.all_space s = true.
Proof. unfold Py.strip. now rewrite rstrip_empty, all_space_lstrip. Qed.

Lemma lstrip_length s : String.length (Py.lstrip s) <= String.length s.
Proof.
  induction s as [|a r Ea IH|a b r Ea Eb IH|a b c r Ea Eb Ec IH|s Hne Hfix Hno]
    using space_ind.
  - simpl. lia.
  - simpl. rewrite Ea. lia.
  - simpl. rewrite Ea, Eb. lia.
  - simpl. rewrite Ea, Eb, Ec. lia.
  - rewrite Hfix. lia.
Qed.

Lemma lstrip_fixed s : Py.lstrip s = s <-> leading_space s = false.
Proof.
  destruct s as [|a r]; [simpl; tauto|].
  pose proof (lstrip_length r) as Hr.
  simpl. destruct (Py.isspace a).
  { split; [|discriminate]. intros H. apply (f_equal String.length) in H.
    simpl in H. lia. }
  destruct r as [|b r]; [tauto|].
  pose proof (lstrip_length r) as Hr'.
  destruct (Py.space2 a b).
  { split; [|discriminate]. intros H. apply (f_equal String.length) in H.
    simpl in H. lia. }
  destruct r as [|c r]; [tauto|].
  pose proof (lstrip_length r) as Hr''.
  destruct (Py.space3 a b c); [|tauto].
  split; [|discriminate]. intros H. apply (f_equal String.length) in H.
  simpl in H. lia.
Qed.

Lemma lstrip_no_lead s : leading_space (Py.lstrip s) = false.
Proof.
  induction s as [|a r Ea IH|a b r Ea Eb IH|a b c r Ea Eb Ec IH|s Hne Hfix Hno]
    using space_ind.
  - reflexivity.
  - simpl Py.lstrip. now rewrite Ea.
  - simpl Py.lstrip. now rewrite Ea, Eb.
  - simpl Py.lstrip. now rewrite Ea, Eb, Ec.
  - rewrite Hfix. now apply lstrip_fixed.
Qed.

Lemma leading_space_prefix p w :
  p <> EmptyString -> leading_space (p ++ w) = false -> leading_space p = false.
Proof.
  destruct p as [|a [|b [|c p]]]; simpl; intros Hne H; try congruence.
  - apply orb_false_iff in H. destruct H as [-> _]. reflexivity.
  - apply orb_false_iff in H. destruct H as [-> H]. simpl.
    destruct w; simpl in *.
    + exact H.
    + apply orb_false_iff in H. destruct H as [-> _]. reflexivity.
Qed.

Lemma rstrip_split s :
  exists w, s = (Py.rstrip s ++ w)%string /\ Py.all_space w = true.
Proof.
  induction s as [|c s IH]; [exists EmptyString; auto|].
  change (Py.rstrip (String c s))
    with (if Py.all_space (String c s) then EmptyString else String c (Py.rstrip s)).
  destruct (Py.all_space (String c s)) eqn:E.
  - exists (String c s). auto.
  - destruct IH as (w & Hs & Hw). exists w. simpl. split; [congruence|assumption].
Qed.

Lemma all_space_app x w :
  Py.all_space x = true -> Py.all_space w = true -> Py.all_space (x ++ w) = true.
Proof.
  intros Hx Hw. revert Hx.
  induction x as [|a r Ea IH|a b r Ea Eb IH|a b c r Ea Eb Ec IH|s Hne Hfix Hno]
    using space_ind; intros Hx.
  - exact Hw.
  - simpl in *. rewrite Ea in *. auto.
  - simpl in *. rewrite Ea, Eb in *. auto.
  - simpl in *. rewrite Ea, Eb, Ec in *. auto.
  - congruence.
Qed.

Lemma rstrip_idempotent s : Py.rstrip (Py.rstrip s) = Py.rstrip s.
Proof.
  induction s as [|c s IH]; [reflexivity|].
  change (Py.rstrip (String c s))
    with (if Py.all_space (String c s) then EmptyString else String c (Py.rstrip s)).
  destruct (Py.all_space (String c s)) eqn:E; [reflexivity|].
  change (Py.rstrip (String c (Py.rstrip s)))
    with (if Py.all_space (String c (Py.rstrip s)) then EmptyString
          else String c (Py.rstrip (Py.rstrip s))).
  destruct (Py.all_space (String c (Py.rstrip s))) eqn:E'; [|now rewrite IH].
  destruct (rstrip_split s) as (w & Hs & Hw).
  assert (H : Py.all_space (String c (Py.rstrip s) ++ w) = true)
    by now apply all_space_app.
  simpl append in H. rewrite <- Hs in H. congruence.
Qed.

Lemma strip_idempotent s : Py.strip (Py.strip s) = Py.strip s.
Proof.
  unfold Py.strip.
  assert (Hfix : Py.lstrip (Py.rstrip (Py.lstrip s)) = Py.rstrip (Py.lstrip s)).
  { destruct (Py.rstrip (Py.lstrip s)) as [|c t] eqn:E; [reflexivity|].
    apply lstrip_fixed.
    destruct (rstrip_split (Py.lstrip s)) as (w & Hs & _).
    apply (leading_space_prefix _ w); [discriminate|].
    rewrite <- E, <- Hs. apply lstrip_no_lead. }
  rewrite Hfix. apply rstrip_idempotent.
Qed.


(** *** Lowering *)

Lemma lower_char_cases c :
  Py.lower_char c = c
  \/ (nat_of_ascii c < 128 /\ nat_of_ascii (Py.lower_char c) < 128).
Proof.
  unfold Py.lower_char.
  destruct (Nat.leb 65 (nat_of_ascii c) && Nat.leb (nat_of_ascii c) 90) eqn:E;
    [right|now left].
  apply andb_true_iff in E. destruct E as [H1 H2].
  apply Nat.leb_le in H1, H2.
  rewrite nat_ascii_embedding by lia. lia.
Qed.

Lemma lower_char_idempotent c : Py.lower_char (Py.lower_char c) = Py.lower_char c.
Proof. destruct c as [[] [] [] [] [] [] [] []]; reflexivity. Qed.

Lemma isspace_lower_char c : Py.isspace (Py.lower_char c) = Py.isspace c.
Proof. destruct c as [[] [] [] [] [] [] [] []]; reflexivity. Qed.

Lemma eqb_low m k : m < 128 -> 128 <= k -> Nat.eqb m k = false.
Proof. intros H1 H2. apply Nat.eqb_neq. lia. Qed.

Lemma space2_low a b :
  nat_of_ascii a < 128 \/ nat_of_ascii b < 128 -> Py.space2 a b = false.
Proof.
  unfold Py.space2. intros [H|H].
  - rewrite (eqb_low _ 194 H) by lia. reflexivity.
  - rewrite (eqb_low _ 133 H), (eqb_low _ 160 H) by lia. apply andb_false_r.
Qed.

Lemma space3_low a b c :
  nat_of_ascii a < 128 \/ nat_of_ascii b < 128 \/ nat_of_ascii c < 128 ->
  Py.space3 a b c = false.
Proof.
  unfold Py.space3. intros [H|[H|H]].
  - rewrite (eqb_low _ 225 H), (eqb_low _ 226 H), (eqb_low _ 227 H) by lia.
    reflexivity.
  - rewrite (eqb_low _ 154 H), (eqb_low _ 128 H), (eqb_low _ 129 H) by lia.
    rewrite !andb_false_r. reflexivity.
  - rewrite (eqb_low _ 128 H), (eqb_low _ 168 H), (eqb_low _ 169 H),
      (eqb_low _ 175 H), (eqb_low _ 159 H) by lia.
    replace (Nat.leb 128 (nat_of_ascii c)) with false
      by (symmetry; apply Nat.leb_gt; lia).
    simpl. rewrite !andb_false_r. reflexivity.
Qed.

Lemma space2_lower a b :
  Py.space2 (Py.lower_char a) (Py.lower_char b) = Py.space2 a b.
Proof.
  destruct (lower_char_cases a) as [->|[Ha Ha']].
  - destruct (lower_char_cases b) as [->|[Hb Hb']]; [reflexivity|].
    rewrite !space2_low; auto.
  - rewrite !space2_low; auto.
Qed.

Lemma space3_lower a b c :
  Py.space3 (Py.lower_char a) (Py.lower_char b) (Py.lower_char c) = Py.space3 a b c.
Proof.
  destruct (lower_char_cases a) as [->|[Ha Ha']].
  - destruct (lower_char_cases b) as [->|[Hb Hb']].
    + destruct (lower_char_cases c) as [->|[Hc Hc']]; [reflexivity|].
      rewrite !space3_low; auto.
    + rewrite !space3_low; auto.
  - rewrite !space3_low; auto.
Qed.

Lemma lower_idempotent s : Py.lower (Py.lower s) = Py.lower s.
Proof.
  induction s as [|c s IH]; simpl; trivial.
  now rewrite lower_char_idempotent, IH.
Qed.

Lemma leading_space_lower s : leading_space (Py.lower s) = leading_space s.
Proof.
  destruct s as [|a [|b [|c r]]]; cbn [Py.lower leading_space];
    now rewrite ?isspace_lower_char, ?space2_lower, ?space3_lower.
Qed.

Lemma all_space_stuck s :
  s <> EmptyString -> leading_space s = false -> Py.all_space s = false.
Proof.
  destruct s as [|a [|b [|c r]]]; simpl; intros Hne H; try congruence.
  - rewrite orb_false_r in H. now rewrite H.
  - apply orb_false_iff in H. destruct H as [-> H].
    rewrite orb_false_r in H. now rewrite H.
  - apply orb_false_iff in H. destruct H as [-> H].
    apply orb_false_iff in H. destruct H as [-> ->]. reflexivity.
Qed.

Lemma all_space_lower s : Py.all_space (Py.lower s) = Py.all_space s.
Proof.
  induction s as [|a r Ea IH|a b r Ea Eb IH|a b c r Ea Eb Ec IH|s Hne Hfix Hno]
    using space_ind.
  - reflexivity.
  - cbn [Py.lower]. rewrite !all_space_1; rewrite ?isspace_lower_char; trivial.
  - cbn [Py.lower]. rewrite !all_space_2;
      rewrite ?isspace_lower_char, ?space2_lower; trivial.
  - cbn [Py.lower]. rewrite !all_space_3;
      rewrite ?isspace_lower_char, ?space2_lower, ?space3_lower; trivial.
  - rewrite Hno. apply all_space_stuck.
    + destruct s; [congruence|discriminate].
    + rewrite leading_space_lower. now apply lstrip_fixed.
Qed.

Lemma lstrip_lower s : Py.lstrip (Py.lower s) = Py.lower (Py.lstrip s).
Proof.
  induction s as [|a r Ea IH|a b r Ea Eb IH|a b c r Ea Eb Ec IH|s Hne Hfix Hno]
    using space_ind.
  - reflexivity.
  - cbn [Py.lower]. rewrite !lstrip_1; rewrite ?isspace_lower_char; trivial.
  - cbn [Py.lower]. rewrite !lstrip_2;
      rewrite ?isspace_lower_char, ?space2_lower; trivial.
  - cbn [Py.lower]. rewrite !lstrip_3;
      rewrite ?isspace_lower_char, ?space2_lower, ?space3_lower; trivial.
  - rewrite Hfix. apply lstrip_fixed. rewrite leading_space_lower.
    now apply lstrip_fixed.
Qed.

Lemma rstrip_lower s : Py.rstrip (Py.lower s) = Py.lower (Py.rstrip s).
Proof.
  induction s as [|c s IH]; [reflexivity|].
  change (Py.rstrip (String c s))
    with (if Py.all_space (String c s) then EmptyString else String c (Py.rstrip s)).
  change (Py.rstrip (Py.lower (String c s)))
    with (if Py.all_space (Py.lower (String c s)) then EmptyString
          else String (Py.lower_char c) (Py.rstrip (Py.lower s))).
  rewrite all_space_lower, IH. now destruct (Py.all_space (String c s)).
Qed.

Lemma strip_lower s : Py.strip (Py.lower s) = Py.lower (Py.strip s).
Proof. unfold Py.strip. now rewrite lstrip_lower, rstrip_lower. Qed.

(** *** ASCII texts *)

Lemma isascii_app p w : Py.isascii (p ++ w) = Py.isascii p && Py.isascii w.
Proof. induction p as [|c p IH]; simpl; [reflexivity|]. now rewrite IH, andb_assoc. Qed.

Lemma lstrip_suffix s : exists p, s = (p ++ Py.lstrip s)%string.
Proof.
  induction s as [|a r Ea [p IH]|a b r Ea Eb [p IH]|a b c r Ea Eb Ec [p IH]|s Hne Hfix Hno]
    using space_ind.
  - exists EmptyString. reflexivity.
  - exists (String a p). simpl. rewrite Ea. now f_equal.
  - exists (String a (String b p)). simpl. rewrite Ea, Eb. now do 2 f_equal.
  - exists (String a (String b (String c p))). simpl. rewrite Ea, Eb, Ec.
    now do 3 f_equal.
  - exists EmptyString. now rewrite Hfix.
Qed.

Lemma isascii_strip s : Py.isascii s = true -> Py.isascii (Py.strip s) = true.
Proof.
  intros H. unfold Py.strip.
  destruct (lstrip_suffix s) as (p & Hs).
  destruct (rstrip_split (Py.lstrip s)) as (w & Hl & _).
  rewrite Hs, isascii_app in H. apply andb_true_iff in H. destruct H as [_ H].
  rewrite Hl, isascii_app in H. apply andb_true_iff in H. tauto.
Qed.

End PyFacts.

Section BlankResponse.

Context {float : Type}.
Variable env : Env float.

(** X3.  A completion whose text is made of whitespace only (the
    whitespace of [str.strip]: that of ASCII and of Unicode, such as the
    no-break space) counts as an empty response: the attempt prints the
    empty-response line and fails, and the text is not parsed.  No other
    text is treated that way. *)
Theorem blank_text_is_empty_response review_text attempt batch_results clock t :
  generate_content env clock gemini_model (prompt review_text) = Returns (Some t) ->
  Py.all_space t = true
  <-> attempt_body env review_text attempt batch_results clock
      = (Ok None,
         [GenerateContent gemini_model (prompt review_text) (Returns (Some t));
          Print ("Empty response, retry " ++ Py.str_nat (attempt + 1))]).
Proof.
  intros Hreply. unfold attempt_body, try_except, bind, call. rewrite Hreply.
  cbn [ret List.length app].
  destruct (Py.truthy (Py.strip t)) eqn:Ht.
  - assert (Hns : Py.all_space t <> true).
    { intros H. apply PyFacts.strip_empty in H. rewrite H in Ht. discriminate. }
    split; [intros H; contradiction|]. intros H. exfalso.
    destruct (json_loads env (Py.strip t)) as [v|msg]; simpl in H; discriminate.
  - apply PyFacts.truthy_false, PyFacts.strip_empty in Ht.
    split; [intros _; reflexivity|intros _; exact Ht].
Qed.

End BlankResponse.

(** ** The requests of a run *)

Section Requests.

Local Open Scope list_scope.

Context {float : Type}.
Variable env : Env float.

Lemma late_event_request (e : event float) :
  late_event e -> is_geocode e = false /\ is_search e = false.
Proof. intros [H|H]; destruct e; simpl in *; auto; contradiction. Qed.

Lemma discovery_event_request (e : event float) :
  discovery_event e -> is_geocode e = false /\ is_search e = false.
Proof. destruct e; simpl; auto; contradiction. Qed.

Lemma filter_kind {P : event float -> Prop} {f : event float -> bool} l :
  (forall e, P e -> f e = false) -> Forall P l -> filter f l = [].
Proof.
  intros HPf Hall. apply filter_none. eapply Forall_impl; [|exact Hall]. exact HPf.
Qed.

(** The events of the [try] block after those of its first half. *)
Lemma guarded_main_tail fuel location_input business_type clock :
  exists tail,
    snd (guarded_main env fuel location_input business_type clock)
    = snd (competitor_report env fuel location_input business_type clock) ++ tail
    /\ Forall late_event tail.
Proof.
  pose proof (guarded_main_cases env fuel location_input business_type clock) as Hg.
  cbv zeta in Hg.
  destruct (fst (competitor_report env fuel location_input business_type clock))
    as [data|[msg|code]|].
  - destruct (snd data) as [|row rows].
    + rewrite Hg. eexists. split; [reflexivity|]. repeat constructor.
    + destruct Hg as (ex & rp & Htrace & Hex & Hrp & _). rewrite Htrace.
      eexists. split; [reflexivity|].
      constructor; [left; exact I|]. apply Forall_app. split.
      * now apply extraction_is_late.
      * now apply reporting_is_late.
  - rewrite Hg. eexists. split; [reflexivity|]. repeat constructor.
  - rewrite Hg. exists []. now rewrite app_nil_r.
  - rewrite Hg. exists []. now rewrite app_nil_r.
Qed.

(** The first half begins with the geocode lookup. *)
Lemma competitor_report_head fuel location_input business_type clock :
  exists later,
    snd (competitor_report env fuel location_input business_type clock)
    = Geocode location_input (maps_geocode env clock location_input) :: later.
Proof.
  unfold competitor_report.
  match goal with
  | |- context [bind ?m ?k clock] => destruct (bind_prefix m k clock) as (later & ->)
  end.
  rewrite geocode_location_cases.
  destruct (maps_geocode env clock location_input) as [[|first rest]|msg];
    eexists; reflexivity.
Qed.

Ltac paths Hpath :=
  destruct Hpath as [msg| |first rest msg|first rest places_result Hnone
                     |first rest places_result r es Hne Hev Hr
                     |first rest places_result es msg Hne Hev
                     |first rest places_result es msg Hne Hev
                     |first rest places_result es msg Hne Hev
                     |first rest places_result es reviews_data Hne Hev Hlen];
  unfold discovered, saved in *.

Lemma discovery_requests location_input business_type (es : list (event float)) :
  Forall discovery_event es -> Forall (request_for location_input business_type) es.
Proof.
  intros H. eapply Forall_impl; [|exact H]. intros e. destruct e; simpl; tauto.
Qed.

Lemma report_path_requests location_input business_type r es :
  report_path env location_input business_type r es ->
  Forall (request_for location_input business_type) es
  /\ exists reply later,
       es = Geocode location_input reply :: later
       /\ filter is_geocode later = []
       /\ List.length (filter is_search later)
          = match reply with
            | Returns (_ :: _) => 1
            | _ => 0
            end.
Proof.
  intros Hpath.
  paths Hpath;
    try (pose proof (discovery_requests location_input business_type es Hev) as Hreq;
         pose proof (filter_kind es (fun e H => proj1 (discovery_event_request e H)) Hev)
           as Hgeo;
         pose proof (filter_kind es (fun e H => proj2 (discovery_event_request e H)) Hev)
           as Hsearch);
    (split;
     [ repeat first [ apply Forall_app; split | assumption
                    | apply Forall_cons | apply Forall_nil ];
       simpl; auto
     | eexists; eexists; split; [simpl; reflexivity|];
       simpl; rewrite ?filter_app, ?Hgeo, ?Hsearch; simpl; auto ]).
Qed.

Lemma late_requests location_input business_type (es : list (event float)) :
  Forall late_event es -> Forall (request_for location_input business_type) es.
Proof.
  intros H. eapply Forall_impl; [|exact H].
  intros e [He|He]; destruct e; simpl in *; tauto.
Qed.

Lemma guarded_main_requests fuel location_input business_type clock :
  Forall (request_for location_input business_type)
         (snd (guarded_main env fuel location_input business_type clock)).
Proof.
  destruct (guarded_main_tail fuel location_input business_type clock)
    as (tail & -> & Hlate).
  apply Forall_app. split.
  - apply (report_path_requests location_input business_type _ _
             (competitor_report_path env fuel location_input business_type clock)).
  - now apply late_requests.
Qed.

(** X4.  The [try] block looks the location up exactly once, with the location
    the user gave; it searches exactly once when the lookup returned a
    candidate, with radius 2000 and the business type as type and as
    keyword, and never otherwise: no request is repeated. *)
Theorem one_lookup_one_search fuel location_input business_type clock :
  let trace := snd (guarded_main env fuel location_input business_type clock) in
  Forall (request_for location_input business_type) trace
  /\ List.length (filter is_geocode trace) = 1
  /\ List.length (filter is_search trace)
     = match maps_geocode env clock location_input with
       | Returns (_ :: _) => 1
       | _ => 0
       end.
Proof.
  cbv zeta. split; [apply guarded_main_requests|].
  destruct (guarded_main_tail fuel location_input business_type clock)
    as (tail & -> & Hlate).
  destruct (competitor_report_head fuel location_input business_type clock)
    as (later' & Hhead).
  destruct (report_path_requests location_input business_type _ _
              (competitor_report_path env fuel location_input business_type clock))
    as (_ & reply & later & Hes & Hgeo & Hsearch).
  rewrite Hes in Hhead |- *. injection Hhead as <- _.
  rewrite !filter_app.
  rewrite (filter_kind tail (fun e H => proj1 (late_event_request e H)) Hlate).
  rewrite (filter_kind tail (fun e H => proj2 (late_event_request e H)) Hlate).
  simpl. rewrite Hgeo, !app_nil_r. split; [reflexivity|exact Hsearch].
Qed.

Lemma request_for_stripped location business_type (e : event float) :
  request_for (Py.strip location) business_type e -> stripped_address e.
Proof.
  destruct e; simpl; trivial. intros ->. apply PyFacts.strip_idempotent.
Qed.

Lemma request_for_normalised location business (e : event float) :
  request_for (Py.strip location) (Py.lower (Py.strip business)) e ->
  normalised_request e.
Proof.
  destruct e; simpl; trivial.
  - intros ->. apply PyFacts.strip_idempotent.
  - intros (-> & -> & ->). repeat split.
    + now rewrite PyFacts.strip_lower, PyFacts.strip_idempotent.
    + apply PyFacts.lower_idempotent.
Qed.

(** X5.  Whatever the user types as location, the address the script looks
    up carries no surrounding whitespace, that of Unicode included:
    stripping it again changes nothing.  When the business type the user
    types is ASCII text, the type searched for (as type and as keyword,
    radius 2000) is in lower case without surrounding whitespace, so that
    stripping or lowering it again changes nothing.  For other text the
    lower case is that of [str.lower], about which nothing is said. *)
Theorem requests_use_normalised_input fuel :
  let trace := snd (script env fuel 0) in
  Forall stripped_address trace
  /\ forall business,
       stdin_input env 3 business_prompt = Returns business ->
       Py.isascii business = true ->
       Forall normalised_request trace.
Proof.
  cbv zeta. unfold script. rewrite bind_run, setup_cases.
  destruct (credentials_missing env);
    [split; [|intros business _ _]; repeat constructor|].
  destruct (maps_client env 0 (API_KEY env)) as [[]|msg];
    [|split; [|intros business _ _]; repeat constructor].
  destruct (genai_client env (0 + 1) (GEMINI_KEY env)) as [[]|msg];
    [|split; [|intros business _ _]; repeat constructor].
  destruct (stdin_input env (0 + 2) location_prompt) as [location|msg];
    [|split; [|intros business _ _]; repeat constructor].
  change (0 + 3) with 3.
  destruct (stdin_input env 3 business_prompt) as [typed|msg];
    [|split; [|intros business _ _]; repeat constructor].
  unfold prepend. cbn [fst snd]. split.
  - apply Forall_app. split; [repeat constructor|].
    eapply Forall_impl; [|apply guarded_main_requests].
    apply request_for_stripped.
  - intros business [= <-] Hascii.
    apply Forall_app. split; [repeat constructor|].
    eapply Forall_impl; [|apply guarded_main_requests].
    unfold lower. rewrite (PyFacts.isascii_strip _ Hascii).
    apply request_for_normalised.
Qed.

End Requests.

(** ** The place loop *)

Section Collect.

Local Open Scope list_scope.

Context {float : Type}.
Variable env : Env float.

Lemma bind_ok_inv {A B : Type} (m : M float A) (k : A -> M float B) clock b es :
  bind m k clock = (Ok b, es) ->
  exists a es1 es2,
    m clock = (Ok a, es1) /\ k a (clock + List.length es1) = (Ok b, es2)
    /\ es = es1 ++ es2.
Proof.
  rewrite bind_run. destruct (m clock) as [[a|e|] es1]; try discriminate.
  unfold prepend. simpl. destruct (k a (clock + List.length es1)) as [r es2] eqn:Hk.
  simpl. intros [= -> <-]. exists a, es1, es2. auto.
Qed.

Lemma tokenless_calls_app (a b : list (event float)) :
  tokenless_calls (a ++ b) = tokenless_calls a ++ tokenless_calls b.
Proof.
  induction a as [|e a IH]; simpl; trivial.
  destruct e; simpl; trivial. destruct page_token; simpl; congruence.
Qed.

(** A token that is passed is a string that is not empty. *)
Lemma passed_token_truthy token :
  Py.truthy_opt token = true -> exists t, passed_token token = Some t.
Proof.
  unfold passed_token. intros H. rewrite H. destruct token; [eauto|discriminate H].
Qed.

(** One loop asks once without a token: at its first call. *)
Lemma fetch_reviews_tokenless fuel id name address reviews_count :
  forall token reviews_data clock,
  let run := fetch_reviews env fuel id name address reviews_count token
                           reviews_data clock in
  tokenless_calls (snd run)
  = match fuel, passed_token token with
    | S _, None => [id]
    | _, _ => []
    end.
Proof.
  induction fuel as [|fuel IH]; intros token reviews_data clock; cbv zeta.
  - reflexivity.
  - rewrite fetch_reviews_step.
    destruct (maps_place env clock id (passed_token token)) as [details|msg].
    + destruct (Py.truthy_opt (next_page_token details)) eqn:Htok.
      * specialize (IH (next_page_token details)
                       (reviews_data ++ page_rows name address reviews_count details)
                       (clock + 2)).
        cbv zeta in IH.
        destruct (fetch_reviews env fuel id name address reviews_count
                    (next_page_token details) _ (clock + 2)) as [r es].
        simpl snd in *.
        destruct (passed_token_truthy _ Htok) as (t & Ht). rewrite Ht in IH.
        assert (Hes : tokenless_calls es = []) by (rewrite IH; now destruct fuel).
        destruct (passed_token token); simpl; now rewrite Hes.
      * simpl. destruct (passed_token token); reflexivity.
    + simpl. destruct (passed_token token); reflexivity.
Qed.

Lemma fetch_reviews_rows fuel id name address reviews_count token reviews_data clock
    rows es :
  fetch_reviews env fuel id name address reviews_count token reviews_data clock
  = (Ok rows, es) ->
  exists group,
    rows = reviews_data ++ group
    /\ Forall (fun row => R_Business row = name /\ R_Address row = address
                          /\ R_Reviews_Count row = reviews_count) group.
Proof.
  intros Hrun.
  pose proof (fetch_reviews_cases env id name address reviews_count fuel token
                reviews_data clock) as H.
  rewrite Hrun in H. destruct H as (pages & last & _ & _ & _ & _ & _ & ->).
  eexists. split; [reflexivity|].
  apply Forall_flat_map. apply Forall_forall. intros page _.
  unfold page_rows. apply Forall_map. apply Forall_forall. intros review _.
  simpl. auto.
Qed.

(** The rows the place loop adds, group by group. *)
Lemma collect_groups fuel places :
  forall business_data reviews_data clock data es,
  collect env fuel places business_data reviews_data clock = (Ok data, es) ->
  exists groups,
    snd data = reviews_data ++ List.concat groups
    /\ Forall2 (fun place group => Forall (row_of_place place) group) places groups.
Proof.
  induction places as [|place places IH];
    intros business_data reviews_data clock data es.
  - simpl. intros [= <- _]. exists []. simpl. rewrite app_nil_r.
    split; [reflexivity|constructor].
  - simpl collect. intros Hrun. apply bind_ok_inv in Hrun.
    destruct Hrun as (rows & es1 & es2 & Hfetch & Hrest & _).
    destruct (fetch_reviews_rows _ _ _ _ _ _ _ _ _ _ Hfetch) as (group & -> & Hgroup).
    destruct (IH _ _ _ _ _ Hrest) as (groups & Hrows & Hall).
    exists (group :: groups). simpl. rewrite Hrows, <- app_assoc.
    split; [reflexivity|]. constructor; assumption.
Qed.

(** X6.  The place loop asks for the details of the places in the order of
    the search, afresh (without a page token) once per place and for no
    other place; when it completes it has done so for every place, and the
    review rows it has added come in one group per place, in that order,
    each row with the name, the address and the review count of its
    place. *)
Theorem reviews_grouped_by_place fuel places business_data reviews_data clock :
  let run := collect env fuel places business_data reviews_data clock in
  (exists k, tokenless_calls (snd run) = map (@place_id float) (firstn k places))
  /\ forall data, fst run = Ok data ->
       tokenless_calls (snd run) = map (@place_id float) places
       /\ exists groups,
            snd data = reviews_data ++ List.concat groups
            /\ Forall2 (fun place group => Forall (row_of_place place) group)
                       places groups.
Proof.
  cbv zeta.
  assert (Hcalls : forall business_data reviews_data clock,
            let run := collect env fuel places business_data reviews_data clock in
            (exists k, tokenless_calls (snd run)
                       = map (@place_id float) (firstn k places))
            /\ forall data, fst run = Ok data ->
                 tokenless_calls (snd run) = map (@place_id float) places).
  { clear. induction places as [|place places IH];
      intros business_data reviews_data clock; cbv zeta.
    - simpl. split; [exists 0; reflexivity|]. intros data _. reflexivity.
    - simpl collect. rewrite bind_run.
      pose proof (fetch_reviews_tokenless fuel (place_id place)
                    (Business (business_row place)) (Address (business_row place))
                    (Reviews_Count (business_row place)) None reviews_data clock) as Ht.
      cbv zeta in Ht. change (passed_token None) with (@None string) in Ht.
      destruct (fetch_reviews env fuel (place_id place) _ _ _ None reviews_data clock)
        as [[rows|e|] es] eqn:Hrun; simpl snd in Ht.
      + assert (Hone : tokenless_calls es = [place_id place]).
        { rewrite Ht. destruct fuel; [discriminate|reflexivity]. }
        specialize (IH (business_data ++ [business_row place]) rows
                       (clock + List.length es)).
        cbv zeta in IH. destruct IH as ((k & Hk) & Hok).
        unfold prepend. cbn [fst snd]. rewrite tokenless_calls_app, Hone. split.
        * exists (S k). simpl. now rewrite Hk.
        * intros data Hd. simpl. f_equal. exact (Hok data Hd).
      + simpl. split; [|discriminate].
        destruct fuel; [exists 0|exists 1]; rewrite Ht; reflexivity.
      + simpl. split; [|discriminate].
        destruct fuel; [exists 0|exists 1]; rewrite Ht; reflexivity. }
  destruct (Hcalls business_data reviews_data clock) as [Hprefix Hall].
  split; [exact Hprefix|].
  intros data Hd. split; [exact (Hall data Hd)|].
  destruct (collect env fuel places business_data reviews_data clock) as [r es] eqn:Hrun.
  simpl in Hd. subst r. exact (collect_groups fuel places _ _ _ _ _ Hrun).
Qed.

Lemma competitor_report_collect fuel location_input business_type clock data es :
  competitor_report env fuel location_input business_type clock = (Ok data, es) ->
  exists places clock' es',
    collect env fuel places [] [] clock' = (Ok data, es').
Proof.
  unfold competitor_report. intros H.
  apply bind_ok_inv in H. destruct H as (coordinates & es1 & es2 & _ & H & _).
  apply bind_ok_inv in H. destruct H as (places & es3 & es4 & _ & H & _).
  apply bind_ok_inv in H. destruct H as (data' & es5 & es6 & Hc & H & _).
  apply bind_ok_inv in H. destruct H as (u & es7 & es8 & _ & H & _).
  apply bind_ok_inv in H. destruct H as (u' & es9 & es10 & _ & H & _).
  injection H as <- _. eauto.
Qed.

(** X7.  Every review the first half of the main logic collects belongs to a
    business of the table it saves: the review row carries the name, the
    address and the review count of one of the table's rows.  So the
    businesses analysed are businesses of the table. *)
Theorem reviews_belong_to_listed_businesses fuel location_input business_type clock
    data es :
  competitor_report env fuel location_input business_type clock = (Ok data, es) ->
  Forall (fun row =>
            exists b, In b (fst data)
                      /\ R_Business row = Business b /\ R_Address row = Address b
                      /\ R_Reviews_Count row = Reviews_Count b) (snd data)
  /\ incl (businesses_of (snd data)) (map (@Business float) (fst data)).
Proof.
  intros Hreport.
  destruct (competitor_report_collect _ _ _ _ _ _ Hreport) as (places & clock' & es' & Hc).
  pose proof (collect_cases env fuel places [] [] clock') as Hcases.
  cbv zeta in Hcases. rewrite Hc in Hcases.
  destruct Hcases as (_ & _ & Hdata). destruct (Hdata data eq_refl) as [Hbd _].
  destruct (collect_groups fuel places _ _ _ _ _ Hc) as (groups & Hrd & Hall).
  simpl in Hbd, Hrd.
  assert (Hrows : Forall (fun row =>
            exists b, In b (fst data)
                      /\ R_Business row = Business b /\ R_Address row = Address b
                      /\ R_Reviews_Count row = Reviews_Count b) (snd data)).
  { rewrite Hrd, Hbd. clear Hrd Hbd Hdata Hc Hreport.
    induction Hall as [|place group places groups Hgroup _ IH]; simpl; [constructor|].
    apply Forall_app. split.
    - eapply Forall_impl; [|exact Hgroup].
      intros row (H1 & H2 & H3). exists (business_row place). simpl. auto.
    - eapply Forall_impl; [|exact IH].
      intros row (b & Hb & H). exists b. simpl. auto. }
  split; [exact Hrows|].
  intros b Hb. unfold businesses_of, Py.unique in Hb.
  assert (Hin : In b (map (@R_Business float) (snd data))).
  { revert Hb. generalize (@nil string).
    induction (map (@R_Business float) (snd data)) as [|x l IH]; simpl; intros seen Hb.
    - contradiction.
    - destruct (existsb (String.eqb x) seen).
      + right. eapply IH. exact Hb.
      + destruct Hb as [Hb|Hb]; [now left|right; eapply IH; exact Hb]. }
  apply in_map_iff in Hin. destruct Hin as (row & <- & Hrow).
  rewrite Forall_forall in Hrows. destruct (Hrows row Hrow) as (b & Hb' & -> & _).
  now apply in_map.
Qed.

End Collect.

(** ** The analysis of the reviews *)

Section Analysis.

Local Open Scope list_scope.

Context {float : Type}.
Variable env : Env float.

Lemma unique_from_distinct seen l :
  Py.unique_from seen l = AspectSummary.distinct String.eqb seen l.
Proof.
  revert seen. induction l as [|x l IH]; intros seen; simpl; trivial.
  now rewrite !IH.
Qed.

Lemma businesses_of_In (reviews_data : list (ReviewRow float)) business :
  In business (businesses_of reviews_data)
  <-> exists row, In row reviews_data /\ R_Business row = business.
Proof.
  unfold businesses_of, Py.unique. rewrite unique_from_distinct.
  rewrite (AspectSummaryFacts.distinct_In _ _ String.eqb_eq), in_map_iff.
  split.
  - intros [(row & H1 & H2) _]. eauto.
  - intros (row & H1 & H2). split; [eauto|intros []].
Qed.

Lemma businesses_of_NoDup (reviews_data : list (ReviewRow float)) :
  NoDup (businesses_of reviews_data).
Proof.
  unfold businesses_of, Py.unique. rewrite unique_from_distinct.
  apply (AspectSummaryFacts.distinct_NoDup _ _ String.eqb_eq).
Qed.

Lemma reviews_handed_cons (row : ReviewRow float) rows businesses :
  reviews_handed (row :: rows) businesses
  = fold_right (fun b acc => (if String.eqb (R_Business row) b then 1 else 0) + acc)
               0 businesses
    + reviews_handed rows businesses.
Proof.
  unfold reviews_handed, list_sum.
  induction businesses as [|b businesses IH]; [reflexivity|].
  rewrite !map_cons. cbn [fold_right]. rewrite IH.
  unfold reviews_of at 1 3. cbn [filter].
  destruct (String.eqb (R_Business row) b); cbn [map List.length]; lia.
Qed.

Lemma reviews_handed_all (reviews_data : list (ReviewRow float)) businesses :
  NoDup businesses ->
  (forall row, In row reviews_data -> In (R_Business row) businesses) ->
  reviews_handed reviews_data businesses = List.length reviews_data.
Proof.
  intros Hnd. induction reviews_data as [|row rows IH]; intros Hall.
  - clear. unfold reviews_handed, reviews_of. simpl.
    induction businesses; simpl; trivial.
  - rewrite reviews_handed_cons.
    rewrite (AspectSummaryFacts.one_column string String.eqb (fun _ => false) String.eqb_eq businesses
               (R_Business row) Hnd) by (apply Hall; now left).
    rewrite IH; [reflexivity|]. intros r Hr. apply Hall. now right.
Qed.

Lemma reviews_handed_businesses_of (reviews_data : list (ReviewRow float)) :
  reviews_handed reviews_data (businesses_of reviews_data) = List.length reviews_data.
Proof.
  apply reviews_handed_all; [apply businesses_of_NoDup|].
  intros row Hrow. apply businesses_of_In. eauto.
Qed.

(** X8.  The analysis handles each business name once, in the order of first
    appearance, and only names that have a review; and every review is
    handed to the analysis exactly once, with the business it belongs to:
    the batches of the businesses add up to the reviews collected. *)
Theorem every_review_in_one_batch (reviews_data : list (ReviewRow float)) :
  NoDup (businesses_of reviews_data)
  /\ (forall business,
        In business (businesses_of reviews_data)
        <-> reviews_of reviews_data business <> [])
  /\ reviews_handed reviews_data (businesses_of reviews_data)
     = List.length reviews_data
  /\ (forall business review_text,
        In review_text (reviews_of reviews_data business)
        <-> exists row, In row reviews_data /\ R_Business row = business
                        /\ R_Review row = review_text).
Proof.
  split; [apply businesses_of_NoDup|]. split; [|split].
  - intros business. rewrite businesses_of_In. unfold reviews_of. split.
    + intros (row & Hin & Hb) Hnil.
      assert (H : In (R_Review row)
                     (map (@R_Review float)
                        (filter (fun r => String.eqb (R_Business r) business)
                                reviews_data))).
      { apply in_map, filter_In. split; trivial. now apply String.eqb_eq. }
      rewrite Hnil in H. contradiction.
    + intros Hne.
      destruct (filter (fun r => String.eqb (R_Business r) business) reviews_data)
        as [|row rows] eqn:Hf; [contradiction|].
      assert (H : In row (filter (fun r => String.eqb (R_Business r) business)
                                 reviews_data)) by (rewrite Hf; now left).
      apply filter_In in H. destruct H as [Hin Hb]. apply String.eqb_eq in Hb. eauto.
  - apply reviews_handed_businesses_of.
  - intros business review_text. unfold reviews_of. rewrite in_map_iff. split.
    + intros (row & Hr & Hin). apply filter_In in Hin. destruct Hin as [Hin Hb].
      apply String.eqb_eq in Hb. eauto.
    + intros (row & Hin & Hb & Hr). exists row. split; trivial.
      apply filter_In. split; trivial. now apply String.eqb_eq.
Qed.

(** *** Aspect records *)

Lemma collect_aspects_mappings business (batch_aspects : list (pyval float)) :
  forall aspect_results clock,
  forallb is_mapping batch_aspects = true ->
  collect_aspects business batch_aspects aspect_results clock
  = (Ok (aspect_results ++ records_of business batch_aspects), []).
Proof.
  induction batch_aspects as [|v batch_aspects IH]; intros aspect_results clock Hall.
  - simpl. now rewrite app_nil_r.
  - simpl in Hall. apply andb_true_iff in Hall. destruct Hall as [Hv Hall].
    destruct v; try discriminate. simpl.
    rewrite (IH _ _ Hall), <- app_assoc. reflexivity.
Qed.

(** X9.  The parses of a business turn into aspect records, one per item of
    each mapping and in order, all under the name of the business, after
    the records there were.  A parse that is not a mapping (a list, a
    string, a number, [null]...) raises instead, with the message of the
    first such parse, and nothing is printed or called either way. *)
Theorem aspect_records_per_item business (batch_aspects : list (pyval float))
    aspect_results clock :
  collect_aspects business batch_aspects aspect_results clock
  = match find (fun v => negb (is_mapping v)) batch_aspects with
    | None => (Ok (aspect_results ++ records_of business batch_aspects), [])
    | Some other =>
        (Raise (Exception ("'" ++ type_name other
                           ++ "' object has no attribute 'items'")), [])
    end
  /\ Forall (fun record => AspectSummary.Business record = business)
            (records_of business batch_aspects).
Proof.
  split.
  - revert aspect_results clock.
    induction batch_aspects as [|v batch_aspects IH]; intros aspect_results clock.
    + simpl. now rewrite app_nil_r.
    + destruct v; try reflexivity. simpl. rewrite IH.
      destruct (find _ batch_aspects); [reflexivity|].
      now rewrite <- app_assoc.
  - unfold records_of. apply Forall_flat_map, Forall_forall. intros v _.
    destruct v; try constructor.
    apply Forall_map, Forall_forall. intros item _. reflexivity.
Qed.

(** *** Completion calls *)

Lemma completion_replies_none (es : list (event float)) :
  Forall (fun e => is_completion_call e = false) es -> completion_replies es = [].
Proof.
  induction 1 as [|e es He _ IH]; simpl; trivial. destruct e; simpl in *; congruence.
Qed.

Lemma for_businesses_calls reviews_data businesses :
  forall aspect_results clock,
  let run := for_businesses env reviews_data businesses aspect_results clock in
  List.length (completion_replies (snd run)) <= 3 * reviews_handed reviews_data businesses
  /\ (forall records, fst run = Ok records ->
        reviews_handed reviews_data businesses
        <= List.length (completion_replies (snd run))).
Proof.
  induction businesses as [|business businesses IH]; intros aspect_results clock;
    cbv zeta.
  - simpl. split; [lia|]. intros _ _. unfold reviews_handed. simpl. lia.
  - simpl for_businesses. rewrite bind_run, print_run. simpl List.length.
    rewrite bind_run.
    pose proof (for_reviews_calls env 3 (reviews_of reviews_data business) []
                  (clock + 1)) as Hcalls.
    cbv zeta in Hcalls. fold (analyze_reviews_batch env (reviews_of reviews_data business) 3)
      in Hcalls.
    destruct (analyze_reviews_batch env (reviews_of reviews_data business) 3 (clock + 1))
      as [r es]. simpl in Hcalls.
    destruct Hcalls as (Hbounds & results & -> & _).
    rewrite bind_run.
    destruct (collect_aspects_run business results aspect_results
                (clock + 1 + List.length es)) as [Hnil _].
    destruct (collect_aspects business results aspect_results
                (clock + 1 + List.length es)) as [[aspects|e|] es'];
      simpl in Hnil; subst es'.
    + specialize (IH aspects (clock + 1 + List.length es + 0)).
      cbv zeta in IH. destruct IH as [Hup Hlow].
      unfold prepend. cbn [fst snd]. simpl completion_replies.
      rewrite completion_replies_app, length_app.
      unfold reviews_handed in *. simpl list_sum. split; [lia|].
      intros records Hr. specialize (Hlow records Hr). lia.
    + unfold prepend. cbn [fst snd]. simpl completion_replies.
      rewrite app_nil_r. unfold reviews_handed. simpl list_sum.
      split; [lia|discriminate].
    + unfold prepend. cbn [fst snd]. simpl completion_replies.
      rewrite app_nil_r. unfold reviews_handed. simpl list_sum.
      split; [lia|discriminate].
Qed.

(** X10.  The analysis never makes more than three completion calls per review
    it was given, and when it completes it has made at least one for every
    review. *)
Theorem analysis_calls_per_review (reviews_data : list (ReviewRow float)) clock :
  let run := aspect_based_sentiment_analysis env reviews_data clock in
  List.length (completion_replies (snd run)) <= 3 * List.length reviews_data
  /\ (forall records, fst run = Ok records ->
        List.length reviews_data <= List.length (completion_replies (snd run))).
Proof.
  cbv zeta. unfold aspect_based_sentiment_analysis.
  destruct reviews_data as [|row rows].
  - simpl. split; [lia|discriminate].
  - cbn [Py.truthy_list negb]. rewrite bind_run, print_run. simpl List.length.
    pose proof (for_businesses_calls (row :: rows) (businesses_of (row :: rows)) []
                  (clock + 1)) as H.
    cbv zeta in H. rewrite reviews_handed_businesses_of in H.
    unfold prepend. cbn [fst snd]. simpl completion_replies. exact H.
Qed.

(** *** What the completion calls ask *)

Lemma for_reviews_about retries review_texts :
  forall batch_results clock,
  Forall (fun e => exists review_text,
                     In review_text review_texts /\ about_review review_text e)
         (snd (for_reviews env review_texts retries batch_results clock)).
Proof.
  intros batch_results clock.
  destruct (for_reviews_spec env retries review_texts batch_results clock)
    as (blocks & -> & Hall).
  simpl. clear batch_results clock.
  induction Hall as [|review_text block review_texts blocks Hb _ IH]; simpl.
  - constructor.
  - apply Forall_app. split.
    + destruct Hb as (Hab & _). eapply Forall_impl; [|exact Hab].
      intros e He. exists review_text. split; [now left|exact He].
    + eapply Forall_impl; [|exact IH].
      intros e (t & Hin & He). exists t. split; [now right|exact He].
Qed.

Lemma for_businesses_about reviews_data businesses :
  forall aspect_results clock,
  Forall (asks_about reviews_data)
         (snd (for_businesses env reviews_data businesses aspect_results clock)).
Proof.
  induction businesses as [|business businesses IH]; intros aspect_results clock.
  - constructor.
  - simpl for_businesses. rewrite bind_run, print_run. simpl List.length.
    rewrite bind_run.
    pose proof (for_reviews_about 3 (reviews_of reviews_data business) [] (clock + 1))
      as Habout.
    fold (analyze_reviews_batch env (reviews_of reviews_data business) 3) in Habout.
    destruct (analyze_reviews_batch_events env (reviews_of reviews_data business)
                (clock + 1)) as (batch & es & Heq & _).
    rewrite Heq in Habout |- *. simpl in Habout. rewrite bind_run.
    assert (Hes : Forall (asks_about reviews_data) es).
    { eapply Forall_impl; [|exact Habout].
      intros e (t & Hin & He). destruct e; simpl in *; trivial.
      destruct He as [-> ->]. split; trivial.
      unfold reviews_of in Hin. apply in_map_iff in Hin.
      destruct Hin as (row & <- & Hrow). apply filter_In in Hrow.
      exists row. tauto. }
    destruct (collect_aspects_run business batch aspect_results
                (clock + 1 + List.length es)) as [Hnil _].
    destruct (collect_aspects business batch aspect_results
                (clock + 1 + List.length es)) as [[aspects|e|] es'];
      simpl in Hnil; subst es'; unfold prepend; cbn [fst snd].
    + constructor; [exact I|]. apply Forall_app. split; trivial.
      rewrite app_nil_l. apply IH.
    + constructor; [exact I|]. apply Forall_app. split; [trivial|constructor].
    + constructor; [exact I|]. apply Forall_app. split; [trivial|constructor].
Qed.

(** X11.  The completion service is asked only about reviews that were
    collected: every completion call of the analysis names the model
    gemini-2.5-flash and carries the prompt built around the text of one
    of the review rows. *)
Theorem completions_ask_about_collected_reviews (reviews_data : list (ReviewRow float))
    clock :
  Forall (asks_about reviews_data)
         (snd (aspect_based_sentiment_analysis env reviews_data clock)).
Proof.
  unfold aspect_based_sentiment_analysis.
  destruct reviews_data as [|row rows]; [repeat constructor|].
  cbn [Py.truthy_list negb]. rewrite bind_run, print_run.
  unfold prepend. cbn [snd app]. constructor; [exact I|].
  apply for_businesses_about.
Qed.

End Analysis.

(** ** The analysis within the run *)

Section AnalysisInRun.

Local Open Scope list_scope.

Context {float : Type}.
Variable env : Env float.

(** The events of the [try] block once its first half has completed:
    those of the first half, those of the analysis, then reporting. *)
Lemma guarded_main_analysis fuel location_input business_type clock data es :
  competitor_report env fuel location_input business_type clock = (Ok data, es) ->
  exists rp,
    snd (guarded_main env fuel location_input business_type clock)
    = es ++ snd (aspect_based_sentiment_analysis env (snd data)
                   (clock + List.length es)) ++ rp
    /\ Forall reporting_event rp.
Proof.
  intros Hreport. unfold guarded_main, try_except, main_logic.
  rewrite bind_run, Hreport, bind_run.
  destruct (aspect_based_sentiment_analysis env (snd data) (clock + List.length es))
    as [[aspects|[msg|code]|] ex].
  - pose proof (summary_cases env (snd data) aspects
                  (clock + List.length es + List.length ex)) as Hs.
    cbv zeta in Hs. destruct aspects as [|record records].
    + rewrite Hs. unfold prepend. simpl. eexists. split; [reflexivity|].
      repeat constructor.
    + destruct Hs as [Hrp Hr].
      destruct (aspect_summary_report env (snd data) (record :: records) _)
        as [[[]|[msg|code]|] rp]; simpl in Hrp, Hr; try contradiction;
        unfold prepend; simpl.
      * exists rp. auto.
      * exists (rp ++ [Print (unexpected_error_line msg)]).
        rewrite <- !app_assoc. split; [reflexivity|].
        apply Forall_app. split; trivial. repeat constructor.
  - unfold prepend. simpl. exists [Print (unexpected_error_line msg)].
    rewrite <- !app_assoc. split; [reflexivity|]. repeat constructor.
  - unfold prepend. simpl. exists []. rewrite app_nil_r. split; [reflexivity|constructor].
  - unfold prepend. simpl. exists []. rewrite app_nil_r. split; [reflexivity|constructor].
Qed.

Lemma reporting_no_completion (rp : list (event float)) :
  Forall reporting_event rp -> completion_replies rp = [].
Proof.
  intros H. apply completion_replies_none. eapply Forall_impl; [|exact H].
  intros e He. now apply reporting_event_kind in He.
Qed.

Lemma analysis_calls (reviews_data : list (ReviewRow float)) clock :
  let run := aspect_based_sentiment_analysis env reviews_data clock in
  List.length (completion_replies (snd run)) <= 3 * List.length reviews_data.
Proof.
  cbv zeta. unfold aspect_based_sentiment_analysis.
  destruct reviews_data as [|row rows]; [simpl; lia|].
  cbn [Py.truthy_list negb]. rewrite bind_run, print_run. simpl List.length.
  pose proof (for_businesses_calls env (row :: rows) (businesses_of (row :: rows)) []
                (clock + 1)) as H.
  cbv zeta in H. rewrite reviews_handed_businesses_of in H.
  unfold prepend. cbn [fst snd]. simpl completion_replies. apply H.
Qed.

(** X12.  Whatever happens, the [try] block makes at most three completion
    calls for each review its details calls returned. *)
Theorem completion_calls_bounded_by_reviews fuel location_input business_type clock :
  let trace := snd (guarded_main env fuel location_input business_type clock) in
  List.length (completion_replies trace) <= 3 * reviews_seen trace.
Proof.
  cbv zeta.
  pose proof (competitor_report_path env fuel location_input business_type clock) as Hp.
  pose proof (guarded_main_cases env fuel location_input business_type clock) as Hg.
  cbv zeta in Hg.
  destruct (competitor_report env fuel location_input business_type clock)
    as [r es] eqn:Hreport.
  simpl in Hp, Hg.
  pose proof (report_path_writes env _ _ _ _ Hp) as [Hnc _].
  apply completion_replies_none in Hnc.
  destruct r as [data|[msg|code]|].
  - destruct (guarded_main_analysis _ _ _ _ _ _ Hreport) as (rp & -> & Hrp).
    destruct (report_done_shown env _ _ _ _ Hp) as [_ Hlen].
    rewrite !completion_replies_app, !length_app, Hnc, (reporting_no_completion rp Hrp).
    rewrite !reviews_seen_app.
    pose proof (analysis_calls (snd data) (clock + List.length es)) as Hcalls.
    cbv zeta in Hcalls. simpl List.length. lia.
  - rewrite Hg. simpl snd. rewrite completion_replies_app, Hnc. simpl. lia.
  - rewrite Hg. simpl snd. rewrite Hnc. simpl. lia.
  - rewrite Hg. simpl snd. rewrite Hnc. simpl. lia.
Qed.

(** *** A completion service that never gives a usable reply *)

Section NoUsableReply.

Hypothesis no_usable_reply :
  forall clock model contents,
    attempt_fails env (generate_content env clock model contents).

Lemma for_attempts_all_fail review_text attempts :
  forall batch_results clock,
  exists es,
    for_attempts env review_text attempts batch_results clock
    = (Ok (batch_results ++ [PyDict []]), es)
    /\ List.length (completion_replies es) = List.length attempts
    /\ Forall extraction_event es.
Proof.
  induction attempts as [|attempt attempts IH]; intros batch_results clock.
  - exists []. simpl. auto.
  - simpl for_attempts. rewrite bind_run.
    destruct (attempt_body_cases env review_text attempt batch_results clock)
      as [(v & Hu & _)|(_ & line & ->)].
    + pose proof (no_usable_reply clock gemini_model (prompt review_text)) as Hf.
      apply usable_parse_none in Hf. congruence.
    + rewrite bind_run, sleep_run.
      match goal with
      | |- context [for_attempts env review_text attempts batch_results ?c] =>
          destruct (IH batch_results c) as (es & -> & Hlen & Hev)
      end.
      eexists. unfold prepend. simpl. split; [reflexivity|].
      split; [simpl; now rewrite Hlen|]. repeat constructor; assumption.
Qed.

Lemma for_reviews_all_fail retries review_texts :
  forall batch_results clock,
  exists es,
    for_reviews env review_texts retries batch_results clock
    = (Ok (batch_results ++ repeat (PyDict []) (List.length review_texts)), es)
    /\ List.length (completion_replies es) = retries * List.length review_texts
    /\ Forall extraction_event es.
Proof.
  induction review_texts as [|review_text review_texts IH]; intros batch_results clock.
  - exists []. simpl. rewrite app_nil_r. repeat split; [lia|constructor].
  - simpl for_reviews. rewrite bind_run.
    destruct (for_attempts_all_fail review_text (seq 0 retries) batch_results clock)
      as (es & -> & Hlen & Hev).
    rewrite length_seq in Hlen.
    destruct (IH (batch_results ++ [PyDict []]) (clock + List.length es))
      as (es' & -> & Hlen' & Hev').
    exists (es ++ es'). unfold prepend. simpl. rewrite <- app_assoc.
    split; [reflexivity|]. split.
    + rewrite completion_replies_app, length_app, Hlen, Hlen'. lia.
    + apply Forall_app. auto.
Qed.

Lemma collect_aspects_nothing business n (aspect_results : list (AspectRow float))
    clock :
  collect_aspects business (repeat (PyDict []) n) aspect_results clock
  = (Ok aspect_results, []).
Proof.
  induction n as [|n IH]; simpl; [reflexivity|]. now rewrite app_nil_r.
Qed.

Lemma for_businesses_all_fail reviews_data businesses :
  forall aspect_results clock,
  exists es,
    for_businesses env reviews_data businesses aspect_results clock
    = (Ok aspect_results, es)
    /\ List.length (completion_replies es) = 3 * reviews_handed reviews_data businesses
    /\ Forall extraction_event es.
Proof.
  induction businesses as [|business businesses IH]; intros aspect_results clock.
  - exists []. simpl. auto.
  - simpl for_businesses. rewrite bind_run, print_run. simpl List.length.
    rewrite bind_run. unfold analyze_reviews_batch.
    destruct (for_reviews_all_fail 3 (reviews_of reviews_data business) [] (clock + 1))
      as (es & -> & Hlen & Hev).
    rewrite bind_run. simpl app. rewrite collect_aspects_nothing.
    match goal with
    | |- context [for_businesses env reviews_data businesses aspect_results ?c] =>
        destruct (IH aspect_results c) as (es' & -> & Hlen' & Hev')
    end.
    eexists. unfold prepend. simpl fst. simpl snd. split; [reflexivity|]. split.
    + simpl completion_replies.
      rewrite completion_replies_app, length_app, Hlen, Hlen'.
      unfold reviews_handed. simpl list_sum. lia.
    + constructor; [exact I|]. apply Forall_app. auto.
Qed.

(** X13.  When no reply of the completion service is usable (every call raises,
    or returns no text, a blank text or a text that does not parse), a run
    that has collected reviews makes exactly three completion calls per
    review, yields no aspect record, prints the no-aspect line in place of
    the summary and of the plots, and ends normally. *)
Theorem no_usable_reply_no_summary fuel location_input business_type clock data es :
  competitor_report env fuel location_input business_type clock = (Ok data, es) ->
  snd data <> [] ->
  exists ex,
    guarded_main env fuel location_input business_type clock
    = (Ok tt, es ++ Print running_line :: ex ++ [Print no_aspect_line])
    /\ Forall extraction_event ex
    /\ List.length (completion_replies ex) = 3 * List.length (snd data).
Proof.
  intros Hreport Hne.
  destruct (for_businesses_all_fail (snd data) (businesses_of (snd data)) []
              (clock + List.length es + 1)) as (ex & Hrun & Hlen & Hev).
  exists ex. rewrite reviews_handed_businesses_of in Hlen.
  split; [|auto].
  unfold guarded_main, try_except, main_logic.
  rewrite bind_run, Hreport, bind_run.
  unfold aspect_based_sentiment_analysis.
  destruct (snd data) as [|row rows] eqn:Hrd; [contradiction|].
  cbn [Py.truthy_list negb]. rewrite bind_run, print_run. simpl List.length.
  rewrite Hrun. unfold prepend. simpl. reflexivity.
Qed.

End NoUsableReply.

End AnalysisInRun.

(** ** The bar plots *)

Section BarPlots.

Local Open Scope list_scope.

Context {float : Type}.
Variable env : Env float.

Lemma in_index_records (aspect_results : list (AspectRow float)) business :
  AspectSummary.in_index (pyval float) (isna env) aspect_results business = true
  <-> exists record,
        In record aspect_results
        /\ AspectSummary.Business record = business
        /\ isna env (AspectSummary.Sentiment record) = false.
Proof.
  unfold AspectSummary.in_index, AspectSummary.index. rewrite existsb_exists. split.
  - intros (p & Hp & Hb). apply String.eqb_eq in Hb.
    apply (AspectSummaryFacts.distinct_In _ _ AspectSummaryFacts.pair_eqb_eq) in Hp.
    destruct Hp as [Hp _]. apply in_map_iff in Hp. destruct Hp as (record & <- & Hin).
    unfold AspectSummary.dropna in Hin. apply filter_In in Hin.
    destruct Hin as [Hin Hna]. apply negb_true_iff in Hna.
    exists record. auto.
  - intros (record & Hin & Hb & Hna).
    exists (AspectSummary.pair_of (pyval float) record). split.
    + apply (AspectSummaryFacts.distinct_In _ _ AspectSummaryFacts.pair_eqb_eq).
      split; [|intros []]. apply in_map. unfold AspectSummary.dropna.
      apply filter_In. split; trivial. now rewrite Hna.
    + simpl. now apply String.eqb_eq.
Qed.

(** X14.  The businesses that get a bar plot are those of the list, in order,
    that have an aspect record whose sentiment is not null; a business all
    of whose sentiments are null, or that has no record, gets none.  The
    plots are made in that order, up to the first one that raises, and all
    of them when the loop completes. *)
Theorem bar_plots_for_businesses_with_sentiment
    (aspect_results : list (AspectRow float)) businesses clock :
  let run := plot_businesses env aspect_results businesses clock in
  let due := filter (AspectSummary.in_index (pyval float) (isna env) aspect_results)
                    businesses in
  (exists rest, due = bar_plots (snd run) ++ rest /\ (fst run = Ok tt -> rest = []))
  /\ (forall business,
        In business due
        <-> In business businesses
            /\ exists record,
                 In record aspect_results
                 /\ AspectSummary.Business record = business
                 /\ isna env (AspectSummary.Sentiment record) = false).
Proof.
  cbv zeta. split.
  - revert clock. induction businesses as [|business businesses IH]; intros clock.
    + exists []. simpl. auto.
    + simpl plot_businesses. rewrite bind_run. simpl filter.
      destruct (AspectSummary.in_index _ _ aspect_results business).
      * rewrite library_cases.
        destruct (pandas_pyplot env clock (BarPlot business)) as [[]|msg].
        -- destruct (IH (clock + List.length
                           [Library (BarPlot business) (Returns tt) : event float]))
             as (rest & Hdue & Hok).
           exists rest. unfold prepend. simpl. rewrite Hdue at 1. auto.
        -- eexists. simpl. split; [reflexivity|discriminate].
      * unfold ret at 1.
        destruct (IH (clock + List.length (@nil (event float)))) as (rest & Hdue & Hok).
        exists rest. unfold prepend. simpl. auto.
  - intros business. rewrite filter_In, in_index_records. tauto.
Qed.

End BarPlots.

(** ** Service failures *)

Section Failures.

Local Open Scope list_scope.

Context {float : Type}.
Variable env : Env float.

Lemma stops_quiet {A : Type} (r : run_result A) (es : list (event float)) :
  no_service_failure es -> stops_at_failure (r, es).
Proof. intros H. now left. Qed.

Lemma stops_failing {A : Type} (e : event float) msg :
  service_failure e = Some msg ->
  stops_at_failure (Raise (A := A) (Exception msg), [e]).
Proof.
  intros H. right. exists [], e, msg. simpl. repeat split; trivial. constructor.
Qed.

Lemma stops_prepend {A : Type} (es : list (event float))
    (run : run_result A * list (event float)) :
  no_service_failure es -> stops_at_failure run -> stops_at_failure (prepend es run).
Proof.
  intros Hes [Hq|(pre & e & msg & Hrun & Hpre & He & Hr)].
  - left. unfold prepend. simpl. now apply Forall_app.
  - right. exists (es ++ pre), e, msg. unfold prepend. simpl.
    rewrite Hrun, app_assoc. repeat split; trivial. now apply Forall_app.
Qed.

Lemma stops_ok {A : Type} (a : A) (es : list (event float)) :
  stops_at_failure (Ok a, es) -> no_service_failure es.
Proof.
  intros [Hq|(pre & e & msg & _ & _ & _ & Hr)]; [exact Hq|discriminate].
Qed.

Lemma stops_bind {A B : Type} (m : M float A) (k : A -> M float B) clock :
  stops_at_failure (m clock) ->
  (forall a clock', stops_at_failure (k a clock')) ->
  stops_at_failure (bind m k clock).
Proof.
  intros Hm Hk. rewrite bind_run.
  destruct (m clock) as [[a|e|] es].
  - apply stops_prepend; [now apply stops_ok in Hm|apply Hk].
  - destruct Hm as [Hq|(pre & e' & msg & Hes & Hpre & He & Hr)]; [now left|].
    right. exists pre, e', msg. simpl in *. injection Hr as ->. auto.
  - destruct Hm as [Hq|(pre & e & msg & _ & _ & _ & Hr)]; [now left|discriminate].
Qed.

Lemma stops_library c clock : stops_at_failure (library env c clock).
Proof.
  rewrite library_cases. destruct (pandas_pyplot env clock c) as [[]|msg].
  - left. repeat constructor.
  - now apply stops_failing.
Qed.

Lemma stops_print line clock : stops_at_failure (print (float := float) line clock).
Proof. left. repeat constructor. Qed.

Lemma stops_geocode_location location_input clock :
  stops_at_failure (geocode_location env location_input clock).
Proof.
  rewrite geocode_location_cases.
  destruct (maps_geocode env clock location_input) as [[|first rest]|msg].
  - left. repeat constructor.
  - left. repeat constructor.
  - now apply stops_failing.
Qed.

Lemma stops_search_nearby location_input business_type coordinates clock :
  stops_at_failure (search_nearby env location_input business_type coordinates clock).
Proof.
  pose proof (search_nearby_cases env location_input business_type coordinates clock)
    as Hs.
  cbv zeta in Hs. rewrite Hs.
  destruct (maps_places_nearby env clock _ 2000 business_type business_type)
    as [places_result|msg].
  - destruct (places_of places_result); left; repeat constructor.
  - now apply stops_failing.
Qed.

Lemma stops_fetch_reviews fuel id name address reviews_count :
  forall token reviews_data clock,
  stops_at_failure (fetch_reviews env fuel id name address reviews_count token
                                  reviews_data clock).
Proof.
  induction fuel as [|fuel IH]; intros token reviews_data clock.
  - left. constructor.
  - rewrite fetch_reviews_step.
    destruct (maps_place env clock id (passed_token token)) as [details|msg].
    + destruct (Py.truthy_opt (next_page_token details)).
      * specialize (IH (next_page_token details)
                       (reviews_data ++ page_rows name address reviews_count details)
                       (clock + 2)).
        destruct (fetch_reviews env fuel id name address reviews_count
                    (next_page_token details) _ (clock + 2)) as [r es].
        apply (stops_prepend [PlaceDetails id (passed_token token) (Returns details);
                              Sleep 2] (r, es)); [repeat constructor|exact IH].
      * left. repeat constructor.
    + now apply stops_failing.
Qed.

Lemma stops_collect fuel places :
  forall business_data reviews_data clock,
  stops_at_failure (collect env fuel places business_data reviews_data clock).
Proof.
  induction places as [|place places IH]; intros business_data reviews_data clock.
  - left. constructor.
  - simpl collect. apply stops_bind; [apply stops_fetch_reviews|].
    intros rows clock'. apply IH.
Qed.

Lemma stops_competitor_report fuel location_input business_type clock :
  stops_at_failure (competitor_report env fuel location_input business_type clock).
Proof.
  unfold competitor_report, save_competitor_data, reviews_vs_rating_graph.
  apply stops_bind; [apply stops_geocode_location|]. intros coordinates c1.
  apply stops_bind; [apply stops_search_nearby|]. intros places c2.
  apply stops_bind; [apply stops_collect|]. intros data c3.
  apply stops_bind.
  { apply stops_bind; [apply stops_library|]. intros _ c4.
    apply stops_bind; [apply stops_print|]. intros _ c5.
    apply stops_bind; [apply stops_library|]. intros _ c6.
    apply stops_print. }
  intros _ c4. apply stops_bind; [apply stops_library|]. intros _ c5.
  left. constructor.
Qed.

Lemma extraction_no_failure (es : list (event float)) :
  Forall extraction_event es -> no_service_failure es.
Proof.
  intros H. eapply Forall_impl; [|exact H]. intros e. destruct e; simpl; tauto.
Qed.

Lemma stops_analysis reviews_data clock :
  stops_at_failure (aspect_based_sentiment_analysis env reviews_data clock).
Proof.
  pose proof (analysis_cases env reviews_data clock) as Ha. cbv zeta in Ha.
  destruct reviews_data as [|row rows].
  - rewrite Ha. left. repeat constructor.
  - destruct Ha as (ex & Hex & Hev & _). left. unfold no_service_failure.
    rewrite Hex. constructor; [reflexivity|]. now apply extraction_no_failure.
Qed.

Lemma stops_plot_businesses aspect_results businesses :
  forall clock, stops_at_failure (plot_businesses env aspect_results businesses clock).
Proof.
  induction businesses as [|business businesses IH]; intros clock.
  - left. constructor.
  - simpl plot_businesses. apply stops_bind; [|intros _ clock'; apply IH].
    destruct (AspectSummary.in_index _ _ aspect_results business).
    + apply stops_library.
    + left. constructor.
Qed.

Lemma stops_summary reviews_data aspect_results clock :
  stops_at_failure (aspect_summary_report env reviews_data aspect_results clock).
Proof.
  unfold aspect_summary_report. destruct (Py.truthy_list aspect_results).
  - apply stops_bind; [apply stops_library|]. intros _ c1.
    apply stops_bind; [apply stops_print|]. intros _ c2.
    apply stops_bind; [apply stops_library|]. intros _ c3.
    apply stops_plot_businesses.
  - apply stops_print.
Qed.

Lemma stops_main_logic fuel location_input business_type clock :
  stops_at_failure (main_logic env fuel location_input business_type clock).
Proof.
  unfold main_logic.
  apply stops_bind; [apply stops_competitor_report|]. intros data c1.
  apply stops_bind; [apply stops_analysis|]. intros aspect_results c2.
  apply stops_summary.
Qed.

(** X15.  A call to Google Maps or to pandas and matplotlib that raises inside
    the [try] block ends the work at once: no call before it had failed,
    nothing follows it but the line of the handler, which carries the
    error of that call, and the block ends normally, so that the process
    exits with status 0.  A block without such a failure has none at
    all. *)
Theorem service_failure_ends_the_work fuel location_input business_type clock :
  let run := guarded_main env fuel location_input business_type clock in
  no_service_failure (snd run)
  \/ exists pre e msg,
       run = (Ok tt, pre ++ [e; Print (unexpected_error_line msg)])
       /\ no_service_failure pre
       /\ service_failure e = Some msg
       /\ exit_status (fst run) = Some 0%Z.
Proof.
  cbv zeta. unfold guarded_main, try_except.
  pose proof (stops_main_logic fuel location_input business_type clock) as Hm.
  destruct (main_logic env fuel location_input business_type clock) as [r es].
  destruct Hm as [Hq|(pre & e & msg & Hes & Hpre & He & Hr)]; simpl in *.
  - left. destruct r as [[]|[msg|code]|]; simpl; trivial.
    apply Forall_app. split; trivial. repeat constructor.
  - right. subst r es. exists pre, e, msg. simpl. rewrite <- app_assoc.
    repeat split; trivial.
Qed.

End Failures.

(** ** Runs that do not end *)

Section Fuel.

Local Open Scope list_scope.

Context {float : Type}.
Variable env : Env float.



End Fuel.

(** ** More on the aspect summary *)

Module AspectSummaryMore.
Import AspectSummary AspectSummaryFacts.

Section MoreFacts.

Variable Label : Type.
Variable label_eqb : Label -> Label -> bool.
Variable isna : Label -> bool.
Hypothesis label_eqb_eq : forall x y, label_eqb x y = true <-> x = y.

Lemma find_no_key {K V : Type} (eqb : K -> K -> bool) (F : K -> V) keys k :
  (forall x y, eqb x y = true <-> x = y) ->
  ~ In k keys ->
  find (fun row => eqb (fst row) k) (map (fun x => (x, F x)) keys) = None.
Proof.
  intros Heq. induction keys as [|x keys IH]; simpl; trivial.
  intros Hin. destruct (eqb x k) eqn:E.
  - apply Heq in E. subst. exfalso. apply Hin. now left.
  - apply IH. intros H. apply Hin. now right.
Qed.

Lemma group_size_le_total records p s :
  group_size Label label_eqb isna records p s <= pair_total Label isna records p.
Proof.
  unfold group_size, pair_total.
  induction (dropna Label isna records) as [|r l IH]; simpl; trivial.
  destruct (pair_eqb (pair_of Label r) p); simpl; trivial.
  destruct (label_eqb (Sentiment r) s); simpl; lia.
Qed.

Lemma percent_bounds (c t : nat) :
  c <= t -> 0 < t -> (0 <= Qnat c / Qnat t * 100 /\ Qnat c / Qnat t * 100 <= 100)%Q.
Proof.
  intros Hc Ht. destruct t as [|t]; [lia|].
  unfold Qnat, Qdiv, Qmult, Qinv, Qle. simpl.
  split; nia.
Qed.

(** X18.  The summary never divides by zero: every row of the count table has a
    positive sum, and a pair with no recorded label (none at all, or only
    missing ones) has no row. *)
Theorem rows_have_labels records :
  Forall (fun row => 0 < row_sum Label (snd row))
         (aspect_summary Label label_eqb isna records)
  /\ forall p,
       pair_total Label isna records p = 0 ->
       row_of (aspect_summary_percent Label label_eqb isna records) p = None.
Proof.
  split.
  - unfold aspect_summary. apply Forall_forall. intros row Hin.
    apply in_map_iff in Hin. destruct Hin as (p & <- & Hp). simpl.
    rewrite (row_sum_total Label label_eqb isna label_eqb_eq).
    now apply index_In.
  - intros p Hp. unfold row_of, aspect_summary_percent, aspect_summary.
    rewrite map_map. simpl.
    rewrite (find_no_key pair_eqb _ (index Label isna records) p pair_eqb_eq);
      [reflexivity|].
    intros Hin. apply index_In in Hin. lia.
Qed.

(** X19.  Every percentage of the table lies between 0 and 100. *)
Theorem percentages_between_0_and_100 records :
  forall row cell,
    In row (aspect_summary_percent Label label_eqb isna records) ->
    In cell (snd row) ->
    (0 <= snd cell /\ snd cell <= 100)%Q.
Proof.
  intros row cell Hrow Hcell.
  unfold aspect_summary_percent, aspect_summary in Hrow.
  rewrite map_map in Hrow. apply in_map_iff in Hrow.
  destruct Hrow as (p & <- & Hp). simpl in Hcell.
  rewrite map_map in Hcell. apply in_map_iff in Hcell.
  destruct Hcell as (s & <- & Hs). simpl.
  rewrite (row_sum_total Label label_eqb isna label_eqb_eq).
  apply percent_bounds.
  - apply group_size_le_total.
  - now apply index_In.
Qed.

Lemma filter_length_perm {A : Type} (f : A -> bool) (l l' : list A) :
  Permutation l l' -> List.length (filter f l) = List.length (filter f l').
Proof.
  induction 1 as [|x l l' _ IH|x y l|l l' l'' _ IH1 _ IH2]; simpl; trivial.
  - destruct (f x); simpl; congruence.
  - destruct (f x), (f y); reflexivity.
  - congruence.
Qed.

Lemma dropna_perm records records' :
  Permutation records records' ->
  Permutation (dropna Label isna records) (dropna Label isna records').
Proof.
  unfold dropna.
  induction 1 as [|x l l' _ IH|x y l|l l' l'' _ IH1 _ IH2]; simpl.
  - constructor.
  - destruct (negb (isna (Sentiment x))); [now constructor|assumption].
  - destruct (negb (isna (Sentiment x))), (negb (isna (Sentiment y)));
      try apply Permutation_refl. apply perm_swap.
  - eapply Permutation_trans; eassumption.
Qed.

(** X20.  The counts do not depend on the order in which the aspect records
    were produced: reordering [aspect_results] changes no group size, no
    row total, and neither the set of rows nor the set of columns. *)
Theorem summary_ignores_order records records' :
  Permutation records records' ->
  (forall p s, group_size Label label_eqb isna records p s
               = group_size Label label_eqb isna records' p s)
  /\ (forall p, pair_total Label isna records p = pair_total Label isna records' p)
  /\ (forall p, In p (index Label isna records) <-> In p (index Label isna records'))
  /\ (forall s, In s (columns Label label_eqb isna records)
                <-> In s (columns Label label_eqb isna records')).
Proof.
  intros Hperm. pose proof (dropna_perm _ _ Hperm) as Hd.
  split; [|split; [|split]].
  - intros p s. unfold group_size. now apply filter_length_perm.
  - intros p. unfold pair_total. now apply filter_length_perm.
  - intros p. rewrite !(index_In Label isna). unfold pair_total.
    now rewrite (filter_length_perm _ _ _ Hd).
  - intros s. rewrite !(columns_In Label label_eqb isna label_eqb_eq). split; intros H.
    + eapply Permutation_in; [|exact H]. now apply Permutation_map.
    + eapply Permutation_in; [|exact H]. apply Permutation_sym. now apply Permutation_map.
Qed.

Lemma count_partition {A K : Type} (key : A -> K) (eqb : K -> K -> bool) keys l :
  (forall x y, eqb x y = true <-> x = y) ->
  NoDup keys ->
  (forall a, In a l -> In (key a) keys) ->
  list_sum (map (fun k => List.length (filter (fun a => eqb (key a) k) l)) keys)
  = List.length l.
Proof.
  intros Heq Hnd. unfold list_sum.
  induction l as [|a l IH]; intros Hall.
  - simpl. clear. induction keys; simpl; trivial.
  - assert (Hstep : forall ks,
              fold_right Nat.add 0
                (map (fun k => List.length (filter (fun a => eqb (key a) k) (a :: l))) ks)
              = fold_right (fun k acc => (if eqb (key a) k then 1 else 0) + acc) 0 ks
                + fold_right Nat.add 0
                    (map (fun k => List.length (filter (fun a => eqb (key a) k) l)) ks)).
    { induction ks as [|k ks IHks]; [reflexivity|].
      rewrite !map_cons. cbn [fold_right]. rewrite IHks. cbn [filter].
      destruct (eqb (key a) k); cbn [List.length]; lia. }
    rewrite Hstep, (one_column K eqb (fun _ => false) Heq keys (key a) Hnd)
      by (apply Hall; now left).
    rewrite IH; [reflexivity|]. intros b Hb. apply Hall. now right.
Qed.

(** X21.  The count table counts every record once: its cells add up to the
    number of records whose sentiment is not null, so that no record is
    lost or counted twice by the grouping. *)
Theorem table_counts_every_record records :
  list_sum (map (fun row => row_sum Label (snd row))
                (aspect_summary Label label_eqb isna records))
  = List.length (dropna Label isna records).
Proof.
  unfold aspect_summary. rewrite map_map. simpl.
  rewrite (map_ext _ (pair_total Label isna records))
    by (intros p; apply (row_sum_total Label label_eqb isna label_eqb_eq)).
  unfold pair_total.
  apply (count_partition (pair_of Label) pair_eqb).
  - apply pair_eqb_eq.
  - apply (distinct_NoDup _ _ pair_eqb_eq).
  - intros r Hr. apply (distinct_In _ _ pair_eqb_eq). split; [|intros []].
    now apply in_map.
Qed.

End MoreFacts.
End AspectSummaryMore.

(** ** Further examples on the sample environments *)

Module MoreSampleFacts.

Local Open Scope list_scope.

Lemma failing_completion_fails clock model contents :
  attempt_fails Sample.env_without_completions
    (generate_content Sample.env_without_completions clock model contents).
Proof.
  simpl. unfold Sample.failing_completion.
  destruct (Nat.modulo clock 4) as [|[|[|n]]].
  - apply call_raises.
  - apply no_text.
  - apply empty_text. reflexivity.
  - apply unparseable_text with (msg := "Expecting value: line 1 column 1 (char 0)").
    reflexivity.
Qed.

Lemma blank_text_is_empty_response_witness :
  attempt_body Sample.env_without_completions "Slow" 0 [] 2
  = (Ok None,
     [GenerateContent gemini_model (prompt "Slow") (Returns (Some "  "));
      Print "Empty response, retry 1"]).
Proof.
  apply (proj1 (blank_text_is_empty_response Sample.env_without_completions
                  "Slow" 0 [] 2 "  " eq_refl)).
  reflexivity.
Defined.

Lemma requests_use_normalised_input_witness :
  Forall normalised_request (snd (script Sample.env 5 0)).
Proof.
  apply (proj2 (requests_use_normalised_input Sample.env 5) "Restaurant");
    reflexivity.
Defined.

Lemma reviews_belong_to_listed_businesses_witness :
  incl (businesses_of MoreSamples.collected)
       (map (@Business Sample.float) (map business_row [Sample.cafe; Sample.stall])).
Proof.
  assert (Hreport :
            competitor_report Sample.env 5 "Mumbai CST" "restaurant" 4
            = (Ok (map business_row [Sample.cafe; Sample.stall], MoreSamples.collected),
               snd (competitor_report Sample.env 5 "Mumbai CST" "restaurant" 4)))
    by (vm_compute; reflexivity).
  exact (proj2 (reviews_belong_to_listed_businesses Sample.env 5
                  "Mumbai CST" "restaurant" 4 _ _ Hreport)).
Defined.

Lemma no_usable_reply_no_summary_witness :
  exists ex,
    guarded_main Sample.env_without_completions 5 "Mumbai CST" "restaurant" 4
    = (Ok tt,
       snd (competitor_report Sample.env_without_completions 5
              "Mumbai CST" "restaurant" 4)
       ++ Print running_line :: ex ++ [Print no_aspect_line])
    /\ List.length (completion_replies ex) = 6.
Proof.
  assert (Hreport :
            competitor_report Sample.env_without_completions 5
              "Mumbai CST" "restaurant" 4
            = (Ok (map business_row [Sample.cafe; Sample.stall], MoreSamples.collected),
               snd (competitor_report Sample.env_without_completions 5
                      "Mumbai CST" "restaurant" 4)))
    by (vm_compute; reflexivity).
  destruct (no_usable_reply_no_summary Sample.env_without_completions
              failing_completion_fails 5 "Mumbai CST" "restaurant" 4 _ _ Hreport)
    as (ex & Hrun & _ & Hlen); [discriminate|].
  exists ex. split; [exact Hrun|exact Hlen].
Defined.


Lemma rows_have_labels_witness :
  AspectSummary.row_of
    (AspectSummary.aspect_summary_percent string String.eqb (fun _ => false)
       SampleFacts.sample_records) ("Stall", "price") = None.
Proof.
  apply (proj2 (AspectSummaryMore.rows_have_labels string String.eqb (fun _ => false)
                  String.eqb_eq SampleFacts.sample_records)).
  reflexivity.
Defined.

Lemma percentages_between_0_and_100_witness :
  let table := AspectSummary.aspect_summary_percent string String.eqb (fun _ => false)
                 SampleFacts.sample_records in
  let row := nth 0 table ((EmptyString, EmptyString), []) in
  let cell := nth 0 (snd row) (EmptyString, 0%Q) in
  (0 <= snd cell /\ snd cell <= 100)%Q.
Proof.
  cbv zeta.
  apply (AspectSummaryMore.percentages_between_0_and_100 string String.eqb
           (fun _ => false) String.eqb_eq SampleFacts.sample_records
           (nth 0 (AspectSummary.aspect_summary_percent string String.eqb
                     (fun _ => false) SampleFacts.sample_records) ((EmptyString, EmptyString), []))).
  - vm_compute. left. reflexivity.
  - vm_compute. left. reflexivity.
Defined.

Lemma summary_ignores_order_witness :
  AspectSummary.pair_total string (fun _ => false) SampleFacts.sample_records
    ("Cafe", "service")
  = AspectSummary.pair_total string (fun _ => false) (rev SampleFacts.sample_records)
      ("Cafe", "service").
Proof.
  destruct (AspectSummaryMore.summary_ignores_order string String.eqb (fun _ => false)
              String.eqb_eq SampleFacts.sample_records (rev SampleFacts.sample_records)
              (Permutation_rev SampleFacts.sample_records)) as (_ & H & _).
  apply H.
Defined.

Lemma table_counts_every_record_witness :
  list_sum (map (fun row => AspectSummary.row_sum string (snd row))
                (AspectSummary.aspect_summary string String.eqb (fun _ => false)
                   SampleFacts.sample_records))
  = 5.
Proof.
  exact (AspectSummaryMore.table_counts_every_record string String.eqb (fun _ => false)
           String.eqb_eq SampleFacts.sample_records).
Defined.

End MoreSampleFacts.
